(** * Workflow orchestration core of the multi-agent system

    A shallow embedding of [multi-agent-system/lib/BaseAgent.js] and
    [multi-agent-system/lib/AgentOrchestrator.js], followed by the
    properties of agent registration, step execution with retry, data
    threading, escalation and the admission counter.

    Conventions of the embedding:
    - JavaScript numbers that the code uses as counters, attempt numbers
      and millisecond readings are integers in [Z], which is what the
      source's doubles hold as long as they stay below [2^53]; the running
      average of processing times is a double, [float], computed with the
      arithmetic of IEEE 754 binary64 as the source computes it.
    - A JavaScript [Map] is a [gmap]; the agent registry maps a name to a
      reference into a heap of agent objects, so that two lookups of one
      name reach one object.
    - [async] functions are run to completion one after the other: one
      workflow execution at a time, no interleaving between awaits.
    - [Date.now()] reads a clock kept in the world; an agent call says how
      many milliseconds it took, and [sleep ms] advances the clock by [ms].
      [new Date().toISOString()] is kept as the millisecond reading. *)

From Stdlib Require Import ZArith Floats Lia.
From stdpp Require Import base tactics option list strings pretty gmap.

Local Open Scope string_scope.
Local Open Scope Z_scope.
Local Open Scope list_scope.
Local Set Warnings "-register-all".

(** ** JavaScript values carried as opaque payloads *)

Inductive JsVal : Type :=
| JUndefined
| JNull
| JBool (b : bool)
| JNum (n : Z)
| JStr (s : string)
| JObj (fields : list (string * JsVal))
| JArr (items : list JsVal).

(** Truthiness, as tested by [if (v)], [!v] and [v || d]. *)
Definition truthy (v : JsVal) : bool :=
  match v with
  | JUndefined | JNull => false
  | JBool b => b
  | JNum n => negb (Z.eqb n 0)
  | JStr s => negb (String.eqb s EmptyString)
  | JObj _ | JArr _ => true
  end.

(** The text a template literal [`${v}`] puts for a value. *)
Fixpoint template (v : JsVal) : string :=
  match v with
  | JUndefined => "undefined"
  | JNull => "null"
  | JBool true => "true"
  | JBool false => "false"
  | JNum n => pretty n
  | JStr s => s
  | JObj _ => "[object Object]"
  | JArr items =>
      let item x := match x with JUndefined | JNull => EmptyString | _ => template x end in
      (fix join (l : list JsVal) : string :=
         match l with
         | [] => EmptyString
         | [x] => item x
         | x :: rest => item x +:+ "," +:+ join rest
         end) items
  end.

Definition template_opt (s : option string) : string :=
  match s with Some x => x | None => "undefined" end.

Definition js_of_opt (s : option string) : JsVal :=
  match s with Some x => JStr x | None => JUndefined end.

(** [v.message] for a value that is not an [Error]: [None] where the
    read itself fails ([undefined] and [null] have no properties). Of an
    object literal with a repeated key the last entry counts. *)
Definition message_property (v : JsVal) : option JsVal :=
  match v with
  | JUndefined | JNull => None
  | JObj fields =>
      Some (default JUndefined
              (snd <$> last (filter (fun kv => bool_decide (kv.1 = "message")) fields)))
  | _ => Some JUndefined
  end.

(** The double that holds the integer [z]. Every integer that a double
    can hold, so every one up to [2^53], is converted exactly: the
    products and sums below are then exact. *)
Fixpoint number_pos (p : positive) : float :=
  match p with
  | xH => 1%float
  | xO q => (2 * number_pos q)%float
  | xI q => (2 * number_pos q + 1)%float
  end.

Definition number (z : Z) : float :=
  match z with
  | Z0 => 0%float
  | Zpos p => number_pos p
  | Zneg p => (- number_pos p)%float
  end.

(** The [TypeError] of reading [v.message] off [undefined] or [null]. *)
Definition message_error (v : JsVal) : string :=
  "Cannot read properties of " +:+ template v +:+ " (reading 'message')".
Arguments message_error : simpl never.

(** ** Data model *)

Module Task.
Record t : Type := mk {
  type : JsVal;
  data : JsVal;
  stepName : option string;
  stepConfig : JsVal
}.

(** [{ ...task, data: d }] *)
Definition with_data (d : JsVal) (task : t) : t :=
  mk (type task) d (stepName task) (stepConfig task).

(** [{ ...task, stepName: n, stepConfig: c }] *)
Definition with_step (n : option string) (c : JsVal) (task : t) : t :=
  mk (type task) (data task) n c.

Definition to_js (task : t) : JsVal :=
  JObj [("type", type task); ("data", data task);
        ("stepName", js_of_opt (stepName task)); ("stepConfig", stepConfig task)].
End Task.

Module AgentResult.
Record t : Type := mk {
  success : bool;
  agent : string;
  data : JsVal;
  error : option string;
  timestamp : Z
}.

Definition to_js (r : t) : JsVal :=
  JObj [("success", JBool (success r)); ("agent", JStr (agent r));
        ("data", data r); ("error", js_of_opt (error r));
        ("timestamp", JNum (timestamp r))].
End AgentResult.

Inductive Level : Type := info | warn | error | debug.

Record LogEntry : Type := Log { level : Level; message : string }.

Record Metrics : Type := mkMetrics {
  tasksProcessed : Z;
  errors : Z;
  averageProcessingTime : float
}.

Record HistoryEntry : Type := mkHistoryEntry {
  h_timestamp : Z;
  h_task : Task.t;
  h_result : JsVal;
  h_error : JsVal;
  h_state : string
}.

(** What one call of [agent.process(task)] does: it returns a result,
    throws an [Error] with a message, or throws a value that is not an
    [Error] ([undefined] for a promise rejected without a reason, [null],
    a string, an object literal, ...). *)
Inductive Outcome : Type :=
| Returned (r : AgentResult.t)
| Threw (msg : string)
| ThrewValue (v : JsVal).

(** ** Agents *)

Module Agent.
(** The fields every agent object has ([BaseAgent]'s constructor), and
    [priv] for what a subclass adds (knowledge base, histories, ...). *)
Record t (P : Type) : Type := mk {
  name : string;
  role : string;
  logger : bool;
  state : string;
  metrics : Metrics;
  conversationHistory : list HistoryEntry;
  priv : P
}.
Arguments mk {P}.
Arguments name {P}.
Arguments role {P}.
Arguments logger {P}.
Arguments state {P}.
Arguments metrics {P}.
Arguments conversationHistory {P}.
Arguments priv {P}.

Definition set_state {P} (s : string) (a : t P) : t P :=
  mk (name a) (role a) (logger a) s (metrics a) (conversationHistory a) (priv a).
Definition set_metrics {P} (m : Metrics) (a : t P) : t P :=
  mk (name a) (role a) (logger a) (state a) m (conversationHistory a) (priv a).
Definition set_conversationHistory {P} (h : list HistoryEntry) (a : t P) : t P :=
  mk (name a) (role a) (logger a) (state a) (metrics a) h (priv a).
Definition set_priv {P} (p : P) (a : t P) : t P :=
  mk (name a) (role a) (logger a) (state a) (metrics a) (conversationHistory a) p.
End Agent.

(** One run of [agent.process(task)]: outcome, the object afterwards, the
    milliseconds it took and what it sent to its logger. *)
Record ProcessRun (P : Type) : Type := mkRun {
  outcome : Outcome;
  after : Agent.t P;
  elapsed : Z;
  emitted : list LogEntry
}.
Arguments mkRun {P}.
Arguments outcome {P}.
Arguments after {P}.
Arguments elapsed {P}.
Arguments emitted {P}.

(** The methods the orchestrator calls on an agent object. [process] is
    given the task and the clock reading at the call. *)
Record AgentClass (P : Type) : Type := mkClass {
  process : Task.t -> Z -> Agent.t P -> ProcessRun P;
  updateMetrics : Z -> bool -> Agent.t P -> Agent.t P
}.
Arguments mkClass {P}.
Arguments process {P}.
Arguments updateMetrics {P}.

Module BaseAgent.
Section Methods.
Context {P : Type}.

(** [constructor(name, role, logger)], reached through [super(...)]. *)
Definition create (name role : string) (logger : bool) (p : P) : Agent.t P :=
  Agent.mk name role logger "idle" (mkMetrics 0 0 (number 0)) [] p.

(** [log(level, message, metadata)]: forwards to the logger when there is
    one. The metadata object is not kept. *)
Definition log (lvl : Level) (msg : string) (a : Agent.t P) : list LogEntry :=
  if Agent.logger a then [Log lvl msg] else [].

(** [setState(newState)] *)
Definition setState (newState : string) (a : Agent.t P) : Agent.t P * list LogEntry :=
  let oldState := Agent.state a in
  let a' := Agent.set_state newState a in
  (a', log info ("State transition: " +:+ oldState +:+ " -> " +:+ newState) a').

(** [recordTask(task, result, error = null)]: push, then drop the oldest
    entry once there are more than 100. *)
Definition recordTask (task : Task.t) (result : JsVal) (now : Z) (a : Agent.t P) : Agent.t P :=
  let pushed := Agent.conversationHistory a ++
                [mkHistoryEntry now task result JNull (Agent.state a)] in
  let kept := if Z.ltb 100 (Z.of_nat (length pushed)) then tail pushed else pushed in
  Agent.set_conversationHistory kept a.

(** [updateMetrics(processingTime, error = false)]. The two counters are
    integers; the average is computed in doubles. *)
Definition updateMetrics (processingTime : Z) (err : bool) (a : Agent.t P) : Agent.t P :=
  let m := Agent.metrics a in
  let n := tasksProcessed m + 1 in
  let e := if err then errors m + 1 else errors m in
  let total := (averageProcessingTime m * number (n - 1))%float in
  let avg := ((total + number processingTime) / number n)%float in
  Agent.set_metrics (mkMetrics n e avg) a.

(** [validateTask(task)]: the message of the [Error] it throws, if any. A
    task of the embedding is an object, so the first test passes. *)
Definition validateTask (task : Task.t) : option string :=
  if negb (truthy (Task.type task)) then Some "Invalid task: missing type field"
  else if negb (truthy (Task.data task)) then Some "Invalid task: missing data field"
  else None.

(** [handleError(error, task)] *)
Definition handleError (msg : string) (task : Task.t) (now : Z) (a : Agent.t P)
  : AgentResult.t * Agent.t P * list LogEntry :=
  let l1 := log error ("Error processing task: " +:+ msg) a in
  let a1 := updateMetrics 0 true a in
  let '(a2, l2) := setState "error" a1 in
  (AgentResult.mk false (Agent.name a2) JUndefined (Some msg) now, a2, l1 ++ l2).

(** What a subclass handler ([decomposeProblem], [verifyDesign], ...) does
    on [task.data]: it returns a value or throws an [Error] with a message
    (every [throw] of the seven classes is a [throw new Error(...)], and
    what the runtime raises is a [TypeError]); it works on the subclass's
    own fields and may log. *)
Record HandlerRun : Type := mkHandlerRun {
  h_outcome : JsVal + string;
  h_priv : P;
  h_elapsed : Z;
  h_emitted : list LogEntry
}.

Definition Handler : Type := JsVal -> Agent.t P -> HandlerRun.

(** [process(task)] as every subclass writes it: [busy] is the state it
    sets on entry and [handlers] the cases of its [switch (task.type)]. *)
Definition subclass_process (busy : string) (handlers : string -> option Handler)
    (task : Task.t) (now : Z) (a : Agent.t P) : ProcessRun P :=
  match validateTask task with
  | Some msg => mkRun (Threw msg) a 0 []
  | None =>
      let '(a1, l1) := setState busy a in
      let startTime := now in
      let handler := match Task.type task with
                     | JStr ty => handlers ty
                     | _ => None
                     end in
      match handler with
      | Some h =>
          let run := h (Task.data task) a1 in
          let a2 := Agent.set_priv (h_priv run) a1 in
          let finish := now + h_elapsed run in
          match h_outcome run with
          | inl result =>
              let duration := finish - startTime in
              let a3 := updateMetrics duration false a2 in
              let a4 := recordTask task result finish a3 in
              let '(a5, l5) := setState "idle" a4 in
              mkRun (Returned (AgentResult.mk true (Agent.name a5) result None finish))
                    a5 (h_elapsed run) (l1 ++ h_emitted run ++ l5)
          | inr msg =>
              let '(r, a3, l3) := handleError msg task finish a2 in
              mkRun (Returned r) a3 (h_elapsed run) (l1 ++ h_emitted run ++ l3)
          end
      | None =>
          let msg := "Unknown task type: " +:+ template (Task.type task) in
          let '(r, a2, l2) := handleError msg task now a1 in
          mkRun (Returned r) a2 0 (l1 ++ l2)
      end
  end.

(** The class of a [BaseAgent] subclass: its own [process], the inherited
    [updateMetrics]. *)
Definition subclass (busy : string) (handlers : string -> option Handler) : AgentClass P :=
  mkClass (subclass_process busy handlers) updateMetrics.

(** [getStatus()]: name, role, state, metrics, historySize. *)
Definition getStatus (a : Agent.t P) : string * string * string * Metrics * nat :=
  (Agent.name a, Agent.role a, Agent.state a, Agent.metrics a,
   length (Agent.conversationHistory a)).

(** [reset()] *)
Definition reset (a : Agent.t P) : Agent.t P * list LogEntry :=
  let a' := Agent.set_conversationHistory [] (Agent.set_state "idle" a) in
  (a', log info "Agent reset" a').

End Methods.
End BaseAgent.

(** ** Workflows *)

Module Step.
Record t : Type := mk {
  name : option string;
  agentName : string;
  config : JsVal;
  retries : option Z;
  escalateOnFailure : bool
}.
End Step.

Module Workflow.
Record t : Type := mk {
  name : option string;
  steps : list Step.t;
  escalationHandler : option string
}.
End Workflow.

(** An element [{step, agent, result}] of the running results array. *)
Record ResultEntry : Type := mkEntry {
  step : option string;
  agent : string;
  result : AgentResult.t
}.

Definition js_of_entry (e : ResultEntry) : JsVal :=
  JObj [("step", js_of_opt (step e)); ("agent", JStr (agent e));
        ("result", AgentResult.to_js (result e))].

(** The three objects [executeWorkflow] can resolve to. *)
Inductive WorkflowResult : Type :=
| Completed (workflow : string) (results : list ResultEntry) (duration timestamp : Z)
| EscalationHandled (escalationResult : AgentResult.t) (previousResults : list ResultEntry)
| EscalationDefault (failedStep : option string) (error : AgentResult.t)
                    (previousResults : list ResultEntry).

Definition wr_success (r : WorkflowResult) : bool :=
  match r with Completed _ _ _ _ => true | _ => false end.

(** The [escalated] property; absent ([undefined], falsy) on completion. *)
Definition wr_escalated (r : WorkflowResult) : bool :=
  match r with Completed _ _ _ _ => false | _ => true end.

Definition wr_results (r : WorkflowResult) : list ResultEntry :=
  match r with
  | Completed _ rs _ _ => rs
  | EscalationHandled _ rs => rs
  | EscalationDefault _ _ rs => rs
  end.

(** ** The world: heap of agent objects, orchestrator fields, clock, trace *)

Definition ref : Type := nat.

(** An agent object: its fields and the methods of its class. *)
Record AgentObj (P : Type) : Type := mkObj {
  fields : Agent.t P;
  cls : AgentClass P
}.
Arguments mkObj {P}.
Arguments fields {P}.
Arguments cls {P}.

(** What happened, in order: logger calls, [process] calls and sleeps. *)
Inductive Event : Type :=
| Logged (e : LogEntry)
| Called (agent : ref) (task : Task.t)
| Slept (ms : Z).

Record World (P : Type) : Type := mkWorld {
  heap : gmap ref (AgentObj P);
  logger : bool;
  agents : gmap string ref;
  workflows : gmap string Workflow.t;
  activeTasksCount : Z;
  maxConcurrentTasks : Z;
  clock : Z;
  trace : list Event
}.
Arguments mkWorld {P}.
Arguments heap {P}.
Arguments logger {P}.
Arguments agents {P}.
Arguments workflows {P}.
Arguments activeTasksCount {P}.
Arguments maxConcurrentTasks {P}.
Arguments clock {P}.
Arguments trace {P}.

(** Values a [throw] can carry here: an [Error], a [TypeError] raised by
    the runtime, or a value that is not an [Error]. *)
Inductive Thrown : Type :=
| JsError (message : string)
| JsTypeError (message : string)
| JsValue (v : JsVal).

(** [undefined], thrown: the initial [lastError] of [executeWithRetry],
    or the reason of a promise rejected without one. *)
Abbreviation JsUndefined := (JsValue JUndefined).

Inductive Completion (A : Type) : Type :=
| Normal (a : A)
| Throw (e : Thrown).
Arguments Normal {A}.
Arguments Throw {A}.

(** Computations over the world that return or throw. *)
Definition M (P A : Type) : Type := World P -> Completion A * World P.

Definition ret {P A} (a : A) : M P A := fun w => (Normal a, w).

Definition bind {P A B} (m : M P A) (k : A -> M P B) : M P B :=
  fun w => match m w with
           | (Normal a, w') => k a w'
           | (Throw e, w') => (Throw e, w')
           end.

Definition throw {P A} (e : Thrown) : M P A := fun w => (Throw e, w).

(** [try { m } catch (e) { h e }] *)
Definition try_catch {P A} (m : M P A) (h : Thrown -> M P A) : M P A :=
  fun w => match m w with
           | (Normal a, w') => (Normal a, w')
           | (Throw e, w') => h e w'
           end.

(** [try { m } finally { f }] with an [f] that does not throw. *)
Definition try_finally {P A} (m : M P A) (f : World P -> World P) : M P A :=
  fun w => let '(c, w') := m w in (c, f w').

(** The promise of an [async] call that is not awaited on the spot, run
    to its end: how it settles is a value, nothing is thrown here. *)
Definition promise_of {P A} (m : M P A) : M P (Completion A) :=
  fun w => let '(c, w') := m w in (Normal c, w').

(** What the caller of an [async] function gets when the function has
    returned the promise [c]: its value, or its rejection. *)
Definition resolve {P A} (c : Completion A) : M P A :=
  match c with
  | Normal a => ret a
  | Throw e => throw e
  end.

Definition gets {P A} (f : World P -> A) : M P A := fun w => (Normal (f w), w).

Definition modify {P} (f : World P -> World P) : M P unit := fun w => (Normal tt, f w).

Declare Scope orch_scope.
Delimit Scope orch_scope with orch.
Notation "x <- m ;; k" := (bind m (fun x => k))
  (at level 100, m at next level, right associativity) : orch_scope.
Notation "m ;;; k" := (bind m (fun _ => k))
  (at level 100, right associativity) : orch_scope.
Local Open Scope orch_scope.

(** ** AgentOrchestrator *)

Module AgentOrchestrator.
Section Orchestrator.
Context {P : Type}.

(** [constructor(logger)] *)
Definition create (heap : gmap ref (AgentObj P)) (logger : bool) (clock : Z) : World P :=
  mkWorld heap logger ∅ ∅ 0 10 clock [].

Definition emit (evs : list Event) (w : World P) : World P :=
  mkWorld (heap w) (logger w) (agents w) (workflows w) (activeTasksCount w)
          (maxConcurrentTasks w) (clock w) (trace w ++ evs).

Definition advance (ms : Z) (w : World P) : World P :=
  mkWorld (heap w) (logger w) (agents w) (workflows w) (activeTasksCount w)
          (maxConcurrentTasks w) (clock w + ms) (trace w).

Definition store (r : ref) (o : AgentObj P) (w : World P) : World P :=
  mkWorld (<[r := o]> (heap w)) (logger w) (agents w) (workflows w) (activeTasksCount w)
          (maxConcurrentTasks w) (clock w) (trace w).

Definition set_agents (m : gmap string ref) (w : World P) : World P :=
  mkWorld (heap w) (logger w) m (workflows w) (activeTasksCount w)
          (maxConcurrentTasks w) (clock w) (trace w).

Definition set_workflows (m : gmap string Workflow.t) (w : World P) : World P :=
  mkWorld (heap w) (logger w) (agents w) m (activeTasksCount w)
          (maxConcurrentTasks w) (clock w) (trace w).

Definition set_activeTasksCount (n : Z) (w : World P) : World P :=
  mkWorld (heap w) (logger w) (agents w) (workflows w) n
          (maxConcurrentTasks w) (clock w) (trace w).

(** [log(level, message, metadata)]: forwards to the logger when there is
    one. The metadata object is not kept. *)
Definition log (lvl : Level) (msg : string) : M P unit :=
  modify (fun w => if logger w then emit [Logged (Log lvl msg)] w else w).

(** [sleep(ms)], awaited. *)
Definition sleep (ms : Z) : M P unit :=
  modify (fun w => advance ms (emit [Slept ms] w)).

(** [Date.now()] *)
Definition now : M P Z := gets clock.

(** Reading a property of the object behind [agent]; a reference that the
    heap does not hold stands for [undefined]. *)
Definition deref (agent : ref) (prop : string) : M P (AgentObj P) :=
  fun w => match heap w !! agent with
           | Some o => (Normal o, w)
           | None => (Throw (JsTypeError
                       ("Cannot read properties of undefined (reading '" +:+ prop +:+ "')")), w)
           end.

(** [error.message] for a caught value: reading it off [undefined] or
    [null] raises a [TypeError]. *)
Definition message_of (e : Thrown) : M P JsVal :=
  match e with
  | JsError m | JsTypeError m => ret (JStr m)
  | JsValue v =>
      match message_property v with
      | Some m => ret m
      | None => throw (JsTypeError (message_error v))
      end
  end.

(** [await agent.process(task)] *)
Definition call_process (agent : ref) (task : Task.t) : M P AgentResult.t :=
  o <- deref agent "process" ;;
  t <- now ;;
  let run := process (cls o) task t (fields o) in
  modify (fun w => advance (elapsed run)
                     (emit (Called agent task :: map Logged (emitted run))
                        (store agent (mkObj (after run) (cls o)) w))) ;;;
  match outcome run with
  | Returned r => ret r
  | Threw msg => throw (JsError msg)
  | ThrewValue v => throw (JsValue v)
  end.

(** [agent.updateMetrics(processingTime, error)] *)
Definition call_updateMetrics (agent : ref) (processingTime : Z) (err : bool) : M P unit :=
  o <- deref agent "updateMetrics" ;;
  modify (store agent (mkObj (updateMetrics (cls o) processingTime err (fields o)) (cls o))).

(** [registerAgent(agent)] *)
Definition registerAgent (agent : ref) : M P unit :=
  o <- deref agent "name" ;;
  let name := Agent.name (fields o) in
  registered <- gets agents ;;
  match registered !! name with
  | Some _ => throw (JsError ("Agent " +:+ name +:+ " is already registered"))
  | None =>
      modify (set_agents (<[name := agent]> registered)) ;;;
      log info ("Agent registered: " +:+ name +:+ " (" +:+ Agent.role (fields o) +:+ ")")
  end.

(** [registerWorkflow(name, workflow)] *)
Definition registerWorkflow (name : string) (workflow : Workflow.t) : M P unit :=
  modify (fun w => set_workflows (<[name := workflow]> (workflows w)) w) ;;;
  log info ("Workflow registered: " +:+ name).

(** The body of the [for] loop of [executeWithRetry] and the two
    statements after it. [remaining] counts the iterations for which
    [attempt <= maxRetries] still holds. A [return] inside the loop ends
    the function with [Normal]. *)
Fixpoint retry_loop (agent : ref) (task : Task.t) (maxRetries : Z)
    (remaining : nat) (attempt : Z) (lastError : Thrown) : M P AgentResult.t :=
  match remaining with
  | O =>
      call_updateMetrics agent 0 true ;;;
      throw lastError
  | S remaining' =>
      r <- try_catch
        (startTime <- now ;;
         result <- call_process agent task ;;
         finish <- now ;;
         let duration := finish - startTime in
         call_updateMetrics agent duration false ;;;
         ret (inl result))
        (fun err =>
           o <- deref agent "name" ;;
           msg <- message_of err ;;
           log warn ("Agent task failed, attempt " +:+ pretty attempt +:+ "/"
                     +:+ pretty maxRetries) ;;;
           (if attempt <? maxRetries
            then sleep (2 ^ attempt * 100)
            else ret tt) ;;;
           ret (inr err)) ;;
      match r with
      | inl result => ret result
      | inr err => retry_loop agent task maxRetries remaining' (attempt + 1) err
      end
  end.

(** [executeWithRetry(agent, task, maxRetries = 3)] *)
Definition executeWithRetry (agent : ref) (task : Task.t) (maxRetries : option Z)
  : M P AgentResult.t :=
  let maxRetries := default 3 maxRetries in
  retry_loop agent task maxRetries (Z.to_nat maxRetries) 1 JsUndefined.

(** The task handed to the escalation handler:
    [{type: 'escalation', data: {workflow, failedStep, error, previousResults}}] *)
Definition escalation_task (workflow : Workflow.t) (failedStep : Step.t)
    (err : AgentResult.t) (previousResults : list ResultEntry) : Task.t :=
  Task.mk (JStr "escalation")
    (JObj [("workflow", js_of_opt (Workflow.name workflow));
           ("failedStep", js_of_opt (Step.name failedStep));
           ("error", AgentResult.to_js err);
           ("previousResults", JArr (map js_of_entry previousResults))])
    None JUndefined.

(** [handleEscalation(workflow, failedStep, error, previousResults)] *)
Definition handleEscalation (workflow : Workflow.t) (failedStep : Step.t)
    (err : AgentResult.t) (previousResults : list ResultEntry) : M P WorkflowResult :=
  log info "Handling escalation" ;;;
  registered <- gets agents ;;
  handled <-
    match Workflow.escalationHandler workflow with
    | Some handlerName =>
        if truthy (JStr handlerName) then
          match registered !! handlerName with
          | Some handler =>
              try_catch
                (escalationResult <-
                   call_process handler
                     (escalation_task workflow failedStep err previousResults) ;;
                 ret (Some (EscalationHandled escalationResult previousResults)))
                (fun escalationError =>
                   msg <- message_of escalationError ;;
                   log error "Escalation handler failed" ;;;
                   ret None)
          | None => ret None
          end
        else ret None
    | None => ret None
    end ;;
  match handled with
  | Some r => ret r
  | None => ret (EscalationDefault (Step.name failedStep) err previousResults)
  end.

(** How the [for (const step of workflow.steps)] loop ends: it runs out of
    steps with [currentTask] and [results], or the [return] inside it ends
    [executeWorkflow] with the promise of [handleEscalation]. *)
Inductive LoopExit : Type :=
| Fallthrough (currentTask : Task.t) (results : list ResultEntry)
| Return (promise : Completion WorkflowResult).

(** [step.retries || 1] *)
Definition retries_or_1 (s : Step.t) : Z :=
  match Step.retries s with
  | Some n => if truthy (JNum n) then n else 1
  | None => 1
  end.

(** Lines 57 to 69 of the loop body: resolve the step's agent, log, and
    execute it with retry on [{ ...currentTask, stepName, stepConfig }]. *)
Definition invoke_step (step : Step.t) (currentTask : Task.t) : M P AgentResult.t :=
  registered <- gets agents ;;
  match registered !! Step.agentName step with
  | None => throw (JsError ("Agent not found: " +:+ Step.agentName step))
  | Some agent =>
      log info ("Executing step: " +:+ template_opt (Step.name step)
                +:+ " with agent: " +:+ Step.agentName step) ;;;
      executeWithRetry agent
        (Task.with_step (Step.name step) (Step.config step) currentTask)
        (Some (retries_or_1 step))
  end.

(** [if (stepResult.data) currentTask = { ...currentTask, data: stepResult.data }] *)
Definition thread_data (stepResult : AgentResult.t) (currentTask : Task.t) : Task.t :=
  if truthy (AgentResult.data stepResult)
  then Task.with_data (AgentResult.data stepResult) currentTask
  else currentTask.

(** The step loop of [executeWorkflow]. *)
Fixpoint for_steps (workflow : Workflow.t) (steps : list Step.t)
    (currentTask : Task.t) (results : list ResultEntry) : M P LoopExit :=
  match steps with
  | [] => ret (Fallthrough currentTask results)
  | step :: rest =>
      stepResult <- invoke_step step currentTask ;;
      let results := results ++ [mkEntry (Step.name step) (Step.agentName step) stepResult] in
      if negb (AgentResult.success stepResult) && Step.escalateOnFailure step then
        log warn ("Step failed, escalating: " +:+ template_opt (Step.name step)) ;;;
        promise <- promise_of (handleEscalation workflow step stepResult results) ;;
        ret (Return promise)
      else
        for_steps workflow rest (thread_data stepResult currentTask) results
  end.

(** The statements of the [try] block of [executeWorkflow]: what the
    block returns is a value, or the promise of [handleEscalation]. *)
Definition workflow_body (workflowName : string) (workflow : Workflow.t)
    (initialTask : Task.t) : M P (Completion WorkflowResult) :=
  startTime <- now ;;
  exit <- for_steps workflow (Workflow.steps workflow) initialTask [] ;;
  match exit with
  | Return promise => ret promise
  | Fallthrough _ results =>
      finish <- now ;;
      let duration := finish - startTime in
      log info ("Workflow completed: " +:+ workflowName) ;;;
      timestamp <- now ;;
      ret (Normal (Completed workflowName results duration timestamp))
  end.

(** The [try] block of [executeWorkflow] with its [catch] block, and what
    the caller gets of it. The escalation result is returned without
    [await]: a rejection of [handleEscalation] passes the [catch] block by
    and reaches the caller as it is. *)
Definition attempt_workflow (workflowName : string) (workflow : Workflow.t)
    (initialTask : Task.t) : M P WorkflowResult :=
  returned <- try_catch
    (workflow_body workflowName workflow initialTask)
    (fun err =>
       msg <- message_of err ;;
       log error ("Workflow execution failed: " +:+ workflowName) ;;;
       throw err) ;;
  resolve returned.

(** [executeWorkflow(workflowName, initialTask)]. In the source the
    [finally] block runs when the [try] block returns, so before an
    escalation handler has finished; the handler and the counter touch
    different fields, and the embedding, which runs one call to its end
    before the next, finishes the handler first. *)
Definition executeWorkflow (workflowName : string) (initialTask : Task.t)
  : M P WorkflowResult :=
  registered <- gets workflows ;;
  match registered !! workflowName with
  | None => throw (JsError ("Workflow not found: " +:+ workflowName))
  | Some workflow =>
      log info ("Executing workflow: " +:+ workflowName) ;;;
      active <- gets activeTasksCount ;;
      limit <- gets maxConcurrentTasks ;;
      if limit <=? active then throw (JsError "Maximum concurrent tasks reached")
      else
        modify (fun w => set_activeTasksCount (activeTasksCount w + 1) w) ;;;
        try_finally
          (attempt_workflow workflowName workflow initialTask)
          (fun w => set_activeTasksCount (activeTasksCount w - 1) w)
  end.

End Orchestrator.
End AgentOrchestrator.

(** ** Observations on the trace *)

(** The [process] calls of a trace, in order. *)
Definition called (tr : list Event) : list (ref * Task.t) :=
  omap (fun e => match e with Called a t => Some (a, t) | _ => None end) tr.

(** The sleeps of a trace, in order. *)
Definition slept (tr : list Event) : list Z :=
  omap (fun e => match e with Slept ms => Some ms | _ => None end) tr.



(** ** Two concrete agents *)

Module Scripted.
(** A test double whose [process] plays a script, one outcome per call,
    and throws once the script has run out; [updateMetrics] is the one of
    [BaseAgent]. *)
Definition process (task : Task.t) (now : Z) (a : Agent.t (list Outcome))
  : ProcessRun (list Outcome) :=
  match Agent.priv a with
  | [] => mkRun (Threw "script exhausted") a 0 []
  | o :: rest => mkRun o (Agent.set_priv rest a) 0 []
  end.

Definition class : AgentClass (list Outcome) :=
  mkClass process BaseAgent.updateMetrics.

Definition agent (name : string) (script : list Outcome) : AgentObj (list Outcome) :=
  mkObj (BaseAgent.create name "test double" false script) class.
End Scripted.

Module Echo.
(** A [BaseAgent] subclass with two task types: ['echo'] returns the
    task's data after 5 ms, ['fail'] throws. *)
Definition handlers (ty : string) : option (@BaseAgent.Handler (list Outcome)) :=
  if String.eqb ty "echo" then
    Some (fun data a => BaseAgent.mkHandlerRun (inl data) (Agent.priv a) 5 [])
  else if String.eqb ty "fail" then
    Some (fun data a => BaseAgent.mkHandlerRun (inr "handler failed") (Agent.priv a) 0 [])
  else None.

Definition class : AgentClass (list Outcome) := BaseAgent.subclass "echoing" handlers.

Definition agent (name : string) : AgentObj (list Outcome) :=
  mkObj (BaseAgent.create name "Echo" false []) class.
End Echo.

(** ** Concrete worlds *)

Module Examples.

Definition world (heap : gmap ref (AgentObj (list Outcome))) (agents : gmap string ref)
    (workflows : gmap string Workflow.t) (active : Z) : World (list Outcome) :=
  mkWorld heap true agents workflows active 10 1000 [].

(** The example of the specification: steps A and B, one attempt each, no
    escalation; A answers [{success: true, data: {v: 2}}]. *)
Definition task_v1 : Task.t := Task.mk (JStr "x") (JObj [("v", JNum 1)]) None JUndefined.

Definition result_v2 : AgentResult.t :=
  AgentResult.mk true "A" (JObj [("v", JNum 2)]) None 1000.

Definition result_B : AgentResult.t := AgentResult.mk true "B" JUndefined None 1000.

Definition step_A : Step.t := Step.mk None "A" JUndefined (Some 1) false.
Definition step_B : Step.t := Step.mk None "B" JUndefined (Some 1) false.


(** A returns a failure; its step escalates or not; H is the handler. *)
Definition failure_A : AgentResult.t :=
  AgentResult.mk false "A" JUndefined (Some "no luck") 1000.

Definition result_H : AgentResult.t := AgentResult.mk true "H" JNull None 1000.

Definition step_A_escalating : Step.t :=
  Step.mk (Some "first") "A" JUndefined (Some 2) true.

Definition step_A_soft : Step.t :=
  Step.mk (Some "first") "A" JUndefined (Some 2) false.

Definition failing (first : Step.t) : World (list Outcome) :=
  world {[ 0%nat := Scripted.agent "A" [Returned failure_A];
           1%nat := Scripted.agent "B" [Returned result_B];
           2%nat := Scripted.agent "H" [Returned result_H] ]}
        {[ "A" := 0%nat; "B" := 1%nat; "H" := 2%nat ]}
        {[ "wf" := Workflow.mk (Some "wf") [first; step_B] (Some "H") ]}
        0.

(** The same, with a handler that plays [script]. *)
Definition failing_with (first : Step.t) (script : list Outcome) : World (list Outcome) :=
  world {[ 0%nat := Scripted.agent "A" [Returned failure_A];
           1%nat := Scripted.agent "B" [Returned result_B];
           2%nat := Scripted.agent "H" script ]}
        {[ "A" := 0%nat; "B" := 1%nat; "H" := 2%nat ]}
        {[ "wf" := Workflow.mk (Some "wf") [first; step_B] (Some "H") ]}
        0.






(** A [BaseAgent] subclass in front: a task without [data] makes its
    [process] throw on every attempt. *)
Definition task_without_data : Task.t := Task.mk (JStr "echo") JUndefined None JUndefined.

(** A task whose handler throws, which the subclass turns into a failed
    result. *)
Definition task_fail : Task.t := Task.mk (JStr "fail") (JObj []) None JUndefined.

Definition step_E (retries : option Z) : Step.t :=
  Step.mk (Some "first") "E" JUndefined retries true.

Definition throwing (retries : option Z) : World (list Outcome) :=
  world {[ 0%nat := Echo.agent "E";
           1%nat := Scripted.agent "B" [Returned result_B];
           2%nat := Scripted.agent "H" [Returned result_H] ]}
        {[ "E" := 0%nat; "B" := 1%nat; "H" := 2%nat ]}
        {[ "wf" := Workflow.mk (Some "wf") [step_E retries; step_B] (Some "H") ]}
        0.


(** An agent object that is not registered yet. *)
Definition unregistered : World (list Outcome) :=
  world {[ 0%nat := Echo.agent "E"; 1%nat := Scripted.agent "E" [] ]} ∅ ∅ 0.

(** A workflow whose second step names an agent that is not registered. *)
Definition step_nobody : Step.t := Step.mk (Some "second") "Nobody" JUndefined (Some 1) true.

Definition missing_agent : World (list Outcome) :=
  world {[ 0%nat := Scripted.agent "A" [Returned result_v2];
           2%nat := Scripted.agent "H" [Returned result_H] ]}
        {[ "A" := 0%nat; "H" := 2%nat ]}
        {[ "wf" := Workflow.mk (Some "wf") [step_A; step_nobody] (Some "H") ]}
        0.



(** An agent that throws twice and then answers. *)
Definition flaky : World (list Outcome) :=
  world {[ 0%nat := Scripted.agent "F"
                      [Threw "first"; Threw "second"; Returned result_B] ]}
        {[ "F" := 0%nat ]} ∅ 0.

End Examples.

(** ** Worlds along an execution *)

Section Worlds.
Context {P : Type}.

(** The world after [agent.process(task)] on the object [o]. *)
Definition after_process (agent : ref) (o : AgentObj P) (task : Task.t) (w : World P)
  : World P :=
  let run := process (cls o) task (clock w) (fields o) in
  AgentOrchestrator.advance (elapsed run)
    (AgentOrchestrator.emit (Called agent task :: map Logged (emitted run))
       (AgentOrchestrator.store agent (mkObj (after run) (cls o)) w)).

(** The world after [agent.updateMetrics(t, err)] on the object [o]. *)
Definition after_updateMetrics (agent : ref) (o : AgentObj P) (t : Z) (err : bool)
    (w : World P) : World P :=
  AgentOrchestrator.store agent (mkObj (updateMetrics (cls o) t err (fields o)) (cls o)) w.

(** The world after a call of the orchestrator's [log]. *)
Definition logged (lvl : Level) (msg : string) (w : World P) : World P :=
  if logger w then AgentOrchestrator.emit [Logged (Log lvl msg)] w else w.

(** The world in which the [try] block of [executeWorkflow] starts: the
    call has been logged and the counter incremented. *)
Definition entered (workflowName : string) (w : World P) : World P :=
  let w' := logged info ("Executing workflow: " +:+ workflowName) w in
  AgentOrchestrator.set_activeTasksCount (activeTasksCount w' + 1) w'.

(** The agent [handleEscalation] resolves as the escalation handler, if
    the workflow names one and it is registered. *)
Definition escalation_handler (workflow : Workflow.t) (w : World P) : option ref :=
  match Workflow.escalationHandler workflow with
  | Some handlerName =>
      if truthy (JStr handlerName) then agents w !! handlerName else None
  | None => None
  end.

(** The world after the [catch] block of [executeWithRetry] has slept, when
    it does: [if (attempt < maxRetries) await this.sleep(2^attempt * 100)]. *)
Definition backed_off (attempt maxRetries : Z) (w : World P) : World P :=
  if attempt <? maxRetries
  then AgentOrchestrator.advance (2 ^ attempt * 100)
         (AgentOrchestrator.emit [Slept (2 ^ attempt * 100)] w)
  else w.

(** The [warn] line of the [catch] block of [executeWithRetry]. *)
Definition attempt_failed (attempt maxRetries : Z) : string :=
  "Agent task failed, attempt " +:+ pretty attempt +:+ "/" +:+ pretty maxRetries.

(** The orchestrator's own fields are the same in both worlds. *)
Definition same_orchestrator (w w' : World P) : Prop :=
  logger w' = logger w /\ agents w' = agents w /\ workflows w' = workflows w /\
  activeTasksCount w' = activeTasksCount w /\
  maxConcurrentTasks w' = maxConcurrentTasks w.

End Worlds.

(** ** The seven agents and the server's setup *)

(** [switch (x) { case l1: ...; case l2: ...; default: ... }] over string
    labels: the body of the first case whose label is [x], if any. *)
Fixpoint switch {A : Type} (cases : list (string * A)) (x : string) : option A :=
  match cases with
  | [] => None
  | (label, body) :: rest => if String.eqb x label then Some body else switch rest x
  end.

(** The class of an agent whose [process] has one case per task type;
    [impl ty] stands for the method the case [ty] calls. *)
Definition agent_class {P : Type} (busy : string) (task_types : list string)
    (impl : string -> @BaseAgent.Handler P) : AgentClass P :=
  BaseAgent.subclass busy (switch (map (fun ty => (ty, impl ty)) task_types)).

Module ResearchAgent.
Definition name : string := "ResearchAgent".
Definition role : string := "Planning and Information Gathering".
Definition busy : string := "processing".
Definition task_types : list string := ["decompose"; "plan"; "research"; "clarify"].
End ResearchAgent.

Module ImplementationAgent.
Definition name : string := "ImplementationAgent".
Definition role : string := "Solution Development and Documentation".
Definition busy : string := "implementing".
Definition task_types : list string := ["design"; "implement"; "document"; "optimize"].
End ImplementationAgent.

Module VerificationAgent.
Definition name : string := "VerificationAgent".
Definition role : string := "Quality Assurance and Improvement".
Definition busy : string := "verifying".
Definition task_types : list string :=
  ["verify-design"; "verify-implementation"; "verify-logic"; "suggest-improvements";
   "assess-quality"].
End VerificationAgent.

Module MetaPromptOptimizer.
Definition name : string := "MetaPromptOptimizer".
Definition role : string := "Prompt Optimization and Learning".
Definition busy : string := "optimizing".
Definition task_types : list string :=
  ["analyze-prompt"; "optimize-prompt"; "learn-patterns"; "suggest-improvements"].
End MetaPromptOptimizer.

Module PerformanceAuditor.
Definition name : string := "PerformanceAuditor".
Definition role : string := "Performance and Ethical Review".
Definition busy : string := "auditing".
Definition task_types : list string :=
  ["audit-performance"; "audit-ethics"; "audit-compliance"; "compare-metrics"].
End PerformanceAuditor.

Module AnomalyDetectionAgent.
Definition name : string := "AnomalyDetectionAgent".
Definition role : string := "Anomaly Detection and Self-Correction".
Definition busy : string := "detecting".
Definition task_types : list string :=
  ["detect-anomalies"; "analyze-output"; "check-reasoning"; "recover"].
End AnomalyDetectionAgent.

Module UserInteractionAgent.
Definition name : string := "UserInteractionAgent".
Definition role : string := "User Engagement and Feedback".
Definition busy : string := "interacting".
Definition task_types : list string :=
  ["request-clarification"; "collect-feedback"; "personalize-interaction";
   "integrate-feedback"; "suggest-options"].
End UserInteractionAgent.

Module Server.
Section Setup.
Context {P : Type}.

(** [impl agent ty]: the method the agent called [agent] runs for the task
    type [ty]; [init agent]: the fields its constructor adds. *)
Variable impl : string -> string -> @BaseAgent.Handler P.
Variable init : string -> P.

(** [new X(logger)] for each of the seven classes, with the server's logger. *)
Definition new (name role busy : string) (task_types : list string) : AgentObj P :=
  mkObj (BaseAgent.create name role true (init name))
        (agent_class busy task_types (impl name)).

Definition researchAgent : AgentObj P :=
  new ResearchAgent.name ResearchAgent.role ResearchAgent.busy ResearchAgent.task_types.
Definition implementationAgent : AgentObj P :=
  new ImplementationAgent.name ImplementationAgent.role ImplementationAgent.busy
      ImplementationAgent.task_types.
Definition verificationAgent : AgentObj P :=
  new VerificationAgent.name VerificationAgent.role VerificationAgent.busy
      VerificationAgent.task_types.
Definition metaPromptOptimizer : AgentObj P :=
  new MetaPromptOptimizer.name MetaPromptOptimizer.role MetaPromptOptimizer.busy
      MetaPromptOptimizer.task_types.
Definition performanceAuditor : AgentObj P :=
  new PerformanceAuditor.name PerformanceAuditor.role PerformanceAuditor.busy
      PerformanceAuditor.task_types.
Definition anomalyDetectionAgent : AgentObj P :=
  new AnomalyDetectionAgent.name AnomalyDetectionAgent.role AnomalyDetectionAgent.busy
      AnomalyDetectionAgent.task_types.
Definition userInteractionAgent : AgentObj P :=
  new UserInteractionAgent.name UserInteractionAgent.role UserInteractionAgent.busy
      UserInteractionAgent.task_types.

(** The seven objects, at the addresses 0 to 6 in the order of creation. *)
Definition objects : gmap ref (AgentObj P) :=
  {[ 0%nat := researchAgent; 1%nat := implementationAgent; 2%nat := verificationAgent;
     3%nat := metaPromptOptimizer; 4%nat := performanceAuditor;
     5%nat := anomalyDetectionAgent; 6%nat := userInteractionAgent ]}.

Definition workflow_step (name agentName : string) (retries : Z) (escalateOnFailure : bool)
  : Step.t :=
  Step.mk (Some name) agentName (JObj []) (Some retries) escalateOnFailure.

Definition complete_solution : Workflow.t :=
  Workflow.mk (Some "complete-solution")
    [workflow_step "research-and-plan" "ResearchAgent" 2 false;
     workflow_step "design-solution" "ImplementationAgent" 2 false;
     workflow_step "verify-design" "VerificationAgent" 1 true;
     workflow_step "implement-solution" "ImplementationAgent" 2 false;
     workflow_step "verify-implementation" "VerificationAgent" 1 true;
     workflow_step "audit-performance" "PerformanceAuditor" 1 false;
     workflow_step "detect-anomalies" "AnomalyDetectionAgent" 1 true]
    (Some "UserInteractionAgent").

Definition iterative_refinement : Workflow.t :=
  Workflow.mk (Some "iterative-refinement")
    [workflow_step "analyze-prompt" "MetaPromptOptimizer" 1 false;
     workflow_step "optimize-prompt" "MetaPromptOptimizer" 1 false;
     workflow_step "research-improved" "ResearchAgent" 2 false;
     workflow_step "implement-improved" "ImplementationAgent" 2 false;
     workflow_step "verify-improved" "VerificationAgent" 1 true;
     workflow_step "audit-improvements" "PerformanceAuditor" 1 false]
    (Some "UserInteractionAgent").

Definition quality_assurance : Workflow.t :=
  Workflow.mk (Some "quality-assurance")
    [workflow_step "verify-logic" "VerificationAgent" 1 false;
     workflow_step "verify-implementation" "VerificationAgent" 1 true;
     workflow_step "assess-quality" "VerificationAgent" 1 false;
     workflow_step "detect-anomalies" "AnomalyDetectionAgent" 1 false;
     workflow_step "audit-performance" "PerformanceAuditor" 1 false;
     workflow_step "audit-ethics" "PerformanceAuditor" 1 true]
    (Some "UserInteractionAgent").

(** A run of [orchestrator.registerAgent(a)] statements, one per element. *)
Fixpoint register_all (agents : list ref) : M P unit :=
  match agents with
  | [] => ret tt
  | agent :: rest => AgentOrchestrator.registerAgent agent ;;; register_all rest
  end.

(** Lines 41 to 98 of [server.js]: the orchestrator is created, the seven
    agents are registered, then the three workflows. *)
Definition startup : M P unit :=
  register_all [0; 1; 2; 3; 4; 5; 6]%nat ;;;
  AgentOrchestrator.registerWorkflow "complete-solution" complete_solution ;;;
  AgentOrchestrator.registerWorkflow "iterative-refinement" iterative_refinement ;;;
  AgentOrchestrator.registerWorkflow "quality-assurance" quality_assurance.

Definition started (clock : Z) : World P :=
  snd (startup (AgentOrchestrator.create objects true clock)).

End Setup.
End Server.

(** ** More observations *)

Section Observations.
Context {P : Type}.

(** The class of the agent registered under [name], if there is one. *)
Definition registered_class (w : World P) (name : string) : option (AgentClass P) :=
  match agents w !! name with
  | Some agent => cls <$> heap w !! agent
  | None => None
  end.

(** Every object has the class it had. *)
Definition same_classes (w w' : World P) : Prop :=
  forall r : ref, cls <$> heap w' !! r = cls <$> heap w !! r.

(** The agents and workflows of [server.js] are in place. *)
Definition configured (impl : string -> string -> @BaseAgent.Handler P) (w : World P)
  : Prop :=
  registered_class w "ResearchAgent"
  = Some (agent_class ResearchAgent.busy ResearchAgent.task_types (impl "ResearchAgent")) /\
  registered_class w "ImplementationAgent"
  = Some (agent_class ImplementationAgent.busy ImplementationAgent.task_types
            (impl "ImplementationAgent")) /\
  registered_class w "VerificationAgent"
  = Some (agent_class VerificationAgent.busy VerificationAgent.task_types
            (impl "VerificationAgent")) /\
  registered_class w "MetaPromptOptimizer"
  = Some (agent_class MetaPromptOptimizer.busy MetaPromptOptimizer.task_types
            (impl "MetaPromptOptimizer")) /\
  registered_class w "PerformanceAuditor"
  = Some (agent_class PerformanceAuditor.busy PerformanceAuditor.task_types
            (impl "PerformanceAuditor")) /\
  registered_class w "AnomalyDetectionAgent"
  = Some (agent_class AnomalyDetectionAgent.busy AnomalyDetectionAgent.task_types
            (impl "AnomalyDetectionAgent")) /\
  registered_class w "UserInteractionAgent"
  = Some (agent_class UserInteractionAgent.busy UserInteractionAgent.task_types
            (impl "UserInteractionAgent")) /\
  workflows w !! "complete-solution" = Some Server.complete_solution /\
  workflows w !! "iterative-refinement" = Some Server.iterative_refinement /\
  workflows w !! "quality-assurance" = Some Server.quality_assurance.

(** The value that [await agent.process(task)] throws, if it does. *)
Definition thrown (out : Outcome) : option Thrown :=
  match out with
  | Returned _ => None
  | Threw msg => Some (JsError msg)
  | ThrewValue v => Some (JsValue v)
  end.

(** The [TypeError] raised by [e.message], if the read fails. *)
Definition unreadable (e : Thrown) : option Thrown :=
  match e with
  | JsError _ | JsTypeError _ => None
  | JsValue v =>
      match message_property v with
      | Some _ => None
      | None => Some (JsTypeError (message_error v))
      end
  end.

(** The world after a failed attempt of [executeWithRetry]: the call, the
    warning, the backoff sleep if another attempt follows. *)
Definition after_failed_attempt (agent : ref) (o : AgentObj P) (task : Task.t)
    (attempt maxRetries : Z) (w : World P) : World P :=
  backed_off attempt maxRetries
    (logged warn (attempt_failed attempt maxRetries) (after_process agent o task w)).


(** [process] throws on the next [k] attempts, starting with [attempt] in
    the world [w], each time a value whose [message] can be read; [e] is
    the last of them, or [lastError] when [k] is 0. *)
Fixpoint keeps_throwing (agent : ref) (task : Task.t) (maxRetries : Z) (k : nat)
    (attempt : Z) (w : World P) (lastError e : Thrown) : Prop :=
  match k with
  | O => e = lastError
  | S k' => exists o e1,
      heap w !! agent = Some o /\
      thrown (outcome (process (cls o) task (clock w) (fields o))) = Some e1 /\
      unreadable e1 = None /\
      keeps_throwing agent task maxRetries k' (attempt + 1)
        (after_failed_attempt agent o task attempt maxRetries w) e1 e
  end.

End Observations.

(** The case of [switch (task.type)] that a task reaches, if any: labels
    are strings, so a type that is not a string reaches [default]. *)
Definition case_for {P : Type} (handlers : string -> option (@BaseAgent.Handler P))
    (task : Task.t) : option (@BaseAgent.Handler P) :=
  match Task.type task with
  | JStr ty => handlers ty
  | _ => None
  end.

(** The steps all name registered [BaseAgent] subclasses and allow an
    attempt. *)
Definition subclass_steps {P : Type} (w : World P) (steps : list Step.t) : Prop :=
  Forall (fun s => 1 <= AgentOrchestrator.retries_or_1 s /\
                   exists busy handlers,
                     registered_class w (Step.agentName s)
                     = Some (BaseAgent.subclass busy handlers)) steps.

(** The escalation handler of the workflow, where one is named and
    registered, is a [BaseAgent] subclass. *)
Definition subclass_handler {P : Type} (w : World P) (workflow : Workflow.t) : Prop :=
  forall handler o,
    escalation_handler workflow w = Some handler ->
    heap w !! handler = Some o ->
    exists busy handlers, cls o = BaseAgent.subclass busy handlers.

(** A step that escalates on failure, in front of an agent with no case
    for the task's type. *)
Definition no_case_step {P : Type} (w : World P) (task : Task.t) (s : Step.t) : Prop :=
  Step.escalateOnFailure s = true /\
  exists busy handlers,
    registered_class w (Step.agentName s) = Some (BaseAgent.subclass busy handlers) /\
    case_for handlers task = None.

(** A call made on behalf of a task: it carries that task's type, or it is
    the call of an escalation handler. *)
Definition call_for (task : Task.t) (c : ref * Task.t) : Prop :=
  Task.type c.2 = Task.type task \/ Task.type c.2 = JStr "escalation".

(** The attempts a list of steps allows in all: the sum of the
    [step.retries || 1] that are positive. *)
Definition attempt_budget (steps : list Step.t) : Z :=
  fold_right (fun s acc => Z.max 0 (AgentOrchestrator.retries_or_1 s) + acc) 0 steps.

(** The server with handlers that hand their data back after 1 ms. *)
Module ServerExample.
Definition handler : @BaseAgent.Handler unit :=
  fun data a => BaseAgent.mkHandlerRun (inl data) (Agent.priv a) 1 [].

Definition impl (agent ty : string) : @BaseAgent.Handler unit := handler.

Definition world : World unit := Server.started impl (fun _ => tt) 0.

Definition task : Task.t := Task.mk (JStr "verify-design") (JObj []) None JUndefined.
End ServerExample.

(** The delays [2^attempt * 100] of the attempts [first] to [first + n - 1]. *)
Definition backoff_delays (first : Z) (n : nat) : list Z :=
  map (fun i => 2 ^ (first + Z.of_nat i) * 100) (seq 0 n).

(** The error count of a run of [updateMetrics] calls. *)
Definition error_count (calls : list (Z * bool)) : Z :=
  fold_right (fun (c : Z * bool) acc => (if c.2 then 1 else 0) + acc) 0 calls.

(** [updateMetrics] called once per element, first element first. *)
Definition update_all {P : Type} (calls : list (Z * bool)) (a : Agent.t P) : Agent.t P :=
  fold_left (fun acc (c : Z * bool) => BaseAgent.updateMetrics c.1 c.2 acc) calls a.

(** ** What the agent objects keep *)

Section Invariants.
Context {P : Type}.

(** Every object of the heap satisfies [Inv]. *)
Definition heap_inv (Inv : AgentObj P -> Prop) (w : World P) : Prop :=
  forall r o, heap w !! r = Some o -> Inv o.

(** [Inv] is kept by the two methods the orchestrator calls on an agent. *)
Definition method_stable (Inv : AgentObj P -> Prop) : Prop :=
  forall o, Inv o ->
    (forall task now, Inv (mkObj (after (process (cls o) task now (fields o))) (cls o))) /\
    (forall t err, Inv (mkObj (updateMetrics (cls o) t err (fields o)) (cls o))).

(** The bookkeeping of a [BaseAgent]: at most 100 history entries, and
    never more errors than tasks. *)
Definition bounded (a : Agent.t P) : Prop :=
  (length (Agent.conversationHistory a) <= 100)%nat /\
  0 <= errors (Agent.metrics a) <= tasksProcessed (Agent.metrics a).

(** [bounded], for the objects whose class is a [BaseAgent] subclass. *)
Definition subclass_bounded (o : AgentObj P) : Prop :=
  (exists busy handlers, cls o = BaseAgent.subclass busy handlers) -> bounded (fields o).

End Invariants.

(** * Properties *)

Section Basics.
Context {P : Type}.
Implicit Types (w : World P) (o : AgentObj P) (agent : ref) (task : Task.t).

Import AgentOrchestrator.

Lemma same_orchestrator_refl w : same_orchestrator w w.
Proof. repeat split. Qed.

Lemma same_orchestrator_trans w1 w2 w3 :
  same_orchestrator w1 w2 -> same_orchestrator w2 w3 -> same_orchestrator w1 w3.
Proof.
  intros (?&?&?&?&?) (?&?&?&?&?). repeat split; congruence.
Qed.

Lemma logged_same lvl msg w : same_orchestrator w (logged lvl msg w).
Proof. unfold logged. destruct (logger w); repeat split. Qed.

Lemma logged_heap lvl msg w : heap (logged lvl msg w) = heap w.
Proof. unfold logged. by destruct (logger w). Qed.

Lemma logged_called lvl msg w : called (trace (logged lvl msg w)) = called (trace w).
Proof.
  unfold logged. destruct (logger w); [|done].
  simpl. unfold called. rewrite omap_app. simpl. by rewrite app_nil_r.
Qed.

Lemma logged_slept lvl msg w : slept (trace (logged lvl msg w)) = slept (trace w).
Proof.
  unfold logged. destruct (logger w); [|done].
  simpl. unfold slept. rewrite omap_app. simpl. by rewrite app_nil_r.
Qed.

Lemma log_run lvl msg w : log lvl msg w = (Normal tt, logged lvl msg w).
Proof. reflexivity. Qed.

Lemma after_process_same agent o task w : same_orchestrator w (after_process agent o task w).
Proof. repeat split. Qed.

Lemma after_updateMetrics_same agent o t err w :
  same_orchestrator w (after_updateMetrics agent o t err w).
Proof. repeat split. Qed.

Lemma called_logs (l : list LogEntry) : called (map Logged l) = [].
Proof. induction l; [done|]. simpl. done. Qed.

Lemma slept_logs (l : list LogEntry) : slept (map Logged l) = [].
Proof. induction l; [done|]. simpl. done. Qed.

Lemma after_process_called agent o task w :
  called (trace (after_process agent o task w)) = called (trace w) ++ [(agent, task)].
Proof.
  unfold after_process, called. simpl. rewrite omap_app. simpl.
  f_equal. f_equal. apply called_logs.
Qed.

Lemma after_process_slept agent o task w :
  slept (trace (after_process agent o task w)) = slept (trace w).
Proof.
  unfold after_process, slept. simpl. rewrite omap_app. simpl.
  rewrite (slept_logs _). by rewrite app_nil_r.
Qed.

Lemma after_process_heap agent o task w :
  heap (after_process agent o task w) !! agent
  = Some (mkObj (after (process (cls o) task (clock w) (fields o))) (cls o)).
Proof. unfold after_process. simpl. apply lookup_insert_eq. Qed.

Lemma after_updateMetrics_heap agent o t err w :
  heap (after_updateMetrics agent o t err w) !! agent
  = Some (mkObj (updateMetrics (cls o) t err (fields o)) (cls o)).
Proof. unfold after_updateMetrics. simpl. apply lookup_insert_eq. Qed.

Lemma call_process_run agent o task w :
  heap w !! agent = Some o ->
  call_process agent task w
  = (match outcome (process (cls o) task (clock w) (fields o)) with
     | Returned r => Normal r
     | Threw msg => Throw (JsError msg)
     | ThrewValue v => Throw (JsValue v)
     end, after_process agent o task w).
Proof.
  intros Ho. unfold call_process, bind, deref. rewrite Ho. simpl.
  unfold after_process.
  by destruct (outcome (process (cls o) task (clock w) (fields o))).
Qed.

Lemma call_process_undefined agent task w :
  heap w !! agent = None ->
  call_process agent task w
  = (Throw (JsTypeError "Cannot read properties of undefined (reading 'process')"), w).
Proof. intros Ho. unfold call_process, bind, deref. by rewrite Ho. Qed.

Lemma call_updateMetrics_run agent o t err w :
  heap w !! agent = Some o ->
  call_updateMetrics agent t err w = (Normal tt, after_updateMetrics agent o t err w).
Proof. intros Ho. unfold call_updateMetrics, bind, deref. by rewrite Ho. Qed.

(** [call_process] throws what [process] throws. *)
Lemma call_process_thrown agent o task w e :
  heap w !! agent = Some o ->
  thrown (outcome (process (cls o) task (clock w) (fields o))) = Some e ->
  call_process agent task w = (Throw e, after_process agent o task w).
Proof.
  intros Ho He. rewrite (call_process_run _ _ _ _ Ho).
  destruct (outcome _); simpl in He; by simplify_eq.
Qed.

(** [error.message] is read without a fault off everything but
    [undefined] and [null]. *)
Lemma message_of_readable (e : Thrown) w :
  unreadable e = None -> exists m, message_of e w = (Normal m, w).
Proof.
  destruct e as [m|m|v]; simpl; [by eexists..|].
  destruct (message_property v); [by eexists|done].
Qed.

Lemma message_of_unreadable (e t : Thrown) w :
  unreadable e = Some t -> message_of e w = (Throw t, w).
Proof.
  destruct e as [m|m|v]; simpl; [done..|].
  destruct (message_property v); [done|]. by intros [= <-].
Qed.

Lemma unreadable_value (v : JsVal) t :
  unreadable (JsValue v) = Some t <->
  (v = JUndefined \/ v = JNull) /\ t = JsTypeError (message_error v).
Proof.
  simpl. split.
  - destruct v; simpl; intros H; try discriminate; injection H as <-;
      (split; [auto|done]).
  - by intros [[-> | ->] ->].
Qed.

End Basics.

Create HintDb frame.
#[local] Hint Resolve same_orchestrator_refl logged_same after_process_same
  after_updateMetrics_same : frame.

(** ** Agent registry *)

Section Registry.
Context {P : Type}.
Implicit Types (w : World P) (o : AgentObj P) (agent : ref).

Import AgentOrchestrator.

Lemma registerAgent_present agent o w :
  heap w !! agent = Some o ->
  is_Some (agents w !! Agent.name (fields o)) ->
  registerAgent agent w
  = (Throw (JsError ("Agent " +:+ Agent.name (fields o) +:+ " is already registered")), w).
Proof.
  intros Ho [other Hreg].
  unfold registerAgent, bind, deref, gets. rewrite Ho. simpl. by rewrite Hreg.
Qed.

Lemma registerAgent_absent agent o w :
  heap w !! agent = Some o ->
  agents w !! Agent.name (fields o) = None ->
  registerAgent agent w
  = (Normal tt,
     logged info ("Agent registered: " +:+ Agent.name (fields o) +:+ " ("
                  +:+ Agent.role (fields o) +:+ ")")
       (set_agents (<[Agent.name (fields o) := agent]> (agents w)) w)).
Proof.
  intros Ho Hreg.
  unfold registerAgent, bind, deref, gets. rewrite Ho. simpl. by rewrite Hreg.
Qed.

End Registry.

(** C7. [registerAgent] on an agent whose name is already a key of the
    registry throws "Agent <name> is already registered" and leaves the
    world, hence the registry and its size, as they were. When the name is
    absent the agent is inserted under its name, the size grows by one, and
    a second registration under that name (of this agent or another one)
    throws and leaves the registry as the first call made it. *)
Theorem registerAgent_rejects_duplicates (P : Type) (w : World P) (agent : ref)
    (o : AgentObj P) :
  heap w !! agent = Some o ->
  let name := Agent.name (fields o) in
  let duplicate := JsError ("Agent " +:+ name +:+ " is already registered") in
  (is_Some (agents w !! name) ->
     AgentOrchestrator.registerAgent agent w = (Throw duplicate, w)) /\
  (agents w !! name = None ->
     exists w',
       AgentOrchestrator.registerAgent agent w = (Normal tt, w') /\
       agents w' = <[name := agent]> (agents w) /\
       agents w' !! name = Some agent /\
       size (agents w') = S (size (agents w)) /\
       forall (agent2 : ref) (o2 : AgentObj P),
         heap w' !! agent2 = Some o2 ->
         Agent.name (fields o2) = name ->
         AgentOrchestrator.registerAgent agent2 w' = (Throw duplicate, w')).
Proof.
  intros Ho name duplicate. split.
  - intros Hreg. by apply registerAgent_present.
  - intros Hreg. eexists. split; [by apply registerAgent_absent|].
    assert (Hag : forall lvl msg (v : World P), agents (logged lvl msg v) = agents v).
    { intros lvl msg v. unfold logged. by destruct (logger v). }
    rewrite Hag. simpl. repeat split.
    + apply lookup_insert_eq.
    + by apply map_size_insert_None.
    + intros agent2 o2 Ho2 Hname. subst duplicate. rewrite <- Hname.
      apply registerAgent_present; [done|].
      rewrite Hag. simpl. rewrite Hname. fold name. rewrite lookup_insert_eq. by eexists.
Qed.

(** An Echo agent registers under "E"; a second object named "E" is then
    turned away. *)
Lemma registerAgent_rejects_duplicates_witness :
  exists w',
    AgentOrchestrator.registerAgent 0%nat Examples.unregistered = (Normal tt, w') /\
    size (agents w') = 1%nat /\
    AgentOrchestrator.registerAgent 1%nat w'
    = (Throw (JsError "Agent E is already registered"), w').
Proof.
  destruct (registerAgent_rejects_duplicates (list Outcome) Examples.unregistered
              0%nat (Echo.agent "E")) as [_ Habsent].
  - vm_compute. reflexivity.
  - destruct Habsent as (w' & Hrun & _ & _ & Hsize & Hsecond).
    + vm_compute. reflexivity.
    + exists w'. split; [exact Hrun|]. split; [exact Hsize|].
      apply (Hsecond 1%nat (Scripted.agent "E" [])); [|reflexivity].
      assert (Hw' : w' = snd (AgentOrchestrator.registerAgent 0%nat Examples.unregistered))
        by (rewrite Hrun; reflexivity).
      rewrite Hw'. vm_compute. reflexivity.
Defined.

(** ** Escalation *)

Section Escalation.
Context {P : Type}.
Implicit Types (w : World P) (o : AgentObj P) (workflow : Workflow.t) (failedStep : Step.t).

Import AgentOrchestrator.

Lemma handleEscalation_default workflow failedStep err previousResults w :
  escalation_handler workflow w = None ->
  handleEscalation workflow failedStep err previousResults w
  = (Normal (EscalationDefault (Step.name failedStep) err previousResults),
     logged info "Handling escalation" w).
Proof.
  unfold escalation_handler, handleEscalation, bind, gets. rewrite log_run.
  assert (Hag : agents (logged info "Handling escalation" w) = agents w)
    by apply logged_same.
  rewrite Hag.
  destruct (Workflow.escalationHandler workflow) as [h|]; [|done].
  destruct (truthy (JStr h)); [|done].
  by intros ->.
Qed.

Lemma handleEscalation_handler workflow failedStep err previousResults w handler o :
  escalation_handler workflow w = Some handler ->
  heap w !! handler = Some o ->
  let task := escalation_task workflow failedStep err previousResults in
  let w1 := logged info "Handling escalation" w in
  handleEscalation workflow failedStep err previousResults w
  = match outcome (process (cls o) task (clock w1) (fields o)) with
    | Returned r =>
        (Normal (EscalationHandled r previousResults), after_process handler o task w1)
    | Threw msg =>
        (Normal (EscalationDefault (Step.name failedStep) err previousResults),
         logged error "Escalation handler failed" (after_process handler o task w1))
    | ThrewValue v =>
        match message_property v with
        | Some _ =>
            (Normal (EscalationDefault (Step.name failedStep) err previousResults),
             logged error "Escalation handler failed" (after_process handler o task w1))
        | None =>
            (Throw (JsTypeError (message_error v)), after_process handler o task w1)
        end
    end.
Proof.
  intros Hh Ho task w1.
  unfold escalation_handler in Hh.
  unfold handleEscalation, bind, gets. rewrite log_run. fold w1.
  assert (Hag : agents w1 = agents w) by apply logged_same.
  rewrite Hag.
  destruct (Workflow.escalationHandler workflow) as [h|]; [|done].
  destruct (truthy (JStr h)); [|done].
  rewrite Hh. unfold try_catch, bind.
  assert (Ho1 : heap w1 !! handler = Some o) by (unfold w1; by rewrite logged_heap).
  rewrite (call_process_run _ _ _ _ Ho1). fold task.
  destruct (outcome (process (cls o) task (clock w1) (fields o))) as [r|msg|v];
    [done..|].
  simpl. by destruct (message_property v).
Qed.

Lemma handleEscalation_undefined workflow failedStep err previousResults w handler :
  escalation_handler workflow w = Some handler ->
  heap w !! handler = None ->
  handleEscalation workflow failedStep err previousResults w
  = (Normal (EscalationDefault (Step.name failedStep) err previousResults),
     logged error "Escalation handler failed" (logged info "Handling escalation" w)).
Proof.
  intros Hh Ho.
  unfold escalation_handler in Hh.
  unfold handleEscalation, bind, gets. rewrite log_run.
  set (w1 := logged info "Handling escalation" w).
  assert (Hag : agents w1 = agents w) by apply logged_same.
  rewrite Hag.
  destruct (Workflow.escalationHandler workflow) as [h|]; [|done].
  destruct (truthy (JStr h)); [|done].
  rewrite Hh. unfold try_catch, bind.
  assert (Ho1 : heap w1 !! handler = None) by (unfold w1; by rewrite logged_heap).
  by rewrite (call_process_undefined _ _ _ Ho1).
Qed.

(** What every call of [handleEscalation] comes to: the orchestrator's
    fields are untouched, and the only [process] call it can add to the
    trace is the handler's, on the escalation task. It returns an object
    with [success: false] and [escalated: true], unless the handler throws
    [undefined] or [null]: reading [escalationError.message] in the
    [catch] block then raises a [TypeError], which leaves the function. *)
Lemma handleEscalation_settles workflow failedStep err previousResults w
    (task := escalation_task workflow failedStep err previousResults) :
  exists c w',
    handleEscalation workflow failedStep err previousResults w = (c, w') /\
    same_orchestrator w w' /\
    (called (trace w') = called (trace w) \/
     exists handler, called (trace w') = called (trace w) ++ [(handler, task)]) /\
    match c with
    | Normal res =>
        wr_success res = false /\ wr_escalated res = true /\
        wr_results res = previousResults
    | Throw e =>
        exists handler o v,
          escalation_handler workflow w = Some handler /\
          heap w !! handler = Some o /\
          outcome (process (cls o) task (clock w) (fields o)) = ThrewValue v /\
          (v = JUndefined \/ v = JNull) /\
          e = JsTypeError (message_error v)
    end.
Proof.
  destruct (escalation_handler workflow w) as [handler|] eqn:Hh.
  - destruct (heap w !! handler) as [o|] eqn:Ho.
    + rewrite (handleEscalation_handler _ _ _ _ _ _ _ Hh Ho).
      assert (Hclock : clock (logged info "Handling escalation" w) = clock w).
      { unfold logged. by destruct (logger w). }
      rewrite Hclock. fold task.
      assert (Hsame1 : same_orchestrator w
                (after_process handler o task (logged info "Handling escalation" w)))
        by eauto using same_orchestrator_trans with frame.
      assert (Hsame2 : same_orchestrator w
                (logged error "Escalation handler failed"
                   (after_process handler o task (logged info "Handling escalation" w))))
        by (eapply same_orchestrator_trans; [exact Hsame1|apply logged_same]).
      destruct (outcome (process (cls o) task (clock w) (fields o))) as [r|msg|v] eqn:Hout;
        [| |destruct (message_property v) eqn:Hm].
      * eexists _, _. split; [reflexivity|]. split; [exact Hsame1|]. split; [|done].
        right. exists handler. by rewrite after_process_called, logged_called.
      * eexists _, _. split; [reflexivity|]. split; [exact Hsame2|]. split; [|done].
        right. exists handler.
        by rewrite logged_called, after_process_called, logged_called.
      * eexists _, _. split; [reflexivity|]. split; [exact Hsame2|]. split; [|done].
        right. exists handler.
        by rewrite logged_called, after_process_called, logged_called.
      * eexists _, _. split; [reflexivity|]. split; [exact Hsame1|]. split.
        -- right. exists handler. by rewrite after_process_called, logged_called.
        -- exists handler, o, v. do 3 (split; [done|]). split; [|done].
           destruct v; simpl in Hm; try done; auto.
    + rewrite (handleEscalation_undefined _ _ _ _ _ _ Hh Ho).
      eexists _, _. split; [reflexivity|]. split; [|split; [|done]].
      * eapply same_orchestrator_trans; apply logged_same.
      * left. by rewrite !logged_called.
  - rewrite (handleEscalation_default _ _ _ _ _ Hh).
    eexists _, _. split; [reflexivity|]. split; [|split; [|done]].
    + apply logged_same.
    + left. by rewrite logged_called.
Qed.

End Escalation.

(** C8. [handleEscalation] on every input and in every world. It returns
    the default object [{success: false, escalated: true, failedStep,
    error, previousResults}] whenever no handler is named or registered,
    and when the handler's [process] throws an [Error] or any value whose
    [message] can be read: that error is logged and goes no further. A
    handler whose [process] returns gives the other shape, with
    [escalationResult]. But a handler that throws [undefined] or [null]
    makes the [catch] block itself fail on [escalationError.message]: the
    call then throws a [TypeError] and returns no object. *)
Theorem handleEscalation_outcomes (P : Type) (w : World P) (workflow : Workflow.t)
    (failedStep : Step.t) (err : AgentResult.t) (previousResults : list ResultEntry) :
  let task := AgentOrchestrator.escalation_task workflow failedStep err previousResults in
  let fallback := EscalationDefault (Step.name failedStep) err previousResults in
  let run := AgentOrchestrator.handleEscalation workflow failedStep err previousResults w in
  match escalation_handler workflow w with
  | None => run.1 = Normal fallback
  | Some handler =>
      match heap w !! handler with
      | None => run.1 = Normal fallback
      | Some o =>
          match outcome (process (cls o) task (clock w) (fields o)) with
          | Returned r => run.1 = Normal (EscalationHandled r previousResults)
          | Threw _ => run.1 = Normal fallback
          | ThrewValue JUndefined =>
              run.1 = Throw (JsTypeError
                               "Cannot read properties of undefined (reading 'message')")
          | ThrewValue JNull =>
              run.1 = Throw (JsTypeError
                               "Cannot read properties of null (reading 'message')")
          | ThrewValue _ => run.1 = Normal fallback
          end
      end
  end.
Proof.
  intros task fallback run. subst run.
  destruct (escalation_handler workflow w) as [handler|] eqn:Hh.
  - destruct (heap w !! handler) as [o|] eqn:Ho.
    + rewrite (handleEscalation_handler _ _ _ _ _ _ _ Hh Ho).
      assert (Hclock : clock (logged info "Handling escalation" w) = clock w).
      { unfold logged. by destruct (logger w). }
      rewrite Hclock. fold task.
      destruct (outcome (process (cls o) task (clock w) (fields o))) as [r|msg|v];
        [done..|].
      by destruct v.
    + by rewrite (handleEscalation_undefined _ _ _ _ _ _ Hh Ho).
  - by rewrite (handleEscalation_default _ _ _ _ _ Hh).
Qed.

(** A failed step escalates to a handler whose [process] rejects without a
    reason: [handleEscalation] throws. *)
Lemma handleEscalation_outcomes_witness :
  (AgentOrchestrator.handleEscalation
     (Workflow.mk (Some "wf") [Examples.step_A_escalating; Examples.step_B] (Some "H"))
     Examples.step_A_escalating Examples.failure_A []
     (Examples.failing_with Examples.step_A_escalating [ThrewValue JUndefined])).1
  = Throw (JsTypeError "Cannot read properties of undefined (reading 'message')").
Proof.
  exact (handleEscalation_outcomes (list Outcome)
           (Examples.failing_with Examples.step_A_escalating [ThrewValue JUndefined])
           (Workflow.mk (Some "wf") [Examples.step_A_escalating; Examples.step_B]
              (Some "H"))
           Examples.step_A_escalating Examples.failure_A []).
Defined.

(** ** Retry *)

Section Retry.
Context {P : Type}.
Implicit Types (w : World P) (o : AgentObj P) (agent : ref) (task : Task.t).

Import AgentOrchestrator.

(** The iterations [executeWithRetry] hands to [retry_loop] are the values
    of [attempt] from 1 on that pass the test [attempt <= maxRetries]. *)
Lemma attempts_left (maxRetries attempt : Z) :
  1 <= attempt ->
  (attempt <= maxRetries <-> (0 < Z.to_nat maxRetries - Z.to_nat (attempt - 1))%nat).
Proof. lia. Qed.

(** An attempt on which [process] returns ends the function. *)
Lemma retry_loop_returned agent o task maxRetries remaining attempt lastError w r :
  heap w !! agent = Some o ->
  let run := process (cls o) task (clock w) (fields o) in
  outcome run = Returned r ->
  retry_loop agent task maxRetries (S remaining) attempt lastError w
  = (Normal r,
     after_updateMetrics agent (mkObj (after run) (cls o)) (elapsed run) false
       (after_process agent o task w)).
Proof.
  intros Ho run Hret. simpl. unfold bind at 1. unfold try_catch, bind, now, gets.
  rewrite (call_process_run _ _ _ _ Ho). fold run. rewrite Hret.
  rewrite (call_updateMetrics_run _ _ _ _ _ (after_process_heap agent o task w)).
  fold run. unfold ret. do 3 f_equal.
  unfold after_process. simpl. fold run. lia.
Qed.

(** An attempt on which [process] throws a value whose [message] can be
    read is logged, followed by the backoff sleep unless it was the last
    one, and the loop goes on with that value as [lastError]. *)
Lemma retry_loop_caught agent o task maxRetries remaining attempt lastError w e :
  heap w !! agent = Some o ->
  thrown (outcome (process (cls o) task (clock w) (fields o))) = Some e ->
  unreadable e = None ->
  retry_loop agent task maxRetries (S remaining) attempt lastError w
  = retry_loop agent task maxRetries remaining (attempt + 1) e
      (after_failed_attempt agent o task attempt maxRetries w).
Proof.
  intros Ho Hthrown Hread. simpl. unfold bind at 1. unfold try_catch, bind at 1, now, gets.
  unfold bind at 1.
  rewrite (call_process_thrown _ _ _ _ _ Ho Hthrown).
  unfold bind at 1. unfold deref. rewrite after_process_heap.
  unfold bind at 1.
  destruct (message_of_readable e (after_process agent o task w) Hread) as [m ->].
  unfold bind at 1. rewrite log_run.
  unfold bind at 1.
  unfold after_failed_attempt, backed_off, attempt_failed, sleep, modify, ret.
  by destruct (attempt <? maxRetries).
Qed.

Lemma retry_loop_threw agent o task maxRetries remaining attempt lastError w msg :
  heap w !! agent = Some o ->
  outcome (process (cls o) task (clock w) (fields o)) = Threw msg ->
  retry_loop agent task maxRetries (S remaining) attempt lastError w
  = retry_loop agent task maxRetries remaining (attempt + 1) (JsError msg)
      (backed_off attempt maxRetries
         (logged warn (attempt_failed attempt maxRetries) (after_process agent o task w))).
Proof.
  intros Ho Hthrew. apply (retry_loop_caught _ _ _ _ _ _ _ _ _ Ho); [|done].
  by rewrite Hthrew.
Qed.

(** An attempt on which [process] throws [undefined] or [null]: the
    [catch] block fails on [error.message] before it logs or sleeps, and
    the [TypeError] leaves [executeWithRetry]. *)
Lemma retry_loop_unreadable agent o task maxRetries remaining attempt lastError w e t :
  heap w !! agent = Some o ->
  thrown (outcome (process (cls o) task (clock w) (fields o))) = Some e ->
  unreadable e = Some t ->
  retry_loop agent task maxRetries (S remaining) attempt lastError w
  = (Throw t, after_process agent o task w).
Proof.
  intros Ho Hthrown Hread. simpl. unfold bind at 1. unfold try_catch, bind at 1, now, gets.
  unfold bind at 1.
  rewrite (call_process_thrown _ _ _ _ _ Ho Hthrown).
  unfold bind at 1. unfold deref. rewrite after_process_heap.
  unfold bind at 1.
  by rewrite (message_of_unreadable e t _ Hread).
Qed.

(** The three ways an attempt can go. *)
Lemma retry_loop_step agent o task maxRetries remaining attempt lastError w :
  heap w !! agent = Some o ->
  let run := process (cls o) task (clock w) (fields o) in
  (exists r, outcome run = Returned r /\
     retry_loop agent task maxRetries (S remaining) attempt lastError w
     = (Normal r,
        after_updateMetrics agent (mkObj (after run) (cls o)) (elapsed run) false
          (after_process agent o task w))) \/
  (exists e, thrown (outcome run) = Some e /\ unreadable e = None /\
     retry_loop agent task maxRetries (S remaining) attempt lastError w
     = retry_loop agent task maxRetries remaining (attempt + 1) e
         (after_failed_attempt agent o task attempt maxRetries w)) \/
  (exists e t, thrown (outcome run) = Some e /\ unreadable e = Some t /\
     retry_loop agent task maxRetries (S remaining) attempt lastError w
     = (Throw t, after_process agent o task w)).
Proof.
  intros Ho run.
  destruct (thrown (outcome run)) as [e|] eqn:Hthrown.
  - destruct (unreadable e) as [t|] eqn:Hread.
    + right. right. exists e, t. do 2 (split; [done|]).
      by apply retry_loop_unreadable with (o := o) (e := e).
    + right. left. exists e. do 2 (split; [done|]).
      by apply retry_loop_caught.
  - left. destruct (outcome run) as [r| |] eqn:Hout; try done.
    exists r. split; [done|]. by apply retry_loop_returned.
Qed.

(** Out of attempts: the error count goes up and [lastError] is thrown. *)
Lemma retry_loop_exhausted agent o task maxRetries attempt lastError w :
  heap w !! agent = Some o ->
  retry_loop agent task maxRetries 0 attempt lastError w
  = (Throw lastError, after_updateMetrics agent o 0 true w).
Proof.
  intros Ho. simpl. unfold bind.
  by rewrite (call_updateMetrics_run _ _ _ _ _ Ho).
Qed.

(** With [undefined] for an agent every path ends in a [TypeError]. *)
Lemma retry_loop_undefined agent task maxRetries remaining attempt lastError w :
  heap w !! agent = None ->
  exists msg,
    retry_loop agent task maxRetries remaining attempt lastError w
    = (Throw (JsTypeError msg), w).
Proof.
  intros Ho. destruct remaining; simpl.
  - unfold bind, call_updateMetrics, bind, deref. rewrite Ho. by eexists.
  - unfold bind at 1. unfold try_catch, bind at 1, now, gets. unfold bind at 1.
    rewrite (call_process_undefined _ _ _ Ho).
    unfold bind at 1. unfold deref. rewrite Ho. by eexists.
Qed.

Lemma backed_off_same attempt maxRetries w :
  same_orchestrator w (backed_off attempt maxRetries w).
Proof. unfold backed_off. destruct (attempt <? maxRetries); repeat split. Qed.

Lemma backed_off_heap attempt maxRetries w :
  heap (backed_off attempt maxRetries w) = heap w.
Proof. unfold backed_off. by destruct (attempt <? maxRetries). Qed.

Lemma backed_off_called attempt maxRetries w :
  called (trace (backed_off attempt maxRetries w)) = called (trace w).
Proof.
  unfold backed_off. destruct (attempt <? maxRetries); [|done].
  simpl. unfold called. rewrite omap_app. simpl. by rewrite app_nil_r.
Qed.

(** The object behind [agent] after a throwing attempt and its logging. *)
Lemma after_attempt_heap agent o task attempt maxRetries lvl msg w :
  heap (backed_off attempt maxRetries (logged lvl msg (after_process agent o task w)))
    !! agent
  = Some (mkObj (after (process (cls o) task (clock w) (fields o))) (cls o)).
Proof. rewrite backed_off_heap, logged_heap. apply after_process_heap. Qed.

(** [executeWithRetry] leaves the orchestrator's fields alone, calls
    [process] on [agent] with [task] only, and at most [remaining] times. *)
Lemma retry_loop_frame agent task maxRetries remaining attempt lastError w c w' :
  retry_loop agent task maxRetries remaining attempt lastError w = (c, w') ->
  same_orchestrator w w' /\
  exists n, (n <= remaining)%nat /\
    called (trace w') = called (trace w) ++ replicate n (agent, task).
Proof.
  revert attempt lastError w.
  induction remaining as [|remaining IH]; intros attempt lastError w Hrun.
  - destruct (heap w !! agent) as [o|] eqn:Ho.
    + rewrite (retry_loop_exhausted _ _ _ _ _ _ _ Ho) in Hrun.
      injection Hrun as <- <-. split; [auto with frame|].
      exists 0%nat. split; [lia|]. simpl. by rewrite app_nil_r.
    + destruct (retry_loop_undefined agent task maxRetries 0 attempt lastError w Ho)
        as [msg Hm].
      rewrite Hm in Hrun. injection Hrun as <- <-.
      split; [auto with frame|].
      exists 0%nat. split; [lia|]. simpl. by rewrite app_nil_r.
  - destruct (heap w !! agent) as [o|] eqn:Ho.
    + destruct (retry_loop_step agent o task maxRetries remaining attempt lastError w Ho)
        as [(r & _ & Hstep) | [(e & _ & _ & Hstep) | (e & t & _ & _ & Hstep)]];
        rewrite Hstep in Hrun.
      * injection Hrun as <- <-. split.
        -- eauto using same_orchestrator_trans with frame.
        -- exists 1%nat. split; [lia|].
           change (trace (after_updateMetrics _ _ _ _ ?v)) with (trace v).
           apply after_process_called.
      * apply IH in Hrun as [Hsame (n & Hn & Hcalled)]. split.
        -- eapply same_orchestrator_trans; [apply after_process_same|].
           eapply same_orchestrator_trans; [apply logged_same|].
           eapply same_orchestrator_trans; [apply backed_off_same|apply Hsame].
        -- exists (S n). split; [lia|]. rewrite Hcalled. unfold after_failed_attempt.
           rewrite backed_off_called, logged_called, after_process_called.
           by rewrite <- app_assoc.
      * injection Hrun as <- <-. split; [apply after_process_same|].
        exists 1%nat. split; [lia|]. apply after_process_called.
    + destruct (retry_loop_undefined agent task maxRetries (S remaining) attempt
                  lastError w Ho) as [msg Hm].
      rewrite Hm in Hrun. injection Hrun as <- <-.
      split; [auto with frame|].
      exists 0%nat. split; [lia|]. simpl. by rewrite app_nil_r.
Qed.

(** What [executeWithRetry] throws is [lastError] as it was, or a value
    whose [message] can be read. *)
Lemma unreadable_readable (e t : Thrown) : unreadable e = Some t -> unreadable t = None.
Proof.
  destruct e as [m|m|v]; simpl; [done..|].
  destruct (message_property v); [done|]. by intros [= <-].
Qed.

Lemma retry_loop_throws agent task maxRetries remaining attempt lastError w e w' :
  retry_loop agent task maxRetries remaining attempt lastError w = (Throw e, w') ->
  e = lastError \/ unreadable e = None.
Proof.
  revert attempt lastError w.
  induction remaining as [|remaining IH]; intros attempt lastError w Hrun.
  - destruct (heap w !! agent) as [o|] eqn:Ho.
    + rewrite (retry_loop_exhausted _ _ _ _ _ _ _ Ho) in Hrun.
      injection Hrun as <- <-. by left.
    + destruct (retry_loop_undefined agent task maxRetries 0 attempt lastError w Ho)
        as [msg Hm].
      rewrite Hm in Hrun. injection Hrun as <- <-. by right.
  - destruct (heap w !! agent) as [o|] eqn:Ho.
    + destruct (retry_loop_step agent o task maxRetries remaining attempt lastError w Ho)
        as [(r & _ & Hstep) | [(e0 & _ & Hread & Hstep) | (e0 & t & _ & Hread & Hstep)]];
        rewrite Hstep in Hrun.
      * done.
      * apply IH in Hrun as [-> | Hrun]; by right.
      * injection Hrun as <- <-. right. by eapply unreadable_readable.
    + destruct (retry_loop_undefined agent task maxRetries (S remaining) attempt
                  lastError w Ho) as [msg Hm].
      rewrite Hm in Hrun. injection Hrun as <- <-. by right.
Qed.

End Retry.

(** ** The step loop and the workflow around it *)

Section Steps.
Context {P : Type}.
Implicit Types (w : World P) (o : AgentObj P) (agent : ref) (task : Task.t)
  (workflow : Workflow.t) (step : Step.t).

Import AgentOrchestrator.

(** The task a step's agent is called with. *)
Lemma invoke_step_registered step task w agent :
  agents w !! Step.agentName step = Some agent ->
  invoke_step step task w
  = executeWithRetry agent
      (Task.with_step (Step.name step) (Step.config step) task)
      (Some (retries_or_1 step))
      (logged info ("Executing step: " +:+ template_opt (Step.name step)
                    +:+ " with agent: " +:+ Step.agentName step) w).
Proof. intros Hreg. unfold invoke_step, bind, gets. by rewrite Hreg. Qed.

Lemma invoke_step_unregistered step task w :
  agents w !! Step.agentName step = None ->
  invoke_step step task w
  = (Throw (JsError ("Agent not found: " +:+ Step.agentName step)), w).
Proof. intros Hreg. unfold invoke_step, bind, gets. by rewrite Hreg. Qed.

(** A step throws [undefined] (when it allows no attempt) or a value
    whose [message] can be read. *)
Lemma invoke_step_throws step task w e w' :
  invoke_step step task w = (Throw e, w') -> e = JsUndefined \/ unreadable e = None.
Proof.
  destruct (agents w !! Step.agentName step) as [agent|] eqn:Hreg.
  - rewrite (invoke_step_registered _ _ _ _ Hreg). unfold executeWithRetry.
    apply retry_loop_throws.
  - rewrite (invoke_step_unregistered _ _ _ Hreg). intros [= <- <-]. by right.
Qed.

(** A step calls [process] on its own task only, at most
    [step.retries || 1] times, and leaves the orchestrator's fields alone. *)
Lemma invoke_step_frame step task w c w' :
  invoke_step step task w = (c, w') ->
  same_orchestrator w w' /\
  exists agent n, (Z.of_nat n <= Z.max 0 (retries_or_1 step)) /\
    called (trace w')
    = called (trace w)
      ++ replicate n (agent, Task.with_step (Step.name step) (Step.config step) task).
Proof.
  destruct (agents w !! Step.agentName step) as [agent|] eqn:Hreg.
  - rewrite (invoke_step_registered _ _ _ _ Hreg). unfold executeWithRetry. simpl default.
    intros Hrun. apply retry_loop_frame in Hrun as [Hsame (n & Hn & Hcalled)]. split.
    + eapply same_orchestrator_trans; [apply logged_same|apply Hsame].
    + exists agent, n. split; [lia|]. by rewrite Hcalled, logged_called.
  - rewrite (invoke_step_unregistered _ _ _ Hreg). intros [= <- <-].
    split; [auto with frame|].
    exists 0%nat, 0%nat. split; [lia|]. simpl. by rewrite app_nil_r.
Qed.

(** One turn of the loop, by what the step came to. *)
Lemma for_steps_cons workflow step rest task results w :
  for_steps workflow (step :: rest) task results w
  = match invoke_step step task w with
    | (Normal r, w1) =>
        let results := results ++ [mkEntry (Step.name step) (Step.agentName step) r] in
        if negb (AgentResult.success r) && Step.escalateOnFailure step then
          let '(promise, w2) :=
            handleEscalation workflow step r results
              (logged warn ("Step failed, escalating: "
                            +:+ template_opt (Step.name step)) w1) in
          (Normal (Return promise), w2)
        else for_steps workflow rest (thread_data r task) results w1
    | (Throw e, w1) => (Throw e, w1)
    end.
Proof.
  simpl. unfold bind at 1.
  destruct (invoke_step step task w) as [[r|e] w1]; [|done].
  destruct (negb (AgentResult.success r) && Step.escalateOnFailure step); [|done].
  unfold bind at 1. rewrite log_run. unfold bind, promise_of.
  by destruct (handleEscalation _ _ _ _ _) as [c w2].
Qed.

(** The loop over [pre ++ rest] is the loop over [pre], then over [rest]
    unless the first one returned or threw. *)
Lemma for_steps_app workflow pre rest task results w :
  for_steps workflow (pre ++ rest) task results w
  = match for_steps workflow pre task results w with
    | (Normal (Fallthrough task' results'), w') =>
        for_steps workflow rest task' results' w'
    | other => other
    end.
Proof.
  revert task results w. induction pre as [|step pre IH]; intros task results w.
  - done.
  - change ((step :: pre) ++ rest) with (step :: (pre ++ rest)).
    rewrite !for_steps_cons.
    destruct (invoke_step step task w) as [[r|e] w1]; [|done].
    simpl. destruct (negb (AgentResult.success r) && Step.escalateOnFailure step).
    + by destruct (handleEscalation _ _ _ _ _) as [c w2].
    + apply IH.
Qed.

Lemma for_steps_frame workflow steps task results w c w' :
  for_steps workflow steps task results w = (c, w') -> same_orchestrator w w'.
Proof.
  revert task results w. induction steps as [|step rest IH]; intros task results w.
  - intros [= <- <-]. apply same_orchestrator_refl.
  - rewrite for_steps_cons.
    destruct (invoke_step step task w) as [[r|e] w1] eqn:Hstep;
      apply invoke_step_frame in Hstep as [Hsame _].
    + simpl. destruct (negb (AgentResult.success r) && Step.escalateOnFailure step).
      * destruct (handleEscalation_settles workflow step r
                    (results ++ [mkEntry (Step.name step) (Step.agentName step) r])
                    (logged warn ("Step failed, escalating: "
                                  +:+ template_opt (Step.name step)) w1))
          as (c0 & w2 & -> & Hsame2 & _).
        intros [= <- <-].
        eapply same_orchestrator_trans; [apply Hsame|].
        eapply same_orchestrator_trans; [apply logged_same|apply Hsame2].
      * intros Hrest. apply IH in Hrest.
        eapply same_orchestrator_trans; [apply Hsame|apply Hrest].
    + intros [= <- <-]. apply Hsame.
Qed.





End Steps.

Section Workflows.
Context {P : Type}.
Implicit Types (w : World P) (task : Task.t) (workflow : Workflow.t).

Import AgentOrchestrator.

Lemma executeWorkflow_unknown workflowName task w :
  workflows w !! workflowName = None ->
  executeWorkflow workflowName task w
  = (Throw (JsError ("Workflow not found: " +:+ workflowName)), w).
Proof. intros Hwf. unfold executeWorkflow, bind, gets. by rewrite Hwf. Qed.

Lemma executeWorkflow_full workflowName workflow task w :
  workflows w !! workflowName = Some workflow ->
  maxConcurrentTasks w <= activeTasksCount w ->
  executeWorkflow workflowName task w
  = (Throw (JsError "Maximum concurrent tasks reached"),
     logged info ("Executing workflow: " +:+ workflowName) w).
Proof.
  intros Hwf Hfull. unfold executeWorkflow, bind at 1. unfold gets at 1.
  rewrite Hwf. unfold bind at 1. rewrite log_run.
  set (w1 := logged _ _ w).
  assert (Hsame : same_orchestrator w w1) by apply logged_same.
  destruct Hsame as (_ & _ & _ & Hactive & Hlimit).
  unfold bind, gets. rewrite Hactive, Hlimit.
  destruct (Z.leb_spec (maxConcurrentTasks w) (activeTasksCount w)); [done|lia].
Qed.

Lemma executeWorkflow_admitted workflowName workflow task w :
  workflows w !! workflowName = Some workflow ->
  activeTasksCount w < maxConcurrentTasks w ->
  executeWorkflow workflowName task w
  = let '(c, w1) := attempt_workflow workflowName workflow task (entered workflowName w) in
    (c, set_activeTasksCount (activeTasksCount w1 - 1) w1).
Proof.
  intros Hwf Hfree. unfold executeWorkflow, bind at 1. unfold gets at 1.
  rewrite Hwf. unfold bind at 1. rewrite log_run. unfold entered.
  set (w1 := logged _ _ w).
  assert (Hsame : same_orchestrator w w1) by apply logged_same.
  destruct Hsame as (_ & _ & _ & Hactive & Hlimit).
  unfold bind at 1. unfold gets at 1. unfold bind at 1. unfold gets at 1.
  rewrite Hactive, Hlimit.
  destruct (Z.leb_spec (maxConcurrentTasks w) (activeTasksCount w)); [lia|].
  unfold bind, modify, try_finally. by rewrite Hactive.
Qed.

(** The [try] and [catch] blocks, by how the step loop ends. A promise
    returned from the loop settles as it does; a throw inside the [try]
    block is logged and thrown again, unless it is [undefined]
    or [null], on which the [catch] block itself fails. *)
Lemma attempt_workflow_run workflowName workflow task w :
  attempt_workflow workflowName workflow task w
  = match for_steps workflow (Workflow.steps workflow) task [] w with
    | (Normal (Return promise), w1) => (promise, w1)
    | (Normal (Fallthrough _ results), w1) =>
        (Normal (Completed workflowName results (clock w1 - clock w) (clock w1)),
         logged info ("Workflow completed: " +:+ workflowName) w1)
    | (Throw e, w1) =>
        match unreadable e with
        | Some t => (Throw t, w1)
        | None => (Throw e, logged error ("Workflow execution failed: " +:+ workflowName) w1)
        end
    end.
Proof.
  unfold attempt_workflow. unfold bind at 1.
  unfold try_catch, workflow_body, bind at 1. unfold now at 1, gets.
  unfold bind at 1.
  destruct (for_steps workflow (Workflow.steps workflow) task [] w) as [[[t rs|c]|e] w1].
  - unfold bind at 1. unfold now at 1, gets. unfold bind at 1. rewrite log_run.
    unfold bind, now, gets, ret, resolve. do 3 f_equal.
    unfold logged. by destruct (logger w1).
  - simpl. by destruct c.
  - unfold bind at 1. destruct (unreadable e) as [t|] eqn:Hread.
    + by rewrite (message_of_unreadable e t _ Hread).
    + destruct (message_of_readable e w1 Hread) as [m ->].
      unfold bind at 1. by rewrite log_run.
Qed.

(** The [try] and [catch] blocks leave the orchestrator's fields alone. *)
Lemma attempt_workflow_frame workflowName workflow task w c w' :
  attempt_workflow workflowName workflow task w = (c, w') -> same_orchestrator w w'.
Proof.
  rewrite attempt_workflow_run.
  destruct (for_steps workflow (Workflow.steps workflow) task [] w)
    as [[[t rs|r]|e] w1] eqn:Hloop; apply for_steps_frame in Hloop.
  - intros [= <- <-]. eapply same_orchestrator_trans; [apply Hloop|apply logged_same].
  - by intros [= <- <-].
  - destruct (unreadable e); intros [= <- <-]; try done;
      (eapply same_orchestrator_trans; [apply Hloop|apply logged_same]).
Qed.

Lemma entered_count workflowName w :
  activeTasksCount (entered workflowName w) = activeTasksCount w + 1.
Proof. unfold entered, logged. by destruct (logger w). Qed.

End Workflows.

(** ** Metrics of [BaseAgent] subclasses *)

Section SubclassMetrics.
Context {P : Type}.
Implicit Types (a : Agent.t P) (task : Task.t).

Lemma updateMetrics_counts t err a :
  tasksProcessed (Agent.metrics (BaseAgent.updateMetrics t err a))
  = tasksProcessed (Agent.metrics a) + 1 /\
  errors (Agent.metrics (BaseAgent.updateMetrics t err a))
  = errors (Agent.metrics a) + (if err then 1 else 0).
Proof. unfold BaseAgent.updateMetrics. simpl. destruct err; split; lia. Qed.

(** A task that fails validation makes [process] throw before it touches
    the object. *)
Lemma subclass_process_invalid busy handlers task now a msg :
  BaseAgent.validateTask task = Some msg ->
  BaseAgent.subclass_process busy handlers task now a = mkRun (Threw msg) a 0 [].
Proof. intros Hv. unfold BaseAgent.subclass_process. by rewrite Hv. Qed.

(** A valid task is counted once by the agent itself, as an error when the
    result is a failure. *)
Lemma subclass_process_valid busy handlers task now a :
  BaseAgent.validateTask task = None ->
  exists r,
    outcome (BaseAgent.subclass_process busy handlers task now a) = Returned r /\
    let a' := after (BaseAgent.subclass_process busy handlers task now a) in
    tasksProcessed (Agent.metrics a') = tasksProcessed (Agent.metrics a) + 1 /\
    errors (Agent.metrics a')
    = errors (Agent.metrics a) + (if AgentResult.success r then 0 else 1).
Proof.
  intros Hv. unfold BaseAgent.subclass_process. rewrite Hv. simpl.
  destruct (match Task.type task with JStr ty => handlers ty | _ => None end) as [h|].
  - destruct (BaseAgent.h_outcome _) as [res|msg]; eexists; (split; [reflexivity|]);
      simpl; lia.
  - eexists; (split; [reflexivity|]); simpl; lia.
Qed.

Lemma subclass_process_returned busy handlers task now a r :
  outcome (BaseAgent.subclass_process busy handlers task now a) = Returned r ->
  let a' := after (BaseAgent.subclass_process busy handlers task now a) in
  tasksProcessed (Agent.metrics a') = tasksProcessed (Agent.metrics a) + 1 /\
  errors (Agent.metrics a')
  = errors (Agent.metrics a) + (if AgentResult.success r then 0 else 1).
Proof.
  intros Hret. destruct (BaseAgent.validateTask task) as [msg|] eqn:Hv.
  - by rewrite (subclass_process_invalid _ _ _ _ _ _ Hv) in Hret.
  - destruct (subclass_process_valid busy handlers task now a Hv) as (r' & Hr' & Hm).
    rewrite Hret in Hr'. injection Hr' as <-. exact Hm.
Qed.

End SubclassMetrics.

(** C9. When [agent.process(task)] returns on an attempt, whatever the
    [success] field of the result, [executeWithRetry] returns that result
    from that attempt: [process] has been called once more and no more, and
    no sleep has been added. This holds at every attempt of the loop, and so
    for the first one of [executeWithRetry] whenever [maxRetries] allows an
    attempt at all. A [BaseAgent] subclass returns on every task that passes
    validation, with a failed result when its handler throws or the task
    type is unknown, so such a failure is never retried. *)
Theorem executeWithRetry_returns_at_once (P : Type) (w : World P) (agent : ref)
    (o : AgentObj P) (task : Task.t) :
  heap w !! agent = Some o ->
  (forall r : AgentResult.t,
     outcome (process (cls o) task (clock w) (fields o)) = Returned r ->
     (forall (maxRetries : Z) (remaining : nat) (attempt : Z) (lastError : Thrown),
        exists w',
          AgentOrchestrator.retry_loop agent task maxRetries (S remaining) attempt
            lastError w = (Normal r, w') /\
          called (trace w') = called (trace w) ++ [(agent, task)] /\
          slept (trace w') = slept (trace w)) /\
     (forall maxRetries : option Z,
        1 <= default 3 maxRetries ->
        exists w',
          AgentOrchestrator.executeWithRetry agent task maxRetries w = (Normal r, w') /\
          called (trace w') = called (trace w) ++ [(agent, task)] /\
          slept (trace w') = slept (trace w))) /\
  (forall busy handlers,
     cls o = BaseAgent.subclass busy handlers ->
     BaseAgent.validateTask task = None ->
     exists r, outcome (process (cls o) task (clock w) (fields o)) = Returned r).
Proof.
  intros Ho. split.
  - intros r Hret.
    assert (Hloop : forall maxRetries remaining attempt lastError,
       exists w',
         AgentOrchestrator.retry_loop agent task maxRetries (S remaining) attempt
           lastError w = (Normal r, w') /\
         called (trace w') = called (trace w) ++ [(agent, task)] /\
         slept (trace w') = slept (trace w)).
    { intros maxRetries remaining attempt lastError.
      eexists. split; [by apply retry_loop_returned|].
      change (trace (after_updateMetrics _ _ _ _ ?v)) with (trace v).
      split; [apply after_process_called|apply after_process_slept]. }
    split; [exact Hloop|].
    intros maxRetries Hmax. unfold AgentOrchestrator.executeWithRetry.
    destruct (Z.to_nat (default 3 maxRetries)) as [|remaining] eqn:Hn; [lia|].
    apply Hloop.
  - intros busy handlers Hc Hv. rewrite Hc. simpl.
    destruct (subclass_process_valid busy handlers task (clock w) (fields o) Hv)
      as (r & Hr & _).
    by exists r.
Qed.

(** A returned failure with three attempts allowed: one call, no sleep. *)
Lemma executeWithRetry_returns_at_once_witness :
  exists w',
    AgentOrchestrator.executeWithRetry 0%nat Examples.task_v1 (Some 3)
      (Examples.failing Examples.step_A_soft) = (Normal Examples.failure_A, w') /\
    called (trace w') = [(0%nat, Examples.task_v1)] /\
    slept (trace w') = [].
Proof.
  destruct (executeWithRetry_returns_at_once (list Outcome)
              (Examples.failing Examples.step_A_soft) 0%nat
              (Scripted.agent "A" [Returned Examples.failure_A])
              Examples.task_v1) as [Hreturned _].
  - vm_compute. reflexivity.
  - destruct (Hreturned Examples.failure_A) as [_ Hfirst]; [reflexivity|].
    destruct (Hfirst (Some 3)) as (w' & Hrun & Hcalled & Hslept); [simpl; lia|].
    exists w'. split; [exact Hrun|]. split; [exact Hcalled|exact Hslept].
Defined.

Section Exhaustion.
Context {P : Type}.
Implicit Types (w : World P) (o : AgentObj P) (agent : ref) (task : Task.t).

Import AgentOrchestrator.

(** An agent whose [process] throws on [task] in every state is called on
    every attempt, and the loop ends by throwing: the error of an attempt
    if there was one, [lastError] as it was otherwise. *)
Lemma retry_loop_all_throw (c : AgentClass P) agent task maxRetries :
  (forall now a, exists msg, outcome (process c task now a) = Threw msg) ->
  forall remaining attempt lastError w o,
    heap w !! agent = Some o -> cls o = c ->
    exists e w',
      retry_loop agent task maxRetries remaining attempt lastError w = (Throw e, w') /\
      (remaining = 0%nat -> e = lastError) /\
      (remaining <> 0%nat -> exists msg, e = JsError msg) /\
      called (trace w') = called (trace w) ++ replicate remaining (agent, task).
Proof.
  intros Hall. induction remaining as [|remaining IH]; intros attempt lastError w o Ho Hc.
  - rewrite (retry_loop_exhausted _ _ _ _ _ _ _ Ho). eexists _, _.
    split; [reflexivity|]. split; [done|]. split; [done|].
    simpl. by rewrite app_nil_r.
  - destruct (Hall (clock w) (fields o)) as [msg Hmsg]. rewrite <- Hc in Hmsg.
    rewrite (retry_loop_threw _ _ _ _ _ _ _ _ _ Ho Hmsg).
    edestruct (IH (attempt + 1) (JsError msg)) as (e & w' & -> & Hzero & Hpos & Hcalled).
    { apply after_attempt_heap. }
    { done. }
    eexists _, _. split; [reflexivity|]. split; [done|]. split.
    + intros _. destruct remaining as [|k]; [exists msg; by apply Hzero|by apply Hpos].
    + rewrite Hcalled, backed_off_called, logged_called, after_process_called.
      by rewrite <- app_assoc.
Qed.

End Exhaustion.

(** ** Claims on [executeWorkflow] *)











(** C1, as the code has it. When the agent's [process] throws on the last
    attempt, [executeWithRetry] throws that attempt's error (and an agent
    that throws on every attempt has been called [maxRetries] times by
    then). The step loop of [executeWorkflow] has no handler of its own:
    the [catch] block of the workflow logs the error and throws it again,
    so the call ends with that error. No result object is returned, the
    escalation handler is not called and no later step runs: the [process]
    calls are those made up to the failing step. The counter is back where
    it was. *)
Theorem exhausted_retries_abort_workflow (P : Type) :
  (forall (w : World P) (agent : ref) (o : AgentObj P) (task : Task.t)
          (maxRetries attempt : Z) (lastError : Thrown) (msg : string),
     heap w !! agent = Some o ->
     outcome (process (cls o) task (clock w) (fields o)) = Threw msg ->
     exists w',
       AgentOrchestrator.retry_loop agent task maxRetries 1 attempt lastError w
       = (Throw (JsError msg), w') /\
       called (trace w') = called (trace w) ++ [(agent, task)]) /\
  (forall (w : World P) (agent : ref) (o : AgentObj P) (task : Task.t) (maxRetries : Z),
     heap w !! agent = Some o ->
     (forall now a, exists msg, outcome (process (cls o) task now a) = Threw msg) ->
     1 <= maxRetries ->
     exists msg w',
       AgentOrchestrator.executeWithRetry agent task (Some maxRetries) w
       = (Throw (JsError msg), w') /\
       called (trace w')
       = called (trace w) ++ replicate (Z.to_nat maxRetries) (agent, task)) /\
  (forall (w : World P) (workflowName : string) (workflow : Workflow.t) (task : Task.t)
          (pre post : list Step.t) (s : Step.t) (t : Task.t) (rs : list ResultEntry)
          (w1 w2 : World P) (e : Thrown),
     workflows w !! workflowName = Some workflow ->
     activeTasksCount w < maxConcurrentTasks w ->
     Workflow.steps workflow = pre ++ s :: post ->
     AgentOrchestrator.for_steps workflow pre task [] (entered workflowName w)
     = (Normal (AgentOrchestrator.Fallthrough t rs), w1) ->
     AgentOrchestrator.invoke_step s t w1 = (Throw e, w2) ->
     e <> JsUndefined ->
     exists w',
       AgentOrchestrator.executeWorkflow workflowName task w = (Throw e, w') /\
       activeTasksCount w' = activeTasksCount w /\
       called (trace w') = called (trace w2)).
Proof.
  split; [|split].
  - intros w agent o task maxRetries attempt lastError msg Ho Hthrew.
    rewrite (retry_loop_threw _ _ _ _ _ _ _ _ _ Ho Hthrew).
    rewrite (retry_loop_exhausted _ _ _ _ _ _ _ (after_attempt_heap _ _ _ _ _ _ _ _)).
    eexists. split; [reflexivity|].
    change (trace (after_updateMetrics _ _ _ _ ?v)) with (trace v).
    by rewrite backed_off_called, logged_called, after_process_called.
  - intros w agent o task maxRetries Ho Hall Hmax.
    unfold AgentOrchestrator.executeWithRetry. simpl default.
    destruct (retry_loop_all_throw (cls o) agent task maxRetries Hall
                (Z.to_nat maxRetries) 1 JsUndefined w o Ho eq_refl)
      as (e & w' & Hrun & _ & Hpos & Hcalled).
    destruct Hpos as [msg ->]; [lia|]. by exists msg, w'.
  - intros w workflowName workflow task pre post s t rs w1 w2 e
      Hwf Hfree Hsteps Hpre Hstep He.
    rewrite (executeWorkflow_admitted _ _ task _ Hwf Hfree).
    rewrite attempt_workflow_run, Hsteps, for_steps_app, Hpre, for_steps_cons, Hstep.
    assert (Hcount : activeTasksCount w2 = activeTasksCount w + 1).
    { apply for_steps_frame in Hpre as (_ & _ & _ & Hc1 & _).
      apply invoke_step_frame in Hstep as [(_ & _ & _ & Hc2 & _) _].
      rewrite Hc2, Hc1. apply entered_count. }
    assert (Hread : unreadable e = None).
    { pose proof Hstep as Hthrows.
      apply invoke_step_throws in Hthrows as [-> | Hread]; done. }
    rewrite Hread. eexists. split; [reflexivity|].
    assert (Hlog : forall m, activeTasksCount (logged error m w2)
                             = activeTasksCount w2) by (intros; apply logged_same).
    simpl. rewrite Hlog, logged_called. split; [lia|done].
Qed.

(** C1 fails as stated: the first step's agent throws on both attempts,
    the step has [escalateOnFailure] set and the handler is registered, and
    still [executeWorkflow] throws instead of returning an escalated
    result; the handler (object 2) is never called. *)
Lemma exhausted_retries_abort_workflow_counterexample :
  fst (AgentOrchestrator.executeWorkflow "wf" Examples.task_without_data
         (Examples.throwing (Some 2)))
  = Throw (JsError "Invalid task: missing data field") /\
  (forall res w',
     AgentOrchestrator.executeWorkflow "wf" Examples.task_without_data
       (Examples.throwing (Some 2)) <> (Normal res, w')) /\
  called (trace (snd (AgentOrchestrator.executeWorkflow "wf" Examples.task_without_data
                        (Examples.throwing (Some 2)))))
  = [(0%nat, Task.mk (JStr "echo") JUndefined (Some "first") JUndefined);
     (0%nat, Task.mk (JStr "echo") JUndefined (Some "first") JUndefined)].
Proof.
  assert (Hrun :
    fst (AgentOrchestrator.executeWorkflow "wf" Examples.task_without_data
           (Examples.throwing (Some 2)))
    = Throw (JsError "Invalid task: missing data field"))
    by (vm_compute; reflexivity).
  split; [exact Hrun|]. split.
  - intros res w' Heq. rewrite Heq in Hrun. discriminate.
  - vm_compute. reflexivity.
Qed.

(** The workflow of the counterexample, through the theorem. *)
Lemma exhausted_retries_abort_workflow_witness :
  exists w',
    AgentOrchestrator.executeWorkflow "wf" Examples.task_without_data
      (Examples.throwing (Some 2))
    = (Throw (JsError "Invalid task: missing data field"), w') /\
    activeTasksCount w' = 0.
Proof.
  destruct (exhausted_retries_abort_workflow (list Outcome)) as (_ & _ & Hworkflow).
  destruct (Hworkflow (Examples.throwing (Some 2)) "wf"
              (Workflow.mk (Some "wf") [Examples.step_E (Some 2); Examples.step_B]
                 (Some "H"))
              Examples.task_without_data [] [Examples.step_B]
              (Examples.step_E (Some 2)) Examples.task_without_data []
              (entered "wf" (Examples.throwing (Some 2)))
              (snd (AgentOrchestrator.invoke_step (Examples.step_E (Some 2))
                      Examples.task_without_data
                      (entered "wf" (Examples.throwing (Some 2)))))
              (JsError "Invalid task: missing data field"))
    as (w' & Hrun & Hcount & _).
  - vm_compute. reflexivity.
  - vm_compute. reflexivity.
  - reflexivity.
  - reflexivity.
  - vm_compute. reflexivity.
  - discriminate.
  - exists w'. split; [exact Hrun|]. rewrite Hcount. reflexivity.
Defined.

(** C2, as the code has it. [executeWorkflow] passes [step.retries || 1] to
    [executeWithRetry]: 1 when the step has no [retries] (or has 0), the
    step's value when it is at least 1. The default of 3 is the one of
    [executeWithRetry] called without [maxRetries], which [executeWorkflow]
    never does. A step calls its agent's [process] at most
    [step.retries || 1] times, and exactly so many times when the agent
    throws on every attempt. *)
Theorem step_attempt_limit (P : Type) :
  (forall s : Step.t,
     (Step.retries s = None -> AgentOrchestrator.retries_or_1 s = 1) /\
     (Step.retries s = Some 0 -> AgentOrchestrator.retries_or_1 s = 1) /\
     (forall n, Step.retries s = Some n -> 1 <= n ->
                AgentOrchestrator.retries_or_1 s = n)) /\
  (forall (agent : ref) (task : Task.t) (w : World P),
     AgentOrchestrator.executeWithRetry agent task None w
     = AgentOrchestrator.executeWithRetry agent task (Some 3) w) /\
  (forall (s : Step.t) (t : Task.t) (w : World P) c w',
     AgentOrchestrator.invoke_step s t w = (c, w') ->
     exists agent n,
       Z.of_nat n <= Z.max 0 (AgentOrchestrator.retries_or_1 s) /\
       called (trace w')
       = called (trace w)
         ++ replicate n (agent, Task.with_step (Step.name s) (Step.config s) t)) /\
  (forall (s : Step.t) (t : Task.t) (w : World P) (agent : ref) (o : AgentObj P),
     agents w !! Step.agentName s = Some agent ->
     heap w !! agent = Some o ->
     let task := Task.with_step (Step.name s) (Step.config s) t in
     (forall now a, exists msg, outcome (process (cls o) task now a) = Threw msg) ->
     1 <= AgentOrchestrator.retries_or_1 s ->
     exists msg w',
       AgentOrchestrator.invoke_step s t w = (Throw (JsError msg), w') /\
       called (trace w')
       = called (trace w)
         ++ replicate (Z.to_nat (AgentOrchestrator.retries_or_1 s)) (agent, task)).
Proof.
  split; [|split; [|split]].
  - intros s. unfold AgentOrchestrator.retries_or_1. split; [by intros ->|].
    split; [by intros ->|]. intros n -> Hn. simpl.
    destruct (Z.eqb_spec n 0); [lia|done].
  - done.
  - intros s t w c w' Hrun. by apply invoke_step_frame in Hrun as [_ Hcalled].
  - intros s t w agent o Hreg Ho task Hall Hmin.
    rewrite (invoke_step_registered _ _ _ _ Hreg).
    unfold AgentOrchestrator.executeWithRetry. simpl default.
    set (w1 := logged _ _ w).
    assert (Ho1 : heap w1 !! agent = Some o) by (unfold w1; by rewrite logged_heap).
    destruct (retry_loop_all_throw (cls o) agent task (AgentOrchestrator.retries_or_1 s)
                Hall (Z.to_nat (AgentOrchestrator.retries_or_1 s)) 1 JsUndefined
                w1 o Ho1 eq_refl)
      as (e & w' & Hrun & _ & Hpos & Hcalled).
    destruct Hpos as [msg ->]; [lia|]. exists msg, w'. split; [done|].
    rewrite Hcalled. unfold w1. by rewrite logged_called.
Qed.

(** C2 fails as stated: a step without [retries] whose agent throws on
    every attempt gets one attempt, not three; three is what
    [executeWithRetry] makes of a missing [maxRetries]. *)
Lemma step_attempt_limit_counterexample :
  Step.retries (Examples.step_E None) = None /\
  length (called (trace (snd (AgentOrchestrator.executeWorkflow "wf"
                                Examples.task_without_data (Examples.throwing None)))))
  = 1%nat /\
  length (called (trace (snd (AgentOrchestrator.executeWithRetry 0%nat
                                Examples.task_without_data None
                                (Examples.throwing None)))))
  = 3%nat.
Proof. split; [reflexivity|]. split; vm_compute; reflexivity. Qed.

(** A step without [retries] in front of an agent that always throws. *)
Lemma step_attempt_limit_witness :
  exists msg w',
    AgentOrchestrator.invoke_step (Examples.step_E None) Examples.task_without_data
      (Examples.throwing None) = (Throw (JsError msg), w') /\
    length (called (trace w')) = 1%nat.
Proof.
  destruct (step_attempt_limit (list Outcome)) as (_ & _ & _ & Hexact).
  destruct (Hexact (Examples.step_E None) Examples.task_without_data
              (Examples.throwing None) 0%nat (Echo.agent "E"))
    as (msg & w' & Hrun & Hcalled).
  - vm_compute. reflexivity.
  - vm_compute. reflexivity.
  - intros now a. exists "Invalid task: missing data field". reflexivity.
  - vm_compute. discriminate.
  - exists msg, w'. split; [exact Hrun|]. rewrite Hcalled. reflexivity.
Defined.

Section SubclassExhaustion.
Context {P : Type}.
Implicit Types (w : World P) (o : AgentObj P) (agent : ref) (task : Task.t).

Import AgentOrchestrator.

(** A [BaseAgent] subclass given a task that fails validation: every
    attempt throws and leaves the object alone, so all that changes on it
    is the final [updateMetrics(0, true)]. *)
Lemma retry_loop_invalid_task busy handlers agent task maxRetries msg :
  BaseAgent.validateTask task = Some msg ->
  forall remaining attempt lastError w o,
    heap w !! agent = Some o ->
    cls o = BaseAgent.subclass busy handlers ->
    exists w',
      retry_loop agent task maxRetries remaining attempt lastError w
      = (Throw (if remaining is O then lastError else JsError msg), w') /\
      heap w' !! agent
      = Some (mkObj (BaseAgent.updateMetrics 0 true (fields o)) (cls o)).
Proof.
  intros Hv. induction remaining as [|remaining IH]; intros attempt lastError w o Ho Hc.
  - rewrite (retry_loop_exhausted _ _ _ _ _ _ _ Ho). eexists. split; [reflexivity|].
    rewrite after_updateMetrics_heap. by rewrite Hc.
  - assert (Hrun : process (cls o) task (clock w) (fields o)
                   = mkRun (Threw msg) (fields o) 0 []).
    { rewrite Hc. simpl. by apply subclass_process_invalid. }
    assert (Hthrew : outcome (process (cls o) task (clock w) (fields o)) = Threw msg)
      by (by rewrite Hrun).
    rewrite (retry_loop_threw _ _ _ _ _ _ _ _ _ Ho Hthrew).
    edestruct (IH (attempt + 1) (JsError msg)) as (w' & -> & Hheap).
    { apply after_attempt_heap. }
    { done. }
    exists w'. split; [by destruct remaining|].
    rewrite Hheap. by rewrite Hrun.
Qed.

End SubclassExhaustion.

(** C10. An attempt on which [process] returns is followed by the
    orchestrator's own [agent.updateMetrics(duration, false)], on top of
    whatever the agent did to its metrics inside [process]. For a
    [BaseAgent] subclass, which counts the task itself, one orchestrated
    call therefore raises [tasksProcessed] by 2, and when the returned
    result is a failure [errors] by 1 (the agent's own count) next to the 2.
    When the attempts run out the orchestrator calls
    [updateMetrics(0, true)] before it throws; for a [BaseAgent] subclass,
    whose [process] throws only on a task that fails validation and then
    counts nothing, that is one more task and one more error. *)
Theorem orchestrator_updates_metrics_again (P : Type) (w : World P) (agent : ref)
    (o : AgentObj P) (task : Task.t) :
  heap w !! agent = Some o ->
  let run := process (cls o) task (clock w) (fields o) in
  (forall (r : AgentResult.t) (maxRetries : option Z),
     outcome run = Returned r ->
     1 <= default 3 maxRetries ->
     exists w',
       AgentOrchestrator.executeWithRetry agent task maxRetries w = (Normal r, w') /\
       heap w' !! agent
       = Some (mkObj (updateMetrics (cls o) (elapsed run) false (after run)) (cls o)) /\
       forall busy handlers,
         cls o = BaseAgent.subclass busy handlers ->
         exists o',
           heap w' !! agent = Some o' /\
           tasksProcessed (Agent.metrics (fields o'))
           = tasksProcessed (Agent.metrics (fields o)) + 2 /\
           errors (Agent.metrics (fields o'))
           = errors (Agent.metrics (fields o))
             + (if AgentResult.success r then 0 else 1)) /\
  (forall (maxRetries attempt : Z) (lastError : Thrown),
     exists w',
       AgentOrchestrator.retry_loop agent task maxRetries 0 attempt lastError w
       = (Throw lastError, w') /\
       heap w' !! agent = Some (mkObj (updateMetrics (cls o) 0 true (fields o)) (cls o))) /\
  (forall busy handlers (maxRetries : Z) (msg : string),
     cls o = BaseAgent.subclass busy handlers ->
     BaseAgent.validateTask task = Some msg ->
     1 <= maxRetries ->
     exists w' o',
       AgentOrchestrator.executeWithRetry agent task (Some maxRetries) w
       = (Throw (JsError msg), w') /\
       heap w' !! agent = Some o' /\
       tasksProcessed (Agent.metrics (fields o'))
       = tasksProcessed (Agent.metrics (fields o)) + 1 /\
       errors (Agent.metrics (fields o')) = errors (Agent.metrics (fields o)) + 1).
Proof.
  intros Ho run. split; [|split].
  - intros r maxRetries Hret Hmax. unfold AgentOrchestrator.executeWithRetry.
    destruct (Z.to_nat (default 3 maxRetries)) as [|remaining] eqn:Hn; [lia|].
    rewrite (retry_loop_returned _ _ _ _ _ _ _ _ _ Ho Hret). fold run.
    eexists. split; [reflexivity|]. rewrite after_updateMetrics_heap. simpl.
    split; [done|].
    intros busy handlers Hc. eexists. split; [reflexivity|]. cbn [fields].
    assert (Hupd : updateMetrics (cls o) = BaseAgent.updateMetrics) by (by rewrite Hc).
    assert (Hproc : process (cls o) = BaseAgent.subclass_process busy handlers)
      by (by rewrite Hc).
    rewrite Hupd.
    destruct (updateMetrics_counts (elapsed run) false (after run)) as [-> ->].
    unfold run in *. rewrite Hproc in *.
    destruct (subclass_process_returned _ _ _ _ _ _ Hret) as [-> ->]. split; lia.
  - intros maxRetries attempt lastError.
    rewrite (retry_loop_exhausted _ _ _ _ _ _ _ Ho). eexists. split; [reflexivity|].
    apply after_updateMetrics_heap.
  - intros busy handlers maxRetries msg Hc Hv Hmax.
    unfold AgentOrchestrator.executeWithRetry. simpl default.
    destruct (retry_loop_invalid_task busy handlers agent task maxRetries msg Hv
                (Z.to_nat maxRetries) 1 JsUndefined w o Ho Hc) as (w' & Hrun & Hheap).
    destruct (Z.to_nat maxRetries) as [|remaining] eqn:Hn; [lia|].
    eexists _, _. split; [exact Hrun|]. split; [exact Hheap|]. cbn [fields].
    destruct (updateMetrics_counts 0 true (fields o)) as [-> ->]. done.
Qed.

(** An Echo agent whose handler throws: one orchestrated call, two tasks
    counted and one error. *)
Lemma orchestrator_updates_metrics_again_witness :
  exists w' o',
    AgentOrchestrator.executeWithRetry 0%nat Examples.task_fail (Some 2)
      (Examples.throwing (Some 2))
    = (Normal (AgentResult.mk false "E" JUndefined (Some "handler failed") 1000), w') /\
    heap w' !! 0%nat = Some o' /\
    tasksProcessed (Agent.metrics (fields o')) = 2 /\
    errors (Agent.metrics (fields o')) = 1.
Proof.
  destruct (orchestrator_updates_metrics_again (list Outcome)
              (Examples.throwing (Some 2)) 0%nat (Echo.agent "E") Examples.task_fail)
    as (Hreturned & _ & _).
  - vm_compute. reflexivity.
  - destruct (Hreturned (AgentResult.mk false "E" JUndefined (Some "handler failed") 1000)
                (Some 2)) as (w' & Hrun & _ & Hsubclass).
    + vm_compute. reflexivity.
    + simpl. lia.
    + destruct (Hsubclass "echoing" Echo.handlers eq_refl) as (o' & Ho' & Htasks & Herrors).
      exists w', o'. split; [exact Hrun|]. split; [exact Ho'|].
      split; [exact Htasks|exact Herrors].
Defined.

(** * Further properties of the code *)

(** ** [BaseAgent]: history, metrics, the [process] template *)

Section BaseAgentFacts.
Context {P : Type}.
Implicit Types (a : Agent.t P) (task : Task.t).

Lemma last_snoc_tail {A : Type} (l : list A) (x : A) :
  l <> [] -> last (tail (l ++ [x])) = Some x.
Proof.
  destruct l as [|y l]; [done|]. intros _. simpl. apply last_snoc.
Qed.

Lemma recordTask_history task result now a :
  let e := mkHistoryEntry now task result JNull (Agent.state a) in
  let h := Agent.conversationHistory a in
  Agent.conversationHistory (BaseAgent.recordTask task result now a)
  = if (length h <? 100)%nat then h ++ [e] else tail (h ++ [e]).
Proof.
  intros e h. unfold BaseAgent.recordTask. simpl. fold h. fold e.
  rewrite length_app. simpl.
  destruct (Nat.ltb_spec (length h) 100), (Z.ltb_spec 100 (Z.of_nat (length h + 1)));
    (done || lia).
Qed.

Lemma recordTask_last task result now a :
  last (Agent.conversationHistory (BaseAgent.recordTask task result now a))
  = Some (mkHistoryEntry now task result JNull (Agent.state a)).
Proof.
  rewrite recordTask_history. simpl.
  destruct (Nat.ltb_spec (length (Agent.conversationHistory a)) 100).
  - apply last_snoc.
  - apply last_snoc_tail. intros Hnil. rewrite Hnil in *. simpl in *. lia.
Qed.

End BaseAgentFacts.

(** X1. [recordTask] puts the new entry last and keeps what was there,
    except that once 100 entries are held the oldest one goes: a history of
    at most 100 entries stays at most 100 long, and a full one stays full.
    Nothing but the history changes on the agent. *)
Theorem recordTask_keeps_last_hundred (P : Type) (task : Task.t) (result : JsVal)
    (now : Z) (a : Agent.t P) :
  let e := mkHistoryEntry now task result JNull (Agent.state a) in
  let h := Agent.conversationHistory a in
  let a' := BaseAgent.recordTask task result now a in
  let h' := Agent.conversationHistory a' in
  last h' = Some e /\
  ((length h < 100)%nat -> h' = h ++ [e]) /\
  ((100 <= length h)%nat -> h' = tail h ++ [e] /\ length h' = length h) /\
  ((length h <= 100)%nat -> (length h' <= 100)%nat) /\
  a' = Agent.set_conversationHistory h' a.
Proof.
  intros e h a' h'.
  assert (Hh' : h' = if (length h <? 100)%nat then h ++ [e] else tail (h ++ [e]))
    by apply recordTask_history.
  split; [|split; [|split; [|split]]].
  - rewrite Hh'. destruct (Nat.ltb_spec (length h) 100).
    + apply last_snoc.
    + apply last_snoc_tail. intros ->. simpl in *. lia.
  - intros Hlt. rewrite Hh'. by destruct (Nat.ltb_spec (length h) 100); [|lia].
  - intros Hfull. rewrite Hh'. destruct (Nat.ltb_spec (length h) 100); [lia|].
    destruct h as [|x h0]; [simpl in *; lia|]. simpl. split; [done|].
    rewrite length_app. simpl. lia.
  - intros Hle. rewrite Hh'. destruct (Nat.ltb_spec (length h) 100).
    + rewrite length_app. simpl. lia.
    + destruct h as [|x h0]; [simpl in *; lia|]. simpl. rewrite length_app. simpl.
      simpl in Hle. lia.
  - done.
Qed.

(** A history of 100 entries: the first one is dropped, the new one is last. *)
Lemma recordTask_keeps_last_hundred_witness :
  length (Agent.conversationHistory
            (BaseAgent.recordTask Examples.task_v1 JNull 7
               (Agent.set_conversationHistory
                  (replicate 100 (mkHistoryEntry 0 Examples.task_v1 JNull JNull "busy"))
                  (BaseAgent.create "E" "Echo" false tt))))
  = 100%nat.
Proof.
  destruct (recordTask_keeps_last_hundred unit Examples.task_v1 JNull 7
              (Agent.set_conversationHistory
                 (replicate 100 (mkHistoryEntry 0 Examples.task_v1 JNull JNull "busy"))
                 (BaseAgent.create "E" "Echo" false tt)))
    as (_ & _ & Hfull & _).
  destruct Hfull as [_ Hlen]; [vm_compute; lia|].
  rewrite Hlen. reflexivity.
Defined.

Section MetricsFacts.
Context {P : Type}.
Implicit Types (a : Agent.t P) (calls : list (Z * bool)).

Lemma update_all_snoc calls t err a :
  update_all (calls ++ [(t, err)]) a = BaseAgent.updateMetrics t err (update_all calls a).
Proof. unfold update_all. by rewrite fold_left_app. Qed.

Lemma error_count_snoc calls t err :
  error_count (calls ++ [(t, err)]) = error_count calls + (if err then 1 else 0).
Proof. induction calls as [|c calls IH]; simpl; [lia|]. rewrite IH. lia. Qed.

Lemma error_count_bounds calls : 0 <= error_count calls <= Z.of_nat (length calls).
Proof.
  induction calls as [|[t err] calls IH]; simpl; [lia|]. destruct err; lia.
Qed.

Lemma update_all_counts calls a :
  tasksProcessed (Agent.metrics (update_all calls a))
  = tasksProcessed (Agent.metrics a) + Z.of_nat (length calls) /\
  errors (Agent.metrics (update_all calls a))
  = errors (Agent.metrics a) + error_count calls.
Proof.
  induction calls as [|[t err] calls IH] using rev_ind; [simpl; lia|].
  rewrite update_all_snoc, error_count_snoc, length_app.
  destruct (updateMetrics_counts t err (update_all calls a)) as [-> ->].
  destruct IH as [-> ->]. simpl length. lia.
Qed.

End MetricsFacts.

(** X2. [updateMetrics] counts: after any run of calls [tasksProcessed] has
    grown by the number of calls and [errors] by the number of calls made
    with [error = true]; so [errors] stays between 0 and [tasksProcessed]
    once it is. *)
Theorem updateMetrics_counts_calls (P : Type) (calls : list (Z * bool)) (a : Agent.t P) :
  let m := Agent.metrics a in
  let m' := Agent.metrics (update_all calls a) in
  tasksProcessed m' = tasksProcessed m + Z.of_nat (length calls) /\
  errors m' = errors m + error_count calls /\
  (0 <= errors m <= tasksProcessed m -> 0 <= errors m' <= tasksProcessed m').
Proof.
  intros m m'. destruct (update_all_counts calls a) as [Htasks Herrors].
  split; [exact Htasks|]. split; [exact Herrors|].
  intros Hinv. unfold m'. rewrite Htasks, Herrors.
  pose proof (error_count_bounds calls). fold m. lia.
Qed.

(** Three calls, one of them an error, on a new agent. *)
Lemma updateMetrics_counts_calls_witness :
  0 <= errors (Agent.metrics (update_all [(5, false); (0, true); (7, false)]
                                (BaseAgent.create "E" "Echo" false tt)))
    <= tasksProcessed (Agent.metrics (update_all [(5, false); (0, true); (7, false)]
                                        (BaseAgent.create "E" "Echo" false tt))).
Proof.
  destruct (updateMetrics_counts_calls unit [(5, false); (0, true); (7, false)]
              (BaseAgent.create "E" "Echo" false tt)) as (_ & _ & Hinv).
  apply Hinv. simpl. lia.
Defined.

(** X4. What [process] of a [BaseAgent] subclass does, case by case. A
    task that fails validation makes it throw the validation error with the
    object untouched and nothing logged. Any other task is counted as one
    task and makes it return. When the [switch] has a case for the task's
    type and the handler returns a value, the result is
    [{success: true, agent, data: value, timestamp}], the state is ['idle']
    again, no error is counted, and the history ends with an entry that
    holds the task, the value and the busy state. When the handler throws,
    the result is [{success: false, error: message, agent, timestamp}]
    without data, the state is ['error'], one error is counted and the
    history is as it was. When no case matches, the same happens with the
    message "Unknown task type: <type>". The name, the role and the logger
    never change. *)
Theorem subclass_process_cases (P : Type) (busy : string)
    (handlers : string -> option (@BaseAgent.Handler P)) (task : Task.t) (now : Z)
    (a : Agent.t P) :
  let run := BaseAgent.subclass_process busy handlers task now a in
  let a' := after run in
  Agent.name a' = Agent.name a /\ Agent.role a' = Agent.role a /\
  Agent.logger a' = Agent.logger a /\
  match BaseAgent.validateTask task with
  | Some msg => outcome run = Threw msg /\ a' = a /\ emitted run = [] /\ elapsed run = 0
  | None =>
      tasksProcessed (Agent.metrics a') = tasksProcessed (Agent.metrics a) + 1 /\
      match case_for handlers task with
      | Some h =>
          let hr := h (Task.data task) (Agent.set_state busy a) in
          let finish := now + BaseAgent.h_elapsed hr in
          elapsed run = BaseAgent.h_elapsed hr /\
          Agent.priv a' = BaseAgent.h_priv hr /\
          match BaseAgent.h_outcome hr with
          | inl value =>
              outcome run
              = Returned (AgentResult.mk true (Agent.name a) value None finish) /\
              Agent.state a' = "idle" /\
              errors (Agent.metrics a') = errors (Agent.metrics a) /\
              last (Agent.conversationHistory a')
              = Some (mkHistoryEntry finish task value JNull busy)
          | inr msg =>
              outcome run
              = Returned (AgentResult.mk false (Agent.name a) JUndefined (Some msg) finish) /\
              Agent.state a' = "error" /\
              errors (Agent.metrics a') = errors (Agent.metrics a) + 1 /\
              Agent.conversationHistory a' = Agent.conversationHistory a
          end
      | None =>
          outcome run
          = Returned (AgentResult.mk false (Agent.name a) JUndefined
                        (Some ("Unknown task type: " +:+ template (Task.type task))) now) /\
          Agent.state a' = "error" /\
          errors (Agent.metrics a') = errors (Agent.metrics a) + 1 /\
          Agent.conversationHistory a' = Agent.conversationHistory a /\
          elapsed run = 0 /\ Agent.priv a' = Agent.priv a
      end
  end.
Proof.
  intros run a'. unfold a', run, BaseAgent.subclass_process, case_for.
  destruct (BaseAgent.validateTask task) as [msg|] eqn:Hv; [by repeat split|].
  simpl.
  destruct (match Task.type task with JStr ty => handlers ty | _ => None end) as [h|].
  - set (hr := h (Task.data task) (Agent.set_state busy a)).
    destruct (BaseAgent.h_outcome hr) as [res|msg].
    + simpl. do 3 (split; [done|]). split; [lia|].
      do 5 (split; [done|]).
      exact (recordTask_last task res (now + BaseAgent.h_elapsed hr)
               (BaseAgent.updateMetrics (now + BaseAgent.h_elapsed hr - now) false
                  (Agent.set_priv (BaseAgent.h_priv hr) (Agent.set_state busy a)))).
    + simpl. do 3 (split; [done|]). split; [lia|].
      do 4 (split; [done|]). split; [lia|done].
  - simpl. do 3 (split; [done|]). split; [lia|].
    do 2 (split; [done|]). split; [lia|done].
Qed.

(** ** [AgentOrchestrator]: what a call leaves in place *)

Section Classes.
Context {P : Type}.
Implicit Types (w : World P) (o : AgentObj P) (agent : ref) (task : Task.t).

Import AgentOrchestrator.

Lemma same_classes_refl w : same_classes w w.
Proof. done. Qed.

Lemma same_classes_trans w1 w2 w3 :
  same_classes w1 w2 -> same_classes w2 w3 -> same_classes w1 w3.
Proof. intros H12 H23 r. by rewrite H23, H12. Qed.

Lemma same_classes_heap w w' : heap w' = heap w -> same_classes w w'.
Proof. intros Hheap r. by rewrite Hheap. Qed.

Lemma store_same_classes agent o fields' w :
  heap w !! agent = Some o ->
  same_classes w (store agent (mkObj fields' (cls o)) w).
Proof.
  intros Ho r. simpl. destruct (decide (agent = r)) as [<-|Hne].
  - by rewrite lookup_insert_eq, Ho.
  - by rewrite lookup_insert_ne.
Qed.

Lemma after_process_classes agent o task w :
  heap w !! agent = Some o -> same_classes w (after_process agent o task w).
Proof. intros Ho r. by apply (store_same_classes agent o _ w Ho). Qed.

Lemma after_updateMetrics_classes agent o t err w :
  heap w !! agent = Some o -> same_classes w (after_updateMetrics agent o t err w).
Proof. intros Ho. by apply store_same_classes. Qed.

Lemma retry_loop_classes agent task maxRetries remaining attempt lastError w c w' :
  retry_loop agent task maxRetries remaining attempt lastError w = (c, w') ->
  same_classes w w'.
Proof.
  revert attempt lastError w.
  induction remaining as [|remaining IH]; intros attempt lastError w Hrun.
  - destruct (heap w !! agent) as [o|] eqn:Ho.
    + rewrite (retry_loop_exhausted _ _ _ _ _ _ _ Ho) in Hrun.
      injection Hrun as <- <-. by apply after_updateMetrics_classes.
    + destruct (retry_loop_undefined agent task maxRetries 0 attempt lastError w Ho)
        as [msg Hm].
      rewrite Hm in Hrun. by injection Hrun as <- <-.
  - destruct (heap w !! agent) as [o|] eqn:Ho.
    + destruct (retry_loop_step agent o task maxRetries remaining attempt lastError w Ho)
        as [(r & _ & Hstep) | [(e & _ & _ & Hstep) | (e & t & _ & _ & Hstep)]];
        rewrite Hstep in Hrun.
      * injection Hrun as <- <-.
        eapply same_classes_trans; [by apply after_process_classes|].
        apply (after_updateMetrics_classes agent
                 (mkObj (after (process (cls o) task (clock w) (fields o))) (cls o))).
        apply after_process_heap.
      * apply IH in Hrun.
        eapply same_classes_trans; [by apply (after_process_classes agent o task)|].
        eapply same_classes_trans; [|exact Hrun].
        apply same_classes_heap. unfold after_failed_attempt.
        by rewrite backed_off_heap, logged_heap.
      * injection Hrun as <- <-. by apply after_process_classes.
    + destruct (retry_loop_undefined agent task maxRetries (S remaining) attempt
                  lastError w Ho) as [msg Hm].
      rewrite Hm in Hrun. by injection Hrun as <- <-.
Qed.

Lemma invoke_step_classes (step : Step.t) task w c w' :
  invoke_step step task w = (c, w') -> same_classes w w'.
Proof.
  destruct (agents w !! Step.agentName step) as [agent|] eqn:Hreg.
  - rewrite (invoke_step_registered _ _ _ _ Hreg). unfold executeWithRetry.
    intros Hrun. apply retry_loop_classes in Hrun.
    eapply same_classes_trans; [|exact Hrun].
    apply same_classes_heap. apply logged_heap.
  - rewrite (invoke_step_unregistered _ _ _ Hreg). by intros [= <- <-].
Qed.

Lemma handleEscalation_classes (workflow : Workflow.t) (failedStep : Step.t) err
    previousResults w c w' :
  handleEscalation workflow failedStep err previousResults w = (c, w') ->
  same_classes w w'.
Proof.
  destruct (escalation_handler workflow w) as [handler|] eqn:Hh.
  - destruct (heap w !! handler) as [o|] eqn:Ho.
    + rewrite (handleEscalation_handler _ _ _ _ _ _ _ Hh Ho).
      assert (Ho1 : heap (logged info "Handling escalation" w) !! handler = Some o)
        by (by rewrite logged_heap).
      assert (Hcalled : same_classes w
                (after_process handler o
                   (escalation_task workflow failedStep err previousResults)
                   (logged info "Handling escalation" w))).
      { eapply same_classes_trans; [|by apply after_process_classes].
        apply same_classes_heap. apply logged_heap. }
      assert (Hlogged : same_classes w
                (logged error "Escalation handler failed"
                   (after_process handler o
                      (escalation_task workflow failedStep err previousResults)
                      (logged info "Handling escalation" w)))).
      { eapply same_classes_trans; [exact Hcalled|].
        apply same_classes_heap. apply logged_heap. }
      destruct (outcome _) as [r|msg|v]; [| |destruct (message_property v)];
        by intros [= <- <-].
    + rewrite (handleEscalation_undefined _ _ _ _ _ _ Hh Ho). intros [= <- <-].
      apply same_classes_heap. by rewrite !logged_heap.
  - rewrite (handleEscalation_default _ _ _ _ _ Hh). intros [= <- <-].
    apply same_classes_heap. apply logged_heap.
Qed.

Lemma for_steps_classes (workflow : Workflow.t) steps task results w c w' :
  for_steps workflow steps task results w = (c, w') -> same_classes w w'.
Proof.
  revert task results w. induction steps as [|step rest IH]; intros task results w.
  - by intros [= <- <-].
  - rewrite for_steps_cons.
    destruct (invoke_step step task w) as [[r|e] w1] eqn:Hstep;
      apply invoke_step_classes in Hstep.
    + simpl. destruct (negb (AgentResult.success r) && Step.escalateOnFailure step).
      * destruct (handleEscalation _ _ _ _ _) as [c0 w2] eqn:Hesc.
        apply handleEscalation_classes in Hesc. intros [= <- <-].
        eapply same_classes_trans; [exact Hstep|].
        eapply same_classes_trans; [|exact Hesc].
        apply same_classes_heap. apply logged_heap.
      * intros Hrest. apply IH in Hrest. by eapply same_classes_trans.
    + by intros [= <- <-].
Qed.

Lemma executeWorkflow_classes workflowName task w c w' :
  executeWorkflow workflowName task w = (c, w') -> same_classes w w'.
Proof.
  destruct (workflows w !! workflowName) as [workflow|] eqn:Hwf.
  - destruct (Z.le_gt_cases (maxConcurrentTasks w) (activeTasksCount w)) as [Hfull|Hfree].
    + rewrite (executeWorkflow_full _ _ _ _ Hwf Hfull). intros [= <- <-].
      apply same_classes_heap. apply logged_heap.
    + rewrite (executeWorkflow_admitted _ _ _ _ Hwf Hfree).
      rewrite attempt_workflow_run.
      destruct (for_steps workflow (Workflow.steps workflow) task []
                  (entered workflowName w)) as [[[t rs|r]|e] w1] eqn:Hloop;
        apply for_steps_classes in Hloop.
      * intros [= <- <-]. intros r. simpl. rewrite logged_heap, Hloop.
        unfold entered. simpl. by rewrite logged_heap.
      * intros [= <- <-]. intros r0. simpl. rewrite Hloop.
        unfold entered. simpl. by rewrite logged_heap.
      * destruct (unreadable e); intros [= <- <-]; intros r; simpl;
          rewrite ?logged_heap, Hloop; unfold entered; simpl; by rewrite logged_heap.
  - rewrite (executeWorkflow_unknown _ _ _ Hwf). by intros [= <- <-].
Qed.

Lemma registered_class_same w w' name :
  agents w' = agents w -> same_classes w w' ->
  registered_class w' name = registered_class w name.
Proof.
  intros Hag Hcls. unfold registered_class. rewrite Hag.
  destruct (agents w !! name); [apply Hcls|done].
Qed.

End Classes.

Section Configuration.
Context {P : Type}.
Implicit Types (w : World P) (task : Task.t).

Import AgentOrchestrator.

Lemma executeWorkflow_same workflowName task w c w' :
  executeWorkflow workflowName task w = (c, w') -> same_orchestrator w w'.
Proof.
  destruct (workflows w !! workflowName) as [workflow|] eqn:Hwf.
  - destruct (Z.le_gt_cases (maxConcurrentTasks w) (activeTasksCount w)) as [Hfull|Hfree].
    + rewrite (executeWorkflow_full _ _ _ _ Hwf Hfull). intros [= <- <-].
      apply logged_same.
    + rewrite (executeWorkflow_admitted _ _ _ _ Hwf Hfree).
      destruct (attempt_workflow workflowName workflow task (entered workflowName w))
        as [c1 w1] eqn:Hrun.
      apply attempt_workflow_frame in Hrun as (Hl & Ha & Hw & Hc & Hm).
      intros [= <- <-]. unfold same_orchestrator. simpl.
      rewrite Hl, Ha, Hw, Hc, Hm, entered_count. unfold entered, logged.
      destruct (logger w) eqn:Hlogger; simpl; rewrite ?Hlogger;
        repeat split; (done || lia).
  - rewrite (executeWorkflow_unknown _ _ _ Hwf). intros [= <- <-].
    apply same_orchestrator_refl.
Qed.

Lemma configured_same impl w w' :
  same_orchestrator w w' -> same_classes w w' -> configured impl w -> configured impl w'.
Proof.
  intros (_ & Hag & Hwf & _) Hcls. unfold configured.
  rewrite !(registered_class_same w w' _ Hag Hcls), Hwf. done.
Qed.

End Configuration.

(** X5. [registerWorkflow] never throws and is an upsert: the name then
    maps to the definition given, every other name maps to what it did, the
    table grows by one for a new name and keeps its size for a known one,
    and the agents, the counter and the limit are untouched. Registering a
    second definition under the name leaves the table as if the first had
    never been registered. *)
Theorem registerWorkflow_upserts (P : Type) (w : World P) (name : string)
    (workflow workflow2 : Workflow.t) :
  exists w',
    AgentOrchestrator.registerWorkflow name workflow w = (Normal tt, w') /\
    workflows w' = <[name := workflow]> (workflows w) /\
    workflows w' !! name = Some workflow /\
    (forall other, other <> name -> workflows w' !! other = workflows w !! other) /\
    size (workflows w')
    = (if workflows w !! name is Some _ then size (workflows w)
       else S (size (workflows w))) /\
    agents w' = agents w /\ heap w' = heap w /\
    activeTasksCount w' = activeTasksCount w /\
    maxConcurrentTasks w' = maxConcurrentTasks w /\
    exists w'',
      AgentOrchestrator.registerWorkflow name workflow2 w' = (Normal tt, w'') /\
      workflows w'' = <[name := workflow2]> (workflows w).
Proof.
  assert (Hlog : forall lvl msg (v : World P),
            workflows (logged lvl msg v) = workflows v /\
            agents (logged lvl msg v) = agents v /\
            heap (logged lvl msg v) = heap v /\
            activeTasksCount (logged lvl msg v) = activeTasksCount v /\
            maxConcurrentTasks (logged lvl msg v) = maxConcurrentTasks v).
  { intros lvl msg v. unfold logged. by destruct (logger v). }
  assert (Hrun : forall (v : World P) wf,
            AgentOrchestrator.registerWorkflow name wf v
            = (Normal tt, logged info ("Workflow registered: " +:+ name)
                            (AgentOrchestrator.set_workflows
                               (<[name := wf]> (workflows v)) v))) by done.
  eexists. split; [apply Hrun|].
  destruct (Hlog info ("Workflow registered: " +:+ name)
              (AgentOrchestrator.set_workflows (<[name := workflow]> (workflows w)) w))
    as (-> & -> & -> & -> & ->).
  simpl. split; [done|]. split; [apply lookup_insert_eq|].
  split; [intros other Hne; by apply lookup_insert_ne|]. split.
  { destruct (workflows w !! name) as [old|] eqn:Hold.
    - rewrite <- (insert_delete_id (workflows w) name old Hold) at 2.
      rewrite <- insert_delete_eq.
      rewrite !map_size_insert_None by apply lookup_delete_eq. done.
    - by apply map_size_insert_None. }
  do 4 (split; [done|]).
  eexists. split; [apply Hrun|].
  destruct (Hlog info ("Workflow registered: " +:+ name)
              (AgentOrchestrator.set_workflows
                 (<[name := workflow2]>
                    (workflows (logged info ("Workflow registered: " +:+ name)
                                  (AgentOrchestrator.set_workflows
                                     (<[name := workflow]> (workflows w)) w))))
                 (logged info ("Workflow registered: " +:+ name)
                    (AgentOrchestrator.set_workflows
                       (<[name := workflow]> (workflows w)) w))))
    as (-> & _).
  simpl.
  destruct (Hlog info ("Workflow registered: " +:+ name)
              (AgentOrchestrator.set_workflows (<[name := workflow]> (workflows w)) w))
    as (-> & _).
  simpl. apply insert_insert_eq.
Qed.

(** X6. Whatever a call of [executeWorkflow] comes to (a result, an
    escalation, any throw), it leaves the orchestrator as it found it: the
    same agents under the same names, the same workflows, logger and limit,
    the counter back at its value, and every agent object of the class it
    had. A server set up as in [server.js] therefore stays set up. *)
Theorem executeWorkflow_keeps_configuration (P : Type) (w w' : World P)
    (workflowName : string) (task : Task.t) (c : Completion WorkflowResult) :
  AgentOrchestrator.executeWorkflow workflowName task w = (c, w') ->
  same_orchestrator w w' /\
  same_classes w w' /\
  (forall name, registered_class w' name = registered_class w name) /\
  (forall impl, configured impl w -> configured impl w').
Proof.
  intros Hrun.
  pose proof (executeWorkflow_same _ _ _ _ _ Hrun) as Hsame.
  pose proof (executeWorkflow_classes _ _ _ _ _ Hrun) as Hcls.
  split; [done|]. split; [done|]. split.
  - intros name. apply registered_class_same; [apply Hsame|done].
  - intros impl. by apply configured_same.
Qed.

(** ** [executeWithRetry]: the backoff schedule *)

Section Backoff.
Context {P : Type}.
Implicit Types (w : World P) (o : AgentObj P) (agent : ref) (task : Task.t).

Import AgentOrchestrator.

Lemma backoff_delays_cons first n :
  backoff_delays first (S n) = 2 ^ first * 100 :: backoff_delays (first + 1) n.
Proof.
  unfold backoff_delays. simpl. rewrite Z.add_0_r. f_equal.
  rewrite <- seq_shift, map_map. apply map_ext. intros i. do 2 f_equal. lia.
Qed.

Lemma backed_off_slept attempt maxRetries w :
  slept (trace (backed_off attempt maxRetries w))
  = slept (trace w) ++ (if attempt <? maxRetries then [2 ^ attempt * 100] else []).
Proof.
  unfold backed_off. destruct (attempt <? maxRetries); [|by rewrite app_nil_r].
  simpl. unfold slept. by rewrite omap_app.
Qed.

Lemma after_failed_attempt_slept agent o task attempt maxRetries w :
  slept (trace (after_failed_attempt agent o task attempt maxRetries w))
  = slept (trace w) ++ (if attempt <? maxRetries then [2 ^ attempt * 100] else []).
Proof.
  unfold after_failed_attempt.
  by rewrite backed_off_slept, logged_slept, after_process_slept.
Qed.

Lemma after_failed_attempt_called agent o task attempt maxRetries w :
  called (trace (after_failed_attempt agent o task attempt maxRetries w))
  = called (trace w) ++ [(agent, task)].
Proof.
  unfold after_failed_attempt.
  by rewrite backed_off_called, logged_called, after_process_called.
Qed.

(** Attempts that all throw: one call per attempt, a sleep of
    [2^attempt * 100] after each attempt but the last, and the last value
    thrown again at the end. *)
Lemma retry_loop_schedule agent task maxRetries e :
  forall remaining attempt lastError w,
    maxRetries = attempt + Z.of_nat remaining - 1 ->
    keeps_throwing agent task maxRetries remaining attempt w lastError e ->
    is_Some (heap w !! agent) ->
    exists w',
      retry_loop agent task maxRetries remaining attempt lastError w = (Throw e, w') /\
      called (trace w') = called (trace w) ++ replicate remaining (agent, task) /\
      slept (trace w') = slept (trace w) ++ backoff_delays attempt (remaining - 1).
Proof.
  induction remaining as [|remaining IH]; intros attempt lastError w Hmax Hruns [o0 Ho0].
  - simpl in Hruns. subst e.
    rewrite (retry_loop_exhausted _ _ _ _ _ _ _ Ho0). eexists.
    split; [reflexivity|]. simpl. by rewrite !app_nil_r.
  - destruct Hruns as (o & e1 & Ho & Hthrown & Hread & Hrest).
    rewrite (retry_loop_caught _ _ _ _ _ _ _ _ _ Ho Hthrown Hread).
    destruct (IH (attempt + 1) e1 _ ltac:(lia) Hrest) as (w' & -> & Hcalled & Hslept).
    { unfold after_failed_attempt. rewrite after_attempt_heap. by eexists. }
    exists w'. split; [reflexivity|]. split.
    + rewrite Hcalled, after_failed_attempt_called. by rewrite <- app_assoc.
    + rewrite Hslept, after_failed_attempt_slept.
      rewrite <- app_assoc. f_equal.
      destruct remaining as [|k].
      * simpl. destruct (Z.ltb_spec attempt maxRetries); [lia|done].
      * replace (S (S k) - 1)%nat with (S k) by lia.
        replace (S k - 1)%nat with k by lia.
        rewrite backoff_delays_cons.
        destruct (Z.ltb_spec attempt maxRetries); [done|lia].
Qed.


End Backoff.

(** X7. The backoff of [executeWithRetry] when every attempt throws. If
    [process] throws on each of the [n = maxRetries >= 1] attempts, as the
    execution reaches them, a value whose [message] can be read (an
    [Error], or anything but [undefined] and [null]), the agent is called
    [n] times, the sleeps are [2^1 * 100, ..., 2^(n-1) * 100] milliseconds
    in that order, one after each attempt but the last, and the call
    throws what the last attempt threw. An attempt that throws [undefined]
    or [null] ends the call at once: the [catch] block fails on
    [error.message], so there is no sleep and no further attempt, and a
    [TypeError] is thrown. *)
Theorem executeWithRetry_backoff_schedule (P : Type) (w : World P) (agent : ref)
    (task : Task.t) (maxRetries : Z) :
  1 <= maxRetries ->
  (forall e,
     keeps_throwing agent task maxRetries (Z.to_nat maxRetries) 1 w JsUndefined e ->
     exists w',
       AgentOrchestrator.executeWithRetry agent task (Some maxRetries) w = (Throw e, w') /\
       called (trace w')
       = called (trace w) ++ replicate (Z.to_nat maxRetries) (agent, task) /\
       slept (trace w')
       = slept (trace w) ++ backoff_delays 1 (Z.to_nat maxRetries - 1) /\
       length (slept (trace w'))
       = (length (slept (trace w)) + (Z.to_nat maxRetries - 1))%nat) /\
  (forall o v,
     heap w !! agent = Some o ->
     outcome (process (cls o) task (clock w) (fields o)) = ThrewValue v ->
     v = JUndefined \/ v = JNull ->
     exists w',
       AgentOrchestrator.executeWithRetry agent task (Some maxRetries) w
       = (Throw (JsTypeError (message_error v)), w') /\
       called (trace w') = called (trace w) ++ [(agent, task)] /\
       slept (trace w') = slept (trace w)).
Proof.
  intros Hmax. unfold AgentOrchestrator.executeWithRetry. simpl default. split.
  - intros e Hruns.
    destruct (Z.to_nat maxRetries) as [|n] eqn:Hn; [lia|].
    assert (Hobj : is_Some (heap w !! agent)).
    { destruct Hruns as (o & _ & Ho & _). by eexists. }
    destruct (retry_loop_schedule agent task maxRetries e (S n) 1 JsUndefined w
                ltac:(lia) Hruns Hobj) as (w' & Hrun & Hcalled & Hslept).
    exists w'. split; [done|]. split; [done|]. split; [done|].
    rewrite Hslept, length_app. unfold backoff_delays. by rewrite length_map, length_seq.
  - intros o v Ho Hout Hv.
    destruct (Z.to_nat maxRetries) as [|n] eqn:Hn; [lia|].
    rewrite (retry_loop_unreadable agent o task maxRetries n 1 JsUndefined w
               (JsValue v) (JsTypeError (message_error v)) Ho).
    + eexists. split; [reflexivity|].
      split; [apply after_process_called|apply after_process_slept].
    + by rewrite Hout.
    + apply unreadable_value. by split.
Qed.

(** An agent that plays "first", "second" and would then answer, with two
    attempts allowed: two calls, one sleep of 200 ms, and the second error
    is thrown. *)
Lemma executeWithRetry_backoff_schedule_witness :
  exists w',
    AgentOrchestrator.executeWithRetry 0%nat Examples.task_v1 (Some 2) Examples.flaky
    = (Throw (JsError "second"), w') /\
    length (called (trace w')) = 2%nat /\
    slept (trace w') = [200].
Proof.
  destruct (executeWithRetry_backoff_schedule (list Outcome) Examples.flaky 0%nat
              Examples.task_v1 2) as [Hthrows _]; [lia|].
  destruct (Hthrows (JsError "second")) as (w' & Hrun & Hcalled & Hslept & _).
  - simpl. eexists _, _. split; [vm_compute; reflexivity|]. split; [reflexivity|].
    split; [reflexivity|].
    eexists _, _. split; [vm_compute; reflexivity|]. split; [reflexivity|].
    split; [reflexivity|]. reflexivity.
  - exists w'. split; [exact Hrun|]. rewrite Hcalled, Hslept. split; reflexivity.
Defined.



(** ** [executeWorkflow]: unknown agents, the calls it makes *)

Section Calls.
Context {P : Type}.
Implicit Types (w : World P) (task : Task.t) (workflow : Workflow.t).

Import AgentOrchestrator.

Lemma thread_data_type (r : AgentResult.t) task :
  Task.type (thread_data r task) = Task.type task.
Proof. unfold thread_data. by destruct (truthy (AgentResult.data r)). Qed.

Lemma attempt_budget_nonneg steps : 0 <= attempt_budget steps.
Proof. induction steps as [|s steps IH]; simpl; lia. Qed.

(** The calls of the step loop: all for the task's type, and no more than
    the steps' attempts allow, plus one for an escalation. *)
Lemma for_steps_calls workflow steps task results w c w' :
  for_steps workflow steps task results w = (c, w') ->
  exists added,
    called (trace w') = called (trace w) ++ added /\
    Forall (call_for task) added /\
    Z.of_nat (length added) <= attempt_budget steps + 1 /\
    (forall t rs, c = Normal (Fallthrough t rs) ->
                  Z.of_nat (length added) <= attempt_budget steps).
Proof.
  revert task results w. induction steps as [|step rest IH]; intros task results w.
  - intros [= <- <-]. exists []. rewrite app_nil_r. simpl.
    split; [done|]. split; [constructor|]. split; [lia|]. intros; lia.
  - rewrite for_steps_cons.
    destruct (invoke_step step task w) as [[r|e] w1] eqn:Hstep;
      apply invoke_step_frame in Hstep as [_ (agent & n & Hn & Hcalled)].
    + simpl. destruct (negb (AgentResult.success r) && Step.escalateOnFailure step).
      * destruct (handleEscalation_settles workflow step r
                    (results ++ [mkEntry (Step.name step) (Step.agentName step) r])
                    (logged warn ("Step failed, escalating: "
                                  +:+ template_opt (Step.name step)) w1))
          as (c0 & w2 & -> & _ & Hesc & _).
        intros [= <- <-]. rewrite logged_called in Hesc.
        pose proof (attempt_budget_nonneg rest).
        destruct Hesc as [Hesc|[handler Hesc]]; rewrite Hesc, Hcalled.
        -- exists (replicate n (agent, Task.with_step (Step.name step) (Step.config step)
                                    task)).
           split; [done|]. split; [apply Forall_replicate; by left|].
           rewrite length_replicate. split; [lia|done].
        -- eexists. rewrite <- app_assoc. split; [reflexivity|]. split.
           ++ apply Forall_app. split; [apply Forall_replicate; by left|].
              apply Forall_singleton. by right.
           ++ rewrite length_app, length_replicate. simpl. split; [lia|done].
      * intros Hrest. apply IH in Hrest as (added & Hadded & Hfor & Hlen & Hfall).
        exists (replicate n (agent, Task.with_step (Step.name step) (Step.config step) task)
                ++ added).
        rewrite Hadded, Hcalled, <- app_assoc. split; [done|]. split.
        -- apply Forall_app. split; [apply Forall_replicate; by left|].
           eapply Forall_impl; [exact Hfor|]. intros ct. unfold call_for.
           by rewrite thread_data_type.
        -- rewrite length_app, length_replicate. split; [lia|].
           intros t rs Hc. specialize (Hfall t rs Hc). lia.
    + intros [= <- <-]. pose proof (attempt_budget_nonneg rest).
      exists (replicate n (agent, Task.with_step (Step.name step) (Step.config step) task)).
      split; [done|]. split; [apply Forall_replicate; by left|].
      rewrite length_replicate. simpl attempt_budget. split; [lia|done].
Qed.

End Calls.

(** X9. A step that names an agent nobody registered ends the whole
    execution with "Agent not found: <name>", whatever its
    [escalateOnFailure] says: no entry, no escalation, no later step. The
    steps before it have run and what they did to their agents stays; the
    counter is back where it was. *)
Theorem unknown_agent_aborts_workflow (P : Type) (w : World P) (workflowName : string)
    (workflow : Workflow.t) (task : Task.t) (pre post : list Step.t) (s : Step.t)
    (t : Task.t) (rs : list ResultEntry) (w1 : World P) :
  workflows w !! workflowName = Some workflow ->
  activeTasksCount w < maxConcurrentTasks w ->
  Workflow.steps workflow = pre ++ s :: post ->
  AgentOrchestrator.for_steps workflow pre task [] (entered workflowName w)
  = (Normal (AgentOrchestrator.Fallthrough t rs), w1) ->
  agents w !! Step.agentName s = None ->
  exists w',
    AgentOrchestrator.executeWorkflow workflowName task w
    = (Throw (JsError ("Agent not found: " +:+ Step.agentName s)), w') /\
    activeTasksCount w' = activeTasksCount w /\
    heap w' = heap w1 /\
    called (trace w') = called (trace w1).
Proof.
  intros Hwf Hfree Hsteps Hpre Hreg.
  rewrite (executeWorkflow_admitted _ _ task _ Hwf Hfree).
  rewrite attempt_workflow_run, Hsteps, for_steps_app, Hpre, for_steps_cons.
  pose proof (for_steps_frame _ _ _ _ _ _ _ Hpre) as (_ & Hag & _ & Hcount & _).
  assert (Hreg1 : agents w1 !! Step.agentName s = None).
  { rewrite Hag. unfold entered, logged. by destruct (logger w). }
  rewrite (invoke_step_unregistered _ _ _ Hreg1).
  eexists. split; [reflexivity|]. simpl.
  assert (Hlog : forall m, activeTasksCount (logged error m w1) = activeTasksCount w1)
    by (intros; apply logged_same).
  rewrite Hlog, Hcount, entered_count, logged_heap, logged_called.
  split; [lia|done].
Qed.

(** The second step names an agent that is not registered. *)
Lemma unknown_agent_aborts_workflow_witness :
  exists w',
    AgentOrchestrator.executeWorkflow "wf" Examples.task_v1 Examples.missing_agent
    = (Throw (JsError "Agent not found: Nobody"), w') /\
    length (called (trace w')) = 1%nat.
Proof.
  destruct (unknown_agent_aborts_workflow (list Outcome) Examples.missing_agent "wf"
              (Workflow.mk (Some "wf") [Examples.step_A; Examples.step_nobody] (Some "H"))
              Examples.task_v1 [Examples.step_A] [] Examples.step_nobody
              (Task.with_data (JObj [("v", JNum 2)]) Examples.task_v1)
              [mkEntry None "A" Examples.result_v2]
              (snd (AgentOrchestrator.for_steps
                      (Workflow.mk (Some "wf") [Examples.step_A; Examples.step_nobody]
                         (Some "H"))
                      [Examples.step_A] Examples.task_v1 []
                      (entered "wf" Examples.missing_agent))))
    as (w' & Hrun & _ & _ & Hcalled).
  - vm_compute. reflexivity.
  - vm_compute. reflexivity.
  - reflexivity.
  - vm_compute. reflexivity.
  - vm_compute. reflexivity.
  - exists w'. split; [exact Hrun|]. rewrite Hcalled. vm_compute. reflexivity.
Defined.

(** X10. Every [process] call that [executeWorkflow] makes is either a
    step's, and then carries the [type] of the task the workflow was given
    (results replace [data], never [type]), or the escalation handler's, on
    a task of type ['escalation']. There are at most as many calls as the
    steps' retry counts add up to, plus one for an escalation; a call that
    is refused (unknown workflow, limit reached) makes none. *)
Theorem executeWorkflow_calls (P : Type) (w w' : World P) (workflowName : string)
    (task : Task.t) (c : Completion WorkflowResult) :
  AgentOrchestrator.executeWorkflow workflowName task w = (c, w') ->
  exists added,
    called (trace w') = called (trace w) ++ added /\
    Forall (call_for task) added /\
    match workflows w !! workflowName with
    | None => added = []
    | Some workflow =>
        if maxConcurrentTasks w <=? activeTasksCount w then added = []
        else Z.of_nat (length added) <= attempt_budget (Workflow.steps workflow) + 1
    end.
Proof.
  destruct (workflows w !! workflowName) as [workflow|] eqn:Hwf.
  - destruct (Z.leb_spec (maxConcurrentTasks w) (activeTasksCount w)) as [Hfull|Hfree].
    + rewrite (executeWorkflow_full _ _ _ _ Hwf Hfull). intros [= <- <-].
      exists []. rewrite logged_called, app_nil_r. by repeat split.
    + rewrite (executeWorkflow_admitted _ _ _ _ Hwf Hfree), attempt_workflow_run.
      assert (Hstart : called (trace (entered workflowName w)) = called (trace w)).
      { unfold entered. simpl. apply logged_called. }
      destruct (AgentOrchestrator.for_steps workflow (Workflow.steps workflow) task []
                  (entered workflowName w)) as [[[t rs|r]|e] w1] eqn:Hloop;
        apply for_steps_calls in Hloop as (added & Hcalled & Hfor & Hlen & _);
        rewrite Hstart in Hcalled.
      * intros [= <- <-]. exists added. simpl. by rewrite logged_called.
      * intros [= <- <-]. by exists added.
      * destruct (unreadable e); intros [= <- <-]; exists added; simpl;
          by rewrite ?logged_called.
  - rewrite (executeWorkflow_unknown _ _ _ Hwf). intros [= <- <-].
    exists []. by rewrite app_nil_r.
Qed.

(** The escalating example: A's call and the handler's, out of 3 + 1. *)
Lemma executeWorkflow_calls_witness :
  exists added,
    called (trace (snd (AgentOrchestrator.executeWorkflow "wf" Examples.task_v1
                          (Examples.failing Examples.step_A_escalating))))
    = added /\
    Forall (call_for Examples.task_v1) added.
Proof.
  destruct (executeWorkflow_calls (list Outcome)
              (Examples.failing Examples.step_A_escalating)
              (snd (AgentOrchestrator.executeWorkflow "wf" Examples.task_v1
                      (Examples.failing Examples.step_A_escalating)))
              "wf" Examples.task_v1
              (fst (AgentOrchestrator.executeWorkflow "wf" Examples.task_v1
                      (Examples.failing Examples.step_A_escalating))))
    as (added & Hcalled & Hfor & _).
  - apply surjective_pairing.
  - exists added. split; [exact Hcalled|exact Hfor].
Defined.

(** ** Workflows over [BaseAgent] subclasses *)

Section SubclassWorkflows.
Context {P : Type}.
Implicit Types (w : World P) (task : Task.t) (workflow : Workflow.t) (step : Step.t).

Import AgentOrchestrator.

Lemma validateTask_with_step n c task :
  BaseAgent.validateTask (Task.with_step n c task) = BaseAgent.validateTask task.
Proof. done. Qed.

(** A valid task stays valid when a result's data is threaded into it. *)
Lemma validateTask_thread_data (r : AgentResult.t) task :
  BaseAgent.validateTask task = None ->
  BaseAgent.validateTask (thread_data r task) = None.
Proof.
  unfold thread_data, BaseAgent.validateTask. simpl.
  destruct (truthy (AgentResult.data r)) eqn:Hdata; [|done]. simpl.
  destruct (truthy (Task.type task)); [|done]. simpl. by rewrite Hdata.
Qed.

(** A task whose type no case matches: the subclass answers with a failure
    that says so. *)
Lemma subclass_process_no_case busy handlers task now (a : Agent.t P) :
  BaseAgent.validateTask task = None ->
  case_for handlers task = None ->
  exists r,
    outcome (BaseAgent.subclass_process busy handlers task now a) = Returned r /\
    AgentResult.success r = false /\
    AgentResult.error r = Some ("Unknown task type: " +:+ template (Task.type task)) /\
    Agent.state (after (BaseAgent.subclass_process busy handlers task now a)) = "error".
Proof.
  intros Hv Hcase. unfold BaseAgent.subclass_process. rewrite Hv. simpl.
  unfold case_for in Hcase. rewrite Hcase. simpl. by eexists.
Qed.

(** One step in front of a registered [BaseAgent] subclass, on a valid
    task: one call, no sleep, a result. *)
Lemma invoke_step_subclass step task w busy handlers :
  registered_class w (Step.agentName step) = Some (BaseAgent.subclass busy handlers) ->
  BaseAgent.validateTask task = None ->
  1 <= retries_or_1 step ->
  exists agent r w',
    agents w !! Step.agentName step = Some agent /\
    invoke_step step task w = (Normal r, w') /\
    slept (trace w') = slept (trace w) /\
    called (trace w')
    = called (trace w)
      ++ [(agent, Task.with_step (Step.name step) (Step.config step) task)] /\
    (case_for handlers task = None -> AgentResult.success r = false).
Proof.
  intros Hclass Hv Hmin. unfold registered_class in Hclass.
  destruct (agents w !! Step.agentName step) as [agent|] eqn:Hreg; [|done].
  destruct (heap w !! agent) as [o|] eqn:Ho; [|done].
  simpl in Hclass. injection Hclass as Hc.
  set (task' := Task.with_step (Step.name step) (Step.config step) task).
  set (w0 := logged info ("Executing step: " +:+ template_opt (Step.name step)
                          +:+ " with agent: " +:+ Step.agentName step) w).
  assert (Ho0 : heap w0 !! agent = Some o) by (unfold w0; by rewrite logged_heap).
  destruct (subclass_process_valid busy handlers task' (clock w0) (fields o))
    as (r & Hr & _); [done|].
  assert (Hret : outcome (process (cls o) task' (clock w0) (fields o)) = Returned r)
    by (by rewrite Hc).
  exists agent, r. eexists. split; [done|].
  rewrite (invoke_step_registered _ _ _ _ Hreg). unfold executeWithRetry. simpl default.
  destruct (Z.to_nat (retries_or_1 step)) as [|remaining] eqn:Hn; [lia|].
  fold task' w0. rewrite (retry_loop_returned _ _ _ _ _ _ _ _ _ Ho0 Hret).
  split; [reflexivity|].
  change (trace (after_updateMetrics _ _ _ _ ?v)) with (trace v).
  rewrite after_process_slept, after_process_called. unfold w0.
  rewrite logged_slept, logged_called. split; [done|]. split; [done|].
  intros Hcase.
  destruct (subclass_process_no_case busy handlers task' (clock w0) (fields o))
    as (r' & Hr' & Hfail & _); [done|done|].
  rewrite Hr in Hr'. by injection Hr' as <-.
Qed.

Lemma subclass_steps_agents w w' steps :
  agents w' = agents w -> same_classes w w' ->
  subclass_steps w steps -> subclass_steps w' steps.
Proof.
  intros Hag Hcls. unfold subclass_steps. intros Hsub.
  eapply Forall_impl; [exact Hsub|].
  intros s [Hmin (busy & handlers & Hclass)]. split; [done|].
  exists busy, handlers. by rewrite (registered_class_same w w' _ Hag Hcls).
Qed.

Lemma subclass_steps_same w w' steps :
  same_orchestrator w w' -> same_classes w w' ->
  subclass_steps w steps -> subclass_steps w' steps.
Proof. intros (_ & Hag & _). by apply subclass_steps_agents. Qed.

Lemma entered_agents workflowName w : agents (entered workflowName w) = agents w.
Proof. unfold entered, logged. by destruct (logger w). Qed.

Lemma entered_classes workflowName w : same_classes w (entered workflowName w).
Proof. apply same_classes_heap. unfold entered. simpl. apply logged_heap. Qed.

Lemma subclass_handler_same w w' workflow :
  agents w' = agents w -> same_classes w w' ->
  subclass_handler w workflow -> subclass_handler w' workflow.
Proof.
  intros Hag Hcls Hsub handler o Hh Ho.
  unfold escalation_handler in *. rewrite Hag in Hh.
  pose proof (Hcls handler) as Hc. rewrite Ho in Hc. simpl in Hc.
  destruct (heap w !! handler) as [o0|] eqn:Ho0; [|done].
  injection Hc as Hc. rewrite Hc. by apply (Hsub handler o0).
Qed.

(** An escalation handler that is a [BaseAgent] subclass answers the
    escalation task, so [handleEscalation] returns. *)
Lemma handleEscalation_subclass workflow (failedStep : Step.t) err previousResults w :
  subclass_handler w workflow ->
  exists res w',
    handleEscalation workflow failedStep err previousResults w = (Normal res, w').
Proof.
  intros Hsub.
  destruct (handleEscalation_settles workflow failedStep err previousResults w)
    as (c & w' & Hrun & _ & _ & Hc).
  destruct c as [res|e]; [by exists res, w'|].
  destruct Hc as (handler & o & v & Hh & Ho & Hout & _).
  destruct (Hsub handler o Hh Ho) as (busy & handlers & Hcls).
  rewrite Hcls in Hout. simpl in Hout.
  destruct (subclass_process_valid busy handlers
              (escalation_task workflow failedStep err previousResults)
              (clock w) (fields o)) as (r & Hr & _); [done|].
  congruence.
Qed.


End SubclassWorkflows.

Section SubclassWorkflows2.
Context {P : Type}.
Implicit Types (w : World P) (task : Task.t) (workflow : Workflow.t) (step : Step.t).

Import AgentOrchestrator.

Lemma case_for_thread_data handlers (r : AgentResult.t) task :
  case_for (P:=P) handlers (thread_data r task) = case_for handlers task.
Proof. unfold case_for. by rewrite thread_data_type. Qed.

(** A failed step with the flag set ends the loop by an escalation, which
    returns an object when the handler is a [BaseAgent] subclass. *)
Lemma for_steps_escalates workflow step rest task results w r w1 :
  invoke_step step task w = (Normal r, w1) ->
  negb (AgentResult.success r) && Step.escalateOnFailure step = true ->
  subclass_handler w workflow ->
  same_classes w w1 ->
  exists res w',
    for_steps workflow (step :: rest) task results w = (Normal (Return (Normal res)), w') /\
    wr_success res = false /\ wr_escalated res = true.
Proof.
  intros Hstep Hesc Hhandler Hcls. rewrite for_steps_cons, Hstep. simpl. rewrite Hesc.
  pose proof (invoke_step_frame _ _ _ _ _ Hstep) as [Hsame _].
  set (w3 := logged warn ("Step failed, escalating: "
                          +:+ template_opt (Step.name step)) w1).
  set (entries := results ++ [mkEntry (Step.name step) (Step.agentName step) r]).
  assert (Hhandler3 : subclass_handler w3 workflow).
  { apply (subclass_handler_same w); [| |done].
    - transitivity (agents w1); [apply logged_same|apply Hsame].
    - eapply same_classes_trans; [exact Hcls|].
      apply same_classes_heap. apply logged_heap. }
  destruct (handleEscalation_settles workflow step r entries w3)
    as (c & w4 & Hrun & _ & _ & Hc).
  destruct (handleEscalation_subclass workflow step r entries w3 Hhandler3)
    as (res & w5 & Hrun5).
  rewrite Hrun in Hrun5. injection Hrun5 as -> ->.
  rewrite Hrun. exists res, w5. split; [done|]. by destruct Hc as (? & ? & _).
Qed.

(** With such a step among them, the steps end in an escalation. *)
Lemma for_steps_no_case workflow steps task results w :
  subclass_steps w steps ->
  subclass_handler w workflow ->
  BaseAgent.validateTask task = None ->
  Exists (no_case_step w task) steps ->
  exists res w',
    for_steps workflow steps task results w = (Normal (Return (Normal res)), w') /\
    wr_success res = false /\ wr_escalated res = true.
Proof.
  revert task results w.
  induction steps as [|step rest IH]; intros task results w Hsub Hhandler Hv Hex.
  - by apply Exists_nil in Hex.
  - apply Forall_cons in Hsub as [[Hmin (busy & handlers & Hclass)] Hrest].
    apply Exists_cons in Hex as [Hhead|Htail].
    + destruct Hhead as (Hflag & busy' & handlers' & Hclass' & Hcase).
      destruct (invoke_step_subclass step task w busy' handlers' Hclass' Hv Hmin)
        as (agent & r & w1 & _ & Hstep & _ & _ & Hfail).
      apply (for_steps_escalates _ _ _ _ _ _ _ _ Hstep); [|done|].
      * by rewrite (Hfail Hcase), Hflag.
      * by apply invoke_step_classes in Hstep.
    + destruct (invoke_step_subclass step task w busy handlers Hclass Hv Hmin)
        as (agent & r & w1 & _ & Hstep & _).
      pose proof (invoke_step_frame _ _ _ _ _ Hstep) as [Hsame _].
      pose proof (invoke_step_classes _ _ _ _ _ Hstep) as Hcls.
      destruct (negb (AgentResult.success r) && Step.escalateOnFailure step) eqn:Hesc;
        [by apply (for_steps_escalates _ _ _ _ _ _ _ _ Hstep)|].
      rewrite for_steps_cons, Hstep. simpl. rewrite Hesc.
      apply IH.
      * by apply (subclass_steps_same w).
      * apply (subclass_handler_same w); [apply Hsame|done..].
      * by apply validateTask_thread_data.
      * eapply Exists_impl; [exact Htail|].
        intros s (Hflag & busy' & handlers' & Hclass' & Hcase). split; [done|].
        exists busy', handlers'. rewrite case_for_thread_data. split; [|done].
        destruct Hsame as (_ & Hag & _).
        by rewrite (registered_class_same w w1 _ Hag Hcls).
Qed.


(** An invalid task in front of a [BaseAgent] subclass: the step throws the
    validation error once its attempts are used up. *)
Lemma invoke_step_invalid step task w busy handlers msg :
  registered_class w (Step.agentName step) = Some (BaseAgent.subclass busy handlers) ->
  BaseAgent.validateTask task = Some msg ->
  1 <= retries_or_1 step ->
  exists w', invoke_step step task w = (Throw (JsError msg), w').
Proof.
  intros Hclass Hv Hmin. unfold registered_class in Hclass.
  destruct (agents w !! Step.agentName step) as [agent|] eqn:Hreg; [|done].
  destruct (heap w !! agent) as [o|] eqn:Ho; [|done].
  simpl in Hclass. injection Hclass as Hc.
  rewrite (invoke_step_registered _ _ _ _ Hreg). unfold executeWithRetry. simpl default.
  set (w0 := logged _ _ w).
  assert (Ho0 : heap w0 !! agent = Some o) by (unfold w0; by rewrite logged_heap).
  destruct (retry_loop_invalid_task busy handlers agent
              (Task.with_step (Step.name step) (Step.config step) task)
              (retries_or_1 step) msg Hv (Z.to_nat (retries_or_1 step)) 1 JsUndefined
              w0 o Ho0 Hc) as (w' & Hrun & _).
  destruct (Z.to_nat (retries_or_1 step)) as [|remaining] eqn:Hn; [lia|].
  by exists w'.
Qed.

End SubclassWorkflows2.





(** ** The server's agents and workflows *)

Section ServerFacts.
Context {P : Type}.
Implicit Types (w : World P) (task : Task.t).

Import AgentOrchestrator.

Lemma switch_none {A : Type} (f : string -> A) (labels : list string) (x : string) :
  switch (map (fun ty => (ty, f ty)) labels) x = None <-> x ∉ labels.
Proof.
  induction labels as [|l labels IH]; simpl.
  - split; [intros _; apply not_elem_of_nil|done].
  - destruct (String.eqb_spec x l) as [->|Hne].
    + split; [done|]. intros Hnot. exfalso. apply Hnot. apply elem_of_cons. by left.
    + rewrite IH, not_elem_of_cons. split; [by intros ?|by intros [_ ?]].
Qed.

(** Two agents with no task type in common: no task has a case in both. *)
Lemma case_for_disjoint (f g : string -> @BaseAgent.Handler P) (l1 l2 : list string) task :
  (forall x, x ∈ l1 -> x ∉ l2) ->
  case_for (switch (map (fun ty => (ty, f ty)) l1)) task = None \/
  case_for (switch (map (fun ty => (ty, g ty)) l2)) task = None.
Proof.
  intros Hdisj. unfold case_for. destruct (Task.type task) as [| | | |ty| |]; auto.
  destruct (decide (ty ∈ l1)) as [Hin|Hnot].
  - right. apply switch_none. by apply Hdisj.
  - left. by apply switch_none.
Qed.

Lemma verification_anomaly_disjoint :
  forall x, x ∈ VerificationAgent.task_types -> x ∉ AnomalyDetectionAgent.task_types.
Proof.
  intros x Hin. unfold VerificationAgent.task_types in Hin.
  repeat (apply elem_of_cons in Hin as [->|Hin];
          [apply (bool_decide_unpack _); by vm_compute|]).
  by apply elem_of_nil in Hin.
Qed.

Lemma verification_auditor_disjoint :
  forall x, x ∈ VerificationAgent.task_types -> x ∉ PerformanceAuditor.task_types.
Proof.
  intros x Hin. unfold VerificationAgent.task_types in Hin.
  repeat (apply elem_of_cons in Hin as [->|Hin];
          [apply (bool_decide_unpack _); by vm_compute|]).
  by apply elem_of_nil in Hin.
Qed.

(** A valid task and a step without a case for it, with a [BaseAgent]
    subclass as the escalation handler: the call escalates. *)
Lemma executeWorkflow_no_case workflowName (workflow : Workflow.t) task w :
  workflows w !! workflowName = Some workflow ->
  activeTasksCount w < maxConcurrentTasks w ->
  subclass_steps w (Workflow.steps workflow) ->
  subclass_handler w workflow ->
  BaseAgent.validateTask task = None ->
  Exists (no_case_step w task) (Workflow.steps workflow) ->
  exists res w',
    executeWorkflow workflowName task w = (Normal res, w') /\
    wr_success res = false /\ wr_escalated res = true.
Proof.
  intros Hwf Hfree Hsub Hhandler Hv Hex.
  rewrite (executeWorkflow_admitted _ _ task _ Hwf Hfree), attempt_workflow_run.
  destruct (for_steps_no_case workflow (Workflow.steps workflow) task []
              (entered workflowName w)) as (res & w1 & -> & Hsucc & Hesc).
  - by apply (subclass_steps_agents w); [apply entered_agents|apply entered_classes|].
  - by apply (subclass_handler_same w); [apply entered_agents|apply entered_classes|].
  - done.
  - eapply Exists_impl; [exact Hex|].
    intros s (Hflag & busy & handlers & Hclass & Hcase). split; [done|].
    exists busy, handlers. split; [|done].
    by rewrite (registered_class_same w); [|apply entered_agents|apply entered_classes].
  - by eexists _, _.
Qed.

(** An invalid task and a first step in front of a subclass: the call
    throws the validation error. *)
Lemma executeWorkflow_invalid workflowName (workflow : Workflow.t) task w s rest
    busy handlers msg :
  workflows w !! workflowName = Some workflow ->
  activeTasksCount w < maxConcurrentTasks w ->
  Workflow.steps workflow = s :: rest ->
  registered_class w (Step.agentName s) = Some (BaseAgent.subclass busy handlers) ->
  1 <= retries_or_1 s ->
  BaseAgent.validateTask task = Some msg ->
  exists w', executeWorkflow workflowName task w = (Throw (JsError msg), w').
Proof.
  intros Hwf Hfree Hsteps Hclass Hmin Hv.
  rewrite (executeWorkflow_admitted _ _ task _ Hwf Hfree), attempt_workflow_run.
  rewrite Hsteps, for_steps_cons.
  destruct (invoke_step_invalid s task (entered workflowName w) busy handlers msg)
    as (w1 & ->); [|done|done|by eexists].
  by rewrite (registered_class_same w); [|apply entered_agents|apply entered_classes].
Qed.

End ServerFacts.

Lemma started_configured (P : Type) (impl : string -> string -> @BaseAgent.Handler P)
    (init : string -> P) (clock : Z) :
  configured impl (Server.started impl init clock).
Proof. unfold configured. repeat split; by vm_compute. Qed.

(** X13. The setup of [server.js] goes through: the seven agents have
    distinct names, so no [registerAgent] throws, and afterwards the seven
    names are registered to objects of their classes, the three workflows
    are in the table, and no execution is in flight under a limit of 10. *)
Theorem server_startup (P : Type) (impl : string -> string -> @BaseAgent.Handler P)
    (init : string -> P) (clock : Z) :
  Server.startup (AgentOrchestrator.create (Server.objects impl init) true clock)
  = (Normal tt, Server.started impl init clock) /\
  configured impl (Server.started impl init clock) /\
  size (agents (Server.started impl init clock)) = 7%nat /\
  size (workflows (Server.started impl init clock)) = 3%nat /\
  activeTasksCount (Server.started impl init clock) = 0 /\
  maxConcurrentTasks (Server.started impl init clock) = 10.
Proof.
  split; [by vm_compute|]. split; [apply started_configured|by vm_compute].
Qed.

Section ServerWorkflows.
Context {P : Type}.
Variable impl : string -> string -> @BaseAgent.Handler P.
Implicit Types (w : World P) (task : Task.t).

Lemma configured_complete_solution w :
  configured impl w -> subclass_steps w (Workflow.steps Server.complete_solution).
Proof.
  intros (Hr & Hi & Hv & Hm & Hp & Ha & Hu & _).
  repeat constructor; try (by vm_compute); eexists _, _;
    first [exact Hr|exact Hi|exact Hv|exact Hm|exact Hp|exact Ha|exact Hu].
Qed.

Lemma configured_quality_assurance w :
  configured impl w -> subclass_steps w (Workflow.steps Server.quality_assurance).
Proof.
  intros (Hr & Hi & Hv & Hm & Hp & Ha & Hu & _).
  repeat constructor; try (by vm_compute); eexists _, _;
    first [exact Hr|exact Hi|exact Hv|exact Hm|exact Hp|exact Ha|exact Hu].
Qed.

(** The workflows of the server name ['UserInteractionAgent'] as their
    escalation handler, a [BaseAgent] subclass. *)
Lemma configured_handler w (workflow : Workflow.t) :
  configured impl w ->
  Workflow.escalationHandler workflow = Some "UserInteractionAgent" ->
  subclass_handler w workflow.
Proof.
  intros (_ & _ & _ & _ & _ & _ & Hu & _) Hname handler o Hh Ho.
  unfold escalation_handler in Hh. rewrite Hname in Hh. simpl in Hh.
  unfold registered_class in Hu. rewrite Hh in Hu. simpl in Hu. rewrite Ho in Hu.
  injection Hu as ->. by eexists _, _.
Qed.

(** Whatever the task's type, one of the escalating steps of
    'complete-solution' has no case for it. *)
Lemma complete_solution_no_case w task :
  configured impl w ->
  Exists (no_case_step w task) (Workflow.steps Server.complete_solution).
Proof.
  intros (_ & _ & Hv & _ & _ & Ha & _).
  destruct (case_for_disjoint (impl "VerificationAgent") (impl "AnomalyDetectionAgent")
              VerificationAgent.task_types AnomalyDetectionAgent.task_types task
              verification_anomaly_disjoint) as [Hcase|Hcase].
  - do 2 apply Exists_cons_tl. apply Exists_cons_hd. split; [done|].
    eexists _, _. split; [exact Hv|exact Hcase].
  - do 6 apply Exists_cons_tl. apply Exists_cons_hd. split; [done|].
    eexists _, _. split; [exact Ha|exact Hcase].
Qed.

Lemma quality_assurance_no_case w task :
  configured impl w ->
  Exists (no_case_step w task) (Workflow.steps Server.quality_assurance).
Proof.
  intros (_ & _ & Hv & _ & Hp & _).
  destruct (case_for_disjoint (impl "VerificationAgent") (impl "PerformanceAuditor")
              VerificationAgent.task_types PerformanceAuditor.task_types task
              verification_auditor_disjoint) as [Hcase|Hcase].
  - apply Exists_cons_tl. apply Exists_cons_hd. split; [done|].
    eexists _, _. split; [exact Hv|exact Hcase].
  - do 5 apply Exists_cons_tl. apply Exists_cons_hd. split; [done|].
    eexists _, _. split; [exact Hp|exact Hcase].
Qed.

End ServerWorkflows.

(** X14. On the server as [server.js] sets it up, the workflows
    'complete-solution' and 'quality-assurance' never return
    [success: true], whatever the task and whatever the agents' handlers do.
    The task's [type] is the same at every step, and in each of the two
    workflows two steps with [escalateOnFailure] set go to agents with no
    task type in common; so a task that passes validation always ends in an
    escalation, and one that does not makes the call throw the validation
    error. *)
Theorem server_workflows_never_succeed (P : Type)
    (impl : string -> string -> @BaseAgent.Handler P) (w : World P)
    (workflowName : string) (task : Task.t) :
  configured impl w ->
  activeTasksCount w < maxConcurrentTasks w ->
  workflowName = "complete-solution" \/ workflowName = "quality-assurance" ->
  match BaseAgent.validateTask task with
  | None =>
      exists res w',
        AgentOrchestrator.executeWorkflow workflowName task w = (Normal res, w') /\
        wr_success res = false /\ wr_escalated res = true
  | Some msg =>
      exists w',
        AgentOrchestrator.executeWorkflow workflowName task w = (Throw (JsError msg), w')
  end.
Proof.
  intros Hconf Hfree Hname.
  pose proof Hconf as (Hr & _ & Hv & _ & _ & _ & _ & Hcs & _ & Hqa).
  destruct (BaseAgent.validateTask task) as [msg|] eqn:Hvalid.
  - destruct Hname as [-> | ->].
    + eapply (executeWorkflow_invalid _ Server.complete_solution);
        [exact Hcs|exact Hfree|reflexivity|exact Hr|by vm_compute|exact Hvalid].
    + eapply (executeWorkflow_invalid _ Server.quality_assurance);
        [exact Hqa|exact Hfree|reflexivity|exact Hv|by vm_compute|exact Hvalid].
  - destruct Hname as [-> | ->].
    + apply (executeWorkflow_no_case _ Server.complete_solution); try done.
      * by apply (configured_complete_solution impl).
      * by apply (configured_handler impl).
      * by apply (complete_solution_no_case impl).
    + apply (executeWorkflow_no_case _ Server.quality_assurance); try done.
      * by apply (configured_quality_assurance impl).
      * by apply (configured_handler impl).
      * by apply (quality_assurance_no_case impl).
Qed.

(** A 'verify-design' task: the two verification steps succeed, and the
    last step, at the anomaly detector, escalates. *)
Lemma server_workflows_never_succeed_witness :
  exists res w',
    AgentOrchestrator.executeWorkflow "complete-solution" ServerExample.task
      ServerExample.world = (Normal res, w') /\
    wr_success res = false /\ wr_escalated res = true.
Proof.
  exact (server_workflows_never_succeed unit ServerExample.impl ServerExample.world
           "complete-solution" ServerExample.task
           (started_configured unit ServerExample.impl (fun _ => tt) 0)
           ltac:(by vm_compute) (or_introl eq_refl)).
Defined.

(** The same call, seen from the configuration. *)
Lemma executeWorkflow_keeps_configuration_witness :
  configured ServerExample.impl
    (snd (AgentOrchestrator.executeWorkflow "complete-solution" ServerExample.task
            ServerExample.world)).
Proof.
  destruct (executeWorkflow_keeps_configuration unit ServerExample.world
              (snd (AgentOrchestrator.executeWorkflow "complete-solution"
                      ServerExample.task ServerExample.world))
              "complete-solution" ServerExample.task
              (fst (AgentOrchestrator.executeWorkflow "complete-solution"
                      ServerExample.task ServerExample.world)))
    as (_ & _ & _ & Hconf).
  - apply surjective_pairing.
  - apply Hconf.
    exact (started_configured unit ServerExample.impl (fun _ => tt) 0).
Defined.

Section EscalationHandler.
Context {P : Type}.
Implicit Types (w : World P) (workflow : Workflow.t).

Import AgentOrchestrator.

(** A handler that is a [BaseAgent] subclass with no case for task type
    ['escalation']: it answers the escalation with a failure. *)
Lemma handleEscalation_no_case workflow (failedStep : Step.t) err previousResults w
    handlerName busy handlers :
  Workflow.escalationHandler workflow = Some handlerName ->
  handlerName <> EmptyString ->
  registered_class w handlerName = Some (BaseAgent.subclass busy handlers) ->
  handlers "escalation" = None ->
  exists r w',
    handleEscalation workflow failedStep err previousResults w
    = (Normal (EscalationHandled r previousResults), w') /\
    AgentResult.success r = false /\
    AgentResult.error r = Some "Unknown task type: escalation" /\
    called (trace w')
    = called (trace w)
      ++ [(default 0%nat (agents w !! handlerName),
           escalation_task workflow failedStep err previousResults)].
Proof.
  intros Hname Hne Hclass Hcase. unfold registered_class in Hclass.
  destruct (agents w !! handlerName) as [handler|] eqn:Hreg; [|done].
  destruct (heap w !! handler) as [o|] eqn:Ho; [|done].
  simpl in Hclass. injection Hclass as Hc.
  assert (Hh : escalation_handler workflow w = Some handler).
  { unfold escalation_handler. rewrite Hname. simpl.
    destruct (String.eqb_spec handlerName EmptyString); [done|]. simpl. exact Hreg. }
  rewrite (handleEscalation_handler _ _ _ _ _ _ _ Hh Ho). rewrite Hc. simpl process.
  set (task := escalation_task workflow failedStep err previousResults).
  set (w1 := logged info "Handling escalation" w).
  destruct (subclass_process_no_case busy handlers task (clock w1) (fields o))
    as (r & Hr & Hfail & Herr & _); [done|done|].
  rewrite Hr. exists r. eexists. split; [reflexivity|]. split; [done|]. split; [done|].
  simpl default. unfold w1. by rewrite after_process_called, logged_called.
Qed.

End EscalationHandler.

(** X15. An escalation handler that is a [BaseAgent] subclass without a
    case for the task type ['escalation'] answers every escalation with the
    failure "Unknown task type: escalation"; [handleEscalation] returns it
    as [escalationResult] without looking at its [success]. That is what
    happens on the server of [server.js]: the three workflows name
    ['UserInteractionAgent'], whose [process] has no such case. *)
Theorem escalation_handler_without_case (P : Type) (w : World P) (workflow : Workflow.t)
    (failedStep : Step.t) (err : AgentResult.t) (previousResults : list ResultEntry) :
  (forall handlerName busy handlers,
     Workflow.escalationHandler workflow = Some handlerName ->
     handlerName <> EmptyString ->
     registered_class w handlerName = Some (BaseAgent.subclass busy handlers) ->
     handlers "escalation" = None ->
     exists r w',
       AgentOrchestrator.handleEscalation workflow failedStep err previousResults w
       = (Normal (EscalationHandled r previousResults), w') /\
       AgentResult.success r = false /\
       AgentResult.error r = Some "Unknown task type: escalation") /\
  (forall impl,
     configured impl w ->
     workflow = Server.complete_solution \/ workflow = Server.iterative_refinement \/
     workflow = Server.quality_assurance ->
     exists r w',
       AgentOrchestrator.handleEscalation workflow failedStep err previousResults w
       = (Normal (EscalationHandled r previousResults), w') /\
       AgentResult.success r = false /\
       AgentResult.error r = Some "Unknown task type: escalation").
Proof.
  split.
  - intros handlerName busy handlers Hname Hne Hclass Hcase.
    destruct (handleEscalation_no_case workflow failedStep err previousResults w
                handlerName busy handlers Hname Hne Hclass Hcase)
      as (r & w' & Hrun & Hfail & Herr & _).
    by exists r, w'.
  - intros impl (_ & _ & _ & _ & _ & _ & Hu & _) Hwf.
    destruct (handleEscalation_no_case workflow failedStep err previousResults w
                "UserInteractionAgent" UserInteractionAgent.busy
                (switch (map (fun ty => (ty, impl "UserInteractionAgent" ty))
                           UserInteractionAgent.task_types)))
      as (r & w' & Hrun & Hfail & Herr & _).
    + by destruct Hwf as [-> | [-> | ->]].
    + done.
    + exact Hu.
    + by vm_compute.
    + by exists r, w'.
Qed.

(** The failing example, with an Echo agent as the handler. *)
Lemma escalation_handler_without_case_witness :
  exists r w',
    AgentOrchestrator.handleEscalation
      (Workflow.mk (Some "wf") [Examples.step_E (Some 2); Examples.step_B] (Some "E"))
      (Examples.step_E (Some 2)) Examples.failure_A [] (Examples.throwing (Some 2))
    = (Normal (EscalationHandled r []), w') /\
    AgentResult.error r = Some "Unknown task type: escalation".
Proof.
  destruct (escalation_handler_without_case (list Outcome) (Examples.throwing (Some 2))
              (Workflow.mk (Some "wf") [Examples.step_E (Some 2); Examples.step_B]
                 (Some "E"))
              (Examples.step_E (Some 2)) Examples.failure_A []) as [Hgeneral _].
  destruct (Hgeneral "E" "echoing" Echo.handlers) as (r & w' & Hrun & _ & Herr).
  - reflexivity.
  - discriminate.
  - vm_compute. reflexivity.
  - reflexivity.
  - exists r, w'. split; [exact Hrun|exact Herr].
Defined.

(** X16. A step with a negative [retries] keeps it ([n || 1] is [n]): the
    retry loop makes no attempt, the agent is charged one task and one
    error by [updateMetrics(0, true)] without ever being called, and
    [lastError], still [undefined], is thrown. The [catch] block of
    [executeWorkflow] then fails on [error.message], so the caller gets a
    [TypeError] and the failure is not logged; the counter is restored. *)
Theorem negative_retries_throw_undefined (P : Type) (w : World P) (workflowName : string)
    (workflow : Workflow.t) (task : Task.t) (pre post : list Step.t) (s : Step.t)
    (t : Task.t) (rs : list ResultEntry) (w1 : World P) (agent : ref) (o : AgentObj P)
    (n : Z) :
  workflows w !! workflowName = Some workflow ->
  activeTasksCount w < maxConcurrentTasks w ->
  Workflow.steps workflow = pre ++ s :: post ->
  AgentOrchestrator.for_steps workflow pre task [] (entered workflowName w)
  = (Normal (AgentOrchestrator.Fallthrough t rs), w1) ->
  Step.retries s = Some n -> n < 0 ->
  agents w !! Step.agentName s = Some agent ->
  heap w1 !! agent = Some o ->
  (exists w2,
     AgentOrchestrator.invoke_step s t w1 = (Throw JsUndefined, w2) /\
     called (trace w2) = called (trace w1)) /\
  exists w',
    AgentOrchestrator.executeWorkflow workflowName task w
    = (Throw (JsTypeError "Cannot read properties of undefined (reading 'message')"), w') /\
    activeTasksCount w' = activeTasksCount w /\
    called (trace w') = called (trace w1) /\
    trace w' = trace (logged info ("Executing step: " +:+ template_opt (Step.name s)
                                   +:+ " with agent: " +:+ Step.agentName s) w1) /\
    heap w' !! agent = Some (mkObj (updateMetrics (cls o) 0 true (fields o)) (cls o)).
Proof.
  intros Hwf Hfree Hsteps Hpre Hretries Hneg Hreg Ho.
  pose proof (for_steps_frame _ _ _ _ _ _ _ Hpre) as (_ & Hag & _ & Hcount & _).
  assert (Hreg1 : agents w1 !! Step.agentName s = Some agent)
    by (by rewrite Hag, entered_agents).
  assert (Hlimit : AgentOrchestrator.retries_or_1 s = n).
  { unfold AgentOrchestrator.retries_or_1. rewrite Hretries. simpl.
    destruct (Z.eqb_spec n 0); [lia|done]. }
  set (w0 := logged info ("Executing step: " +:+ template_opt (Step.name s)
                          +:+ " with agent: " +:+ Step.agentName s) w1).
  assert (Ho0 : heap w0 !! agent = Some o) by (unfold w0; by rewrite logged_heap).
  assert (Hstep : AgentOrchestrator.invoke_step s t w1
                  = (Throw JsUndefined, after_updateMetrics agent o 0 true w0)).
  { rewrite (invoke_step_registered _ _ _ _ Hreg1).
    unfold AgentOrchestrator.executeWithRetry. simpl default. rewrite Hlimit.
    replace (Z.to_nat n) with 0%nat by lia.
    by rewrite (retry_loop_exhausted _ _ _ _ _ _ _ Ho0). }
  split.
  - eexists. split; [exact Hstep|].
    change (trace (after_updateMetrics _ _ _ _ ?v)) with (trace v).
    apply logged_called.
  - rewrite (executeWorkflow_admitted _ _ task _ Hwf Hfree).
    rewrite attempt_workflow_run, Hsteps, for_steps_app, Hpre, for_steps_cons, Hstep.
    eexists. split; [reflexivity|]. simpl.
    assert (Hc0 : activeTasksCount w0 = activeTasksCount w1) by apply logged_same.
    rewrite Hc0, Hcount, entered_count, lookup_insert_eq.
    split; [lia|]. split; [apply logged_called|done].
Qed.

(** A first step with [retries: -1]. *)
Lemma negative_retries_throw_undefined_witness :
  exists w',
    AgentOrchestrator.executeWorkflow "wf" Examples.task_v1 (Examples.throwing (Some (-1)))
    = (Throw (JsTypeError "Cannot read properties of undefined (reading 'message')"), w')
    /\ called (trace w') = [].
Proof.
  destruct (negative_retries_throw_undefined (list Outcome)
              (Examples.throwing (Some (-1))) "wf"
              (Workflow.mk (Some "wf") [Examples.step_E (Some (-1)); Examples.step_B]
                 (Some "H"))
              Examples.task_v1 [] [Examples.step_B] (Examples.step_E (Some (-1)))
              Examples.task_v1 [] (entered "wf" (Examples.throwing (Some (-1))))
              0%nat (Echo.agent "E") (-1))
    as (_ & w' & Hrun & _ & Hcalled & _).
  - vm_compute. reflexivity.
  - vm_compute. reflexivity.
  - reflexivity.
  - reflexivity.
  - reflexivity.
  - lia.
  - vm_compute. reflexivity.
  - vm_compute. reflexivity.
  - exists w'. split; [exact Hrun|]. rewrite Hcalled. vm_compute. reflexivity.
Defined.

(** ** Invariants of the agent objects *)

Section InvariantFacts.
Context {P : Type}.
Implicit Types (w : World P) (o : AgentObj P) (agent : ref) (task : Task.t)
  (a : Agent.t P).
Variable Inv : AgentObj P -> Prop.
Hypothesis Hstable : method_stable Inv.

Import AgentOrchestrator.

Lemma heap_inv_heap w w' : heap w' = heap w -> heap_inv Inv w -> heap_inv Inv w'.
Proof. intros Hheap Hinv r o. rewrite Hheap. apply Hinv. Qed.

Lemma heap_inv_store agent o' w :
  Inv o' -> heap_inv Inv w -> heap_inv Inv (store agent o' w).
Proof.
  intros Ho' Hinv r o. simpl. destruct (decide (agent = r)) as [<-|Hne].
  - rewrite lookup_insert_eq. by intros [= <-].
  - rewrite lookup_insert_ne by done. apply Hinv.
Qed.

Lemma after_process_inv agent o task w :
  heap w !! agent = Some o -> heap_inv Inv w -> heap_inv Inv (after_process agent o task w).
Proof.
  intros Ho Hinv.
  apply (heap_inv_store agent
           (mkObj (after (process (cls o) task (clock w) (fields o))) (cls o)) w);
    [|done].
  apply (Hstable o); by eapply Hinv.
Qed.

Lemma after_updateMetrics_inv agent o t err w :
  heap w !! agent = Some o -> heap_inv Inv w ->
  heap_inv Inv (after_updateMetrics agent o t err w).
Proof.
  intros Ho Hinv. apply heap_inv_store; [|done]. apply (Hstable o); by eapply Hinv.
Qed.

Lemma retry_loop_inv agent task maxRetries remaining attempt lastError w :
  heap_inv Inv w ->
  heap_inv Inv (retry_loop agent task maxRetries remaining attempt lastError w).2.
Proof.
  revert attempt lastError w.
  induction remaining as [|remaining IH]; intros attempt lastError w Hinv.
  - destruct (heap w !! agent) as [o|] eqn:Ho.
    + rewrite (retry_loop_exhausted _ _ _ _ _ _ _ Ho). by apply after_updateMetrics_inv.
    + destruct (retry_loop_undefined agent task maxRetries 0 attempt lastError w Ho)
        as [msg ->]. done.
  - destruct (heap w !! agent) as [o|] eqn:Ho.
    + destruct (retry_loop_step agent o task maxRetries remaining attempt lastError w Ho)
        as [(r & _ & ->) | [(e & _ & _ & ->) | (e & t & _ & _ & ->)]].
      * simpl.
        apply (after_updateMetrics_inv agent
                 (mkObj (after (process (cls o) task (clock w) (fields o))) (cls o))).
        -- apply after_process_heap.
        -- by apply after_process_inv.
      * apply IH.
        eapply heap_inv_heap; [|by apply (after_process_inv agent o task)].
        unfold after_failed_attempt. by rewrite backed_off_heap, logged_heap.
      * by apply after_process_inv.
    + destruct (retry_loop_undefined agent task maxRetries (S remaining) attempt
                  lastError w Ho) as [msg ->]. done.
Qed.

Lemma invoke_step_inv (step : Step.t) task w :
  heap_inv Inv w -> heap_inv Inv (invoke_step step task w).2.
Proof.
  intros Hinv. destruct (agents w !! Step.agentName step) as [agent|] eqn:Hreg.
  - rewrite (invoke_step_registered _ _ _ _ Hreg). unfold executeWithRetry.
    apply retry_loop_inv. eapply heap_inv_heap; [apply logged_heap|done].
  - by rewrite (invoke_step_unregistered _ _ _ Hreg).
Qed.

Lemma handleEscalation_inv (workflow : Workflow.t) (failedStep : Step.t) err
    previousResults w :
  heap_inv Inv w ->
  heap_inv Inv (handleEscalation workflow failedStep err previousResults w).2.
Proof.
  intros Hinv. destruct (escalation_handler workflow w) as [handler|] eqn:Hh.
  - destruct (heap w !! handler) as [o|] eqn:Ho.
    + rewrite (handleEscalation_handler _ _ _ _ _ _ _ Hh Ho).
      assert (Hinv1 : heap_inv Inv (logged info "Handling escalation" w))
        by (eapply heap_inv_heap; [apply logged_heap|done]).
      assert (Ho1 : heap (logged info "Handling escalation" w) !! handler = Some o)
        by (by rewrite logged_heap).
      destruct (outcome _) as [r|msg|v]; [| |destruct (message_property v)]; cbn [snd].
      * by apply after_process_inv.
      * eapply heap_inv_heap; [apply logged_heap|]. by apply after_process_inv.
      * eapply heap_inv_heap; [apply logged_heap|]. by apply after_process_inv.
      * by apply after_process_inv.
    + rewrite (handleEscalation_undefined _ _ _ _ _ _ Hh Ho). simpl.
      eapply heap_inv_heap; [|exact Hinv]. by rewrite !logged_heap.
  - rewrite (handleEscalation_default _ _ _ _ _ Hh). simpl.
    eapply heap_inv_heap; [apply logged_heap|done].
Qed.

Lemma for_steps_inv (workflow : Workflow.t) steps task results w :
  heap_inv Inv w -> heap_inv Inv (for_steps workflow steps task results w).2.
Proof.
  revert task results w. induction steps as [|step rest IH]; intros task results w Hinv.
  - done.
  - rewrite for_steps_cons.
    pose proof (invoke_step_inv step task w Hinv) as Hstep.
    destruct (invoke_step step task w) as [[r|e] w1]; simpl in Hstep; [|done].
    simpl. destruct (negb (AgentResult.success r) && Step.escalateOnFailure step).
    + match goal with
      | |- context [handleEscalation ?wf ?st ?er ?pr ?v] =>
          assert (Hesc : heap_inv Inv (handleEscalation wf st er pr v).2)
            by (apply handleEscalation_inv; eapply heap_inv_heap;
                [apply logged_heap|done]);
          destruct (handleEscalation wf st er pr v) as [c0 w2]
      end; exact Hesc.
    + by apply IH.
Qed.

Lemma executeWorkflow_inv workflowName task w :
  heap_inv Inv w -> heap_inv Inv (executeWorkflow workflowName task w).2.
Proof.
  intros Hinv. destruct (workflows w !! workflowName) as [workflow|] eqn:Hwf.
  - destruct (Z.le_gt_cases (maxConcurrentTasks w) (activeTasksCount w)) as [Hfull|Hfree].
    + rewrite (executeWorkflow_full _ _ _ _ Hwf Hfull). simpl.
      eapply heap_inv_heap; [apply logged_heap|done].
    + rewrite (executeWorkflow_admitted _ _ _ _ Hwf Hfree).
      rewrite attempt_workflow_run.
      assert (Hloop : heap_inv Inv (for_steps workflow (Workflow.steps workflow) task []
                                      (entered workflowName w)).2).
      { apply for_steps_inv. eapply heap_inv_heap; [|exact Hinv].
        unfold entered. simpl. apply logged_heap. }
      destruct (for_steps workflow (Workflow.steps workflow) task []
                  (entered workflowName w)) as [[[t rs|r]|e] w1]; simpl in Hloop.
      * simpl. eapply heap_inv_heap; [|exact Hloop]. simpl. apply logged_heap.
      * exact Hloop.
      * destruct (unreadable e); simpl; try exact Hloop;
          (eapply heap_inv_heap; [|exact Hloop]; simpl; apply logged_heap).
  - by rewrite (executeWorkflow_unknown _ _ _ Hwf).
Qed.

End InvariantFacts.

Section BoundedFacts.
Context {P : Type}.
Implicit Types (w : World P) (o : AgentObj P) (task : Task.t) (a : Agent.t P).

Lemma create_bounded name role logger (p : P) :
  bounded (BaseAgent.create name role logger p).
Proof. unfold bounded. simpl. lia. Qed.

Lemma updateMetrics_bounded t err a : bounded a -> bounded (BaseAgent.updateMetrics t err a).
Proof.
  unfold bounded, BaseAgent.updateMetrics. simpl. intros [Hh He].
  split; [done|]. destruct err; lia.
Qed.

Lemma recordTask_bounded task result now a :
  bounded a -> bounded (BaseAgent.recordTask task result now a).
Proof.
  intros [Hh He]. split; [|done]. rewrite recordTask_history. simpl.
  destruct (Nat.ltb_spec (length (Agent.conversationHistory a)) 100).
  - rewrite length_app. simpl. lia.
  - destruct (Agent.conversationHistory a) as [|e0 h0]; simpl in *; [lia|].
    rewrite length_app. simpl. lia.
Qed.

Lemma setState_bounded newState a : bounded a -> bounded (BaseAgent.setState newState a).1.
Proof. done. Qed.

Lemma handleError_bounded msg task now a :
  bounded a -> bounded (BaseAgent.handleError msg task now a).1.2.
Proof. intros Hb. by apply (updateMetrics_bounded 0 true) in Hb. Qed.

Lemma subclass_process_bounded busy (handlers : string -> option (@BaseAgent.Handler P))
    task now a :
  bounded a -> bounded (after (BaseAgent.subclass_process busy handlers task now a)).
Proof.
  intros Hb. unfold BaseAgent.subclass_process.
  destruct (BaseAgent.validateTask task); [done|].
  apply (setState_bounded busy) in Hb. simpl.
  set (a1 := Agent.set_state busy a) in *.
  destruct (match Task.type task with JStr ty => handlers ty | _ => None end) as [h|].
  - assert (Hb2 : bounded (Agent.set_priv (BaseAgent.h_priv (h (Task.data task) a1)) a1))
      by done.
    destruct (BaseAgent.h_outcome (h (Task.data task) a1)) as [result|msg]; simpl.
    + apply (setState_bounded "idle"), recordTask_bounded.
      by apply updateMetrics_bounded.
    + exact (handleError_bounded msg task 0 _ Hb2).
  - exact (handleError_bounded ("Unknown task type: " +:+ template (Task.type task))
             task 0 _ Hb).
Qed.

Lemma subclass_bounded_stable : method_stable (@subclass_bounded P).
Proof.
  intros o Hb. split.
  - intros task now [busy [handlers Hcls]]. simpl in *. rewrite Hcls. simpl.
    apply subclass_process_bounded. apply Hb. by exists busy, handlers.
  - intros t err [busy [handlers Hcls]]. simpl in *. rewrite Hcls. simpl.
    apply updateMetrics_bounded. apply Hb. by exists busy, handlers.
Qed.

Lemma started_bounded (impl : string -> string -> @BaseAgent.Handler P)
    (init : string -> P) (clock : Z) :
  heap_inv subclass_bounded (Server.started impl init clock).
Proof.
  change (map_Forall (fun _ => subclass_bounded) (Server.objects impl init)).
  unfold Server.objects.
  repeat (apply map_Forall_insert_2; [intros _; apply create_bounded|]).
  apply map_Forall_empty.
Qed.

End BoundedFacts.

(** X17. The bookkeeping of a [BaseAgent] stays within bounds: a new
    agent has at most 100 history entries and no more errors than tasks,
    [process] of any subclass and [updateMetrics] keep it so, and hence
    every workflow execution leaves every such agent of the orchestrator
    within these bounds, however it ends. *)
Theorem agents_stay_bounded (P : Type) :
  (forall name role logger (p : P), bounded (BaseAgent.create name role logger p)) /\
  (forall busy handlers task now (a : Agent.t P),
     bounded a -> bounded (after (BaseAgent.subclass_process busy handlers task now a))) /\
  (forall t err (a : Agent.t P), bounded a -> bounded (BaseAgent.updateMetrics t err a)) /\
  (forall workflowName task (w : World P),
     heap_inv subclass_bounded w ->
     heap_inv subclass_bounded
       (snd (AgentOrchestrator.executeWorkflow workflowName task w))).
Proof.
  split; [apply create_bounded|].
  split; [apply subclass_process_bounded|].
  split; [apply updateMetrics_bounded|].
  intros workflowName task w.
  apply (executeWorkflow_inv subclass_bounded subclass_bounded_stable).
Qed.

(** The server's agents before and after a run of 'quality-assurance'. *)
Lemma agents_stay_bounded_witness :
  heap_inv subclass_bounded ServerExample.world /\
  heap_inv subclass_bounded
    (snd (AgentOrchestrator.executeWorkflow "quality-assurance" ServerExample.task
            ServerExample.world)).
Proof.
  destruct (agents_stay_bounded unit) as (_ & _ & _ & Hrun).
  split; [apply started_bounded|].
  apply Hrun. apply started_bounded.
Defined.

Section Registration.
Context {P : Type}.
Implicit Types (w : World P) (o : AgentObj P) (agent : ref).

Lemma register_all_fresh (refs : list ref) (objs : list (AgentObj P)) w :
  Forall2 (fun r o => heap w !! r = Some o) refs objs ->
  NoDup ((fun o => Agent.name (fields o)) <$> objs) ->
  Forall (fun o => agents w !! Agent.name (fields o) = None) objs ->
  exists w',
    Server.register_all refs w = (Normal tt, w') /\
    agents w'
    = list_to_map (zip ((fun o => Agent.name (fields o)) <$> objs) refs) ∪ agents w /\
    size (agents w') = (size (agents w) + length refs)%nat /\
    heap w' = heap w /\ workflows w' = workflows w /\
    activeTasksCount w' = activeTasksCount w.
Proof.
  revert w objs.
  induction refs as [|r refs IH]; intros w objs Hobjs Hdup Hfresh.
  - apply Forall2_nil_inv_l in Hobjs as ->. exists w. simpl.
    rewrite (left_id_L ∅ (∪)). repeat split; lia.
  - apply Forall2_cons_inv_l in Hobjs as (o & objs' & Ho & Hrest & ->).
    rewrite fmap_cons in Hdup. apply NoDup_cons in Hdup as [Hnotin Hdup].
    apply Forall_cons in Hfresh as [Hname Hfresh].
    set (w1 := logged info ("Agent registered: " +:+ Agent.name (fields o) +:+ " ("
                            +:+ Agent.role (fields o) +:+ ")")
                 (AgentOrchestrator.set_agents
                    (<[Agent.name (fields o) := r]> (agents w)) w)).
    assert (Hheap1 : heap w1 = heap w) by (unfold w1; by rewrite logged_heap).
    assert (Hag1 : agents w1 = <[Agent.name (fields o) := r]> (agents w)).
    { unfold w1, logged. by destruct (logger _). }
    assert (Hwf1 : workflows w1 = workflows w /\ activeTasksCount w1 = activeTasksCount w).
    { unfold w1, logged. by destruct (logger _). }
    destruct (IH w1 objs') as (w' & Hrun & Hag & Hsize & Hheap & Hwf & Hcount).
    + eapply Forall2_impl; [exact Hrest|]. intros r' o' Hr'. by rewrite Hheap1.
    + done.
    + apply Forall_forall. intros o' Hin. rewrite Hag1.
      rewrite lookup_insert_ne.
      * by apply (proj1 (Forall_forall _ _) Hfresh).
      * intros Heq. apply Hnotin. rewrite Heq. by apply (list_elem_of_fmap_2 (fun o => Agent.name (fields o))).
    + exists w'. split.
      { simpl. unfold bind at 1. rewrite (registerAgent_absent _ _ _ Ho Hname).
        fold w1. exact Hrun. }
      split.
      { rewrite Hag, Hag1. simpl. rewrite <- insert_union_l.
        rewrite insert_union_r; [done|].
        apply not_elem_of_list_to_map_1. rewrite fst_zip.
        - done.
        - rewrite length_fmap. apply Forall2_length in Hrest. lia. }
      split.
      { rewrite Hsize, Hag1, map_size_insert_None by done. simpl. lia. }
      destruct Hwf1 as [Hwf1 Hcount1].
      split; [by rewrite Hheap|]. split; [by rewrite Hwf|by rewrite Hcount].
Qed.

End Registration.

(** X18. A run of [registerAgent] calls on objects with pairwise distinct
    names, none of them registered yet, goes through: afterwards every
    name resolves to its object, the other names are as before, and the
    registry has grown by the number of calls. *)
Theorem registerAgent_distinct_names (P : Type) (w : World P) (refs : list ref)
    (objs : list (AgentObj P)) :
  Forall2 (fun r o => heap w !! r = Some o) refs objs ->
  NoDup ((fun o => Agent.name (fields o)) <$> objs) ->
  Forall (fun o => agents w !! Agent.name (fields o) = None) objs ->
  exists w',
    Server.register_all refs w = (Normal tt, w') /\
    (forall i r o, refs !! i = Some r -> objs !! i = Some o ->
       agents w' !! Agent.name (fields o) = Some r) /\
    (forall name, name ∉ ((fun o => Agent.name (fields o)) <$> objs) ->
       agents w' !! name = agents w !! name) /\
    size (agents w') = (size (agents w) + length refs)%nat /\
    heap w' = heap w /\ workflows w' = workflows w.
Proof.
  intros Hobjs Hdup Hfresh.
  destruct (register_all_fresh refs objs w Hobjs Hdup Hfresh)
    as (w' & Hrun & Hag & Hsize & Hheap & Hwf & _).
  assert (Hlen : length ((fun o => Agent.name (fields o)) <$> objs) = length refs).
  { rewrite length_fmap. apply Forall2_length in Hobjs. lia. }
  exists w'. split; [exact Hrun|]. split; [|split; [|done]].
  - intros i r o Hr Ho. rewrite Hag. apply lookup_union_Some_l.
    apply elem_of_list_to_map_1.
    + by rewrite fst_zip by lia.
    + apply list_elem_of_lookup. exists i. apply lookup_zip_with_Some.
      exists (Agent.name (fields o)), r. split; [done|]. split; [|done].
      by rewrite list_lookup_fmap, Ho.
  - intros name Hnotin. rewrite Hag. apply lookup_union_r.
    apply not_elem_of_list_to_map_1. by rewrite fst_zip by lia.
Qed.

(** Two echo agents of different names, registered in turn. *)
Lemma registerAgent_distinct_names_witness :
  exists w',
    Server.register_all [0%nat; 2%nat]
      (AgentOrchestrator.create
         {[ 0%nat := Echo.agent "E"; 2%nat := Echo.agent "H" ]} true 0)
    = (Normal tt, w') /\
    agents w' !! "E" = Some 0%nat /\ agents w' !! "H" = Some 2%nat /\
    size (agents w') = 2%nat.
Proof.
  destruct (registerAgent_distinct_names (list Outcome)
              (AgentOrchestrator.create
                 {[ 0%nat := Echo.agent "E"; 2%nat := Echo.agent "H" ]} true 0)
              [0%nat; 2%nat] [Echo.agent "E"; Echo.agent "H"])
    as (w' & Hrun & Hreg & _ & Hsize & _).
  - repeat constructor.
  - apply (bool_decide_unpack _). vm_compute. reflexivity.
  - repeat constructor.
  - exists w'. split; [exact Hrun|].
    split; [exact (Hreg 0%nat 0%nat (Echo.agent "E") eq_refl eq_refl)|].
    split; [exact (Hreg 1%nat 2%nat (Echo.agent "H") eq_refl eq_refl)|].
    exact Hsize.
Defined.

